(** * Auditable memory layer for invoice correction: model and properties

    A shallow embedding of the memory-augmented decision pipeline:
    confidence decay ([engine/confidenceDecay.ts]), the duplicate guard
    ([engine/duplicateGuard.ts]), the memory stores ([db/vendorMemory.ts],
    [db/correctionMemory.ts], [db/resolutionMemory.ts],
    [db/learningEvents.ts], [db/auditEvents.ts]), the admin commands
    ([admin/commands.ts]) and the recall / apply / decide / learn engine
    ([engine/runPipeline.ts]).

    Several of these files are present in more than one revision.  The
    engine embedded here is the revision that decays memory confidence
    ([canApplyVendorMem], [RES_KEYS.poInfer], a purchase-order exemption in
    [hasCriticalMissingFields]); the guard is the revision that follows
    duplicate-of pointers; the decay is the revision with the explicit
    [diffMs <= 0] test; vendor memory is the revision whose recall keeps
    active rows only.

    Conventions of the model.
    - A JavaScript number is a [num]: a finite value carried by a real, or one
      of [+Infinity], [-Infinity], [NaN].  Finite arithmetic is exact
      arithmetic on reals; rounding of IEEE doubles is not modelled.
    - Strings are byte strings; case folding and trimming follow JavaScript
      on ASCII text.
    - A stored ISO timestamp is kept in parsed form ([isoTime]).
    - The relational store is a record of tables, each a list in rowid
      order, since the queries of the source pick first rows.
    - The wall clock ([new Date()]) is read once per run. *)

From Stdlib Require Import Reals Lra Lia ZArith Bool Ascii String List.
Import ListNotations.


Local Open Scope R_scope.

(** ** JavaScript numbers *)

Inductive num : Type :=
| Fin (r : R)
| PInf
| NInf
| NaN.

(** [Number.isFinite] *)
Definition isFinite (n : num) : bool :=
  match n with Fin _ => true | _ => false end.

Definition Rltb (x y : R) : bool := if Rlt_dec x y then true else false.
Definition Rleb (x y : R) : bool := if Rle_dec x y then true else false.
Definition Reqb (x y : R) : bool := if Req_dec_T x y then true else false.

(** ** engine/confidenceDecay.ts *)

(** A value of type [string | null | undefined] holding an ISO timestamp, in
    parsed form: [new Date(iso).getTime()] is [ms] for [TsAt ms] and [NaN]
    for [TsInvalid]. *)
Inductive isoTime : Type :=
| TsNull                (* null or undefined *)
| TsEmpty               (* the empty string *)
| TsInvalid             (* a non-empty string that Date cannot parse *)
| TsAt (ms : Z).        (* a parsable instant, milliseconds since the epoch *)

(** [a ?? b] on timestamps *)
Definition ts_coalesce (a b : isoTime) : isoTime :=
  match a with TsNull => b | _ => a end.

Definition msPerDay : R := 1000 * 60 * 60 * 24.

Definition daysSince (iso : isoTime) (now : Z) : num :=
  match iso with
  | TsNull | TsEmpty => PInf
  | TsInvalid => PInf
  | TsAt t =>
      let diffMs := (now - t)%Z in
      if (diffMs <=? 0)%Z then Fin 0 else Fin (IZR diffMs / msPerDay)
  end.

Definition clamp01 (x : R) : R := Rmax 0 (Rmin 1 x).

(** Every return path yields a finite number, so the result is a real.
    [halfLifeDays] is a finite number at every call site (the default 30). *)
Definition decayedConfidence (base days : num) (halfLifeDays : R) : R :=
  match base with
  | Fin b =>
      let base := clamp01 b in
      match days with
      | Fin d =>
          if Rleb d 0 then base
          else
            let hl := Rmax (1 / 1000000) halfLifeDays in
            let lambda := ln 2 / hl in
            let factor := exp (- lambda * d) in
            clamp01 (base * factor)
      | _ => 0
      end
  | _ => 0
  end.

(** The default argument [halfLifeDays = 30]. *)
Definition decayedConfidence30 (base days : num) : R :=
  decayedConfidence base days 30.

Arguments decayedConfidence : simpl never.
Arguments decayedConfidence30 : simpl never.

(** The decay factor [exp(-lambda * days)] of the source. *)
Definition decayFactor (halfLifeDays d : R) : R :=
  exp (- (ln 2 / Rmax (1 / 1000000) halfLifeDays) * d).


(** ** Strings

    A string is the list of its bytes.  Comparison, concatenation and the
    search for a substring are the same on bytes as in JavaScript.
    [String.prototype.toLowerCase], [toUpperCase] and [trim] depend on the
    Unicode tables of the run time, and [slice] counts UTF-16 code units:
    they are operations of [JsOps] below.  What they compute on a string of
    ASCII characters is written out here ([asciiToLowerCase],
    [asciiToUpperCase], [asciiTrim], [asciiSlice0]), for the sample data
    and for the properties that are about ASCII strings. *)

Local Open Scope string_scope.

Definition isUpperAscii (c : ascii) : bool :=
  let n := nat_of_ascii c in (65 <=? n)%nat && (n <=? 90)%nat.

Definition isLowerAscii (c : ascii) : bool :=
  let n := nat_of_ascii c in (97 <=? n)%nat && (n <=? 122)%nat.

Definition lowerAscii (c : ascii) : ascii :=
  if isUpperAscii c then ascii_of_nat (nat_of_ascii c + 32) else c.

Definition upperAscii (c : ascii) : ascii :=
  if isLowerAscii c then ascii_of_nat (nat_of_ascii c - 32) else c.

Fixpoint mapString (f : ascii -> ascii) (s : string) : string :=
  match s with
  | EmptyString => EmptyString
  | String c s' => String (f c) (mapString f s')
  end.

Definition asciiToLowerCase : string -> string := mapString lowerAscii.
Definition asciiToUpperCase : string -> string := mapString upperAscii.

(** White space removed by [trim]: tab, line feed, vertical tab, form feed,
    carriage return, space. *)
Definition isWhite (c : ascii) : bool :=
  let n := nat_of_ascii c in
  ((9 <=? n)%nat && (n <=? 13)%nat) || (n =? 32)%nat.

Fixpoint trimStart (s : string) : string :=
  match s with
  | EmptyString => EmptyString
  | String c s' => if isWhite c then trimStart s' else s
  end.

Fixpoint trimEnd (s : string) : string :=
  match s with
  | EmptyString => EmptyString
  | String c s' =>
      match trimEnd s' with
      | EmptyString => if isWhite c then EmptyString else String c EmptyString
      | t => String c t
      end
  end.

Definition asciiTrim (s : string) : string := trimEnd (trimStart s).

(** [s.includes(sub)] *)
Fixpoint includes (s sub : string) : bool :=
  prefix sub s ||
  match s with
  | EmptyString => false
  | String _ s' => includes s' sub
  end.

(** [s.slice(0, n)] on a string of ASCII characters: its first [n]
    characters *)
Definition asciiSlice0 (n : nat) (s : string) : string := substring 0 n s.

(** [parts.join(sep)] *)
Definition join (sep : string) (parts : list string) : string :=
  String.concat sep parts.

(** A string is falsy exactly when it is empty. *)
Definition nonEmpty (s : string) : bool :=
  match s with EmptyString => false | _ => true end.

(** [a || b] on strings *)
Definition strOr (a b : string) : string := if nonEmpty a then a else b.

(** ** JavaScript values held by loosely typed fields *)

Local Open Scope R_scope.

(** [{ percent, days }], the shape of early-payment terms *)
Record Skonto : Type := mkSkonto { percent : num; days : num }.

Inductive value : Type :=
| VUndef
| VNull
| VStr (s : string)
| VNum (n : num)
| VSkonto (k : Skonto).

(** [v == null] *)
Definition isNullish (v : value) : bool :=
  match v with VUndef | VNull => true | _ => false end.

(** [a ?? b] *)
Definition coalesce (a b : value) : value := if isNullish a then b else a.

Definition truthyNum (n : num) : bool :=
  match n with
  | Fin r => negb (Reqb r 0)
  | PInf | NInf => true
  | NaN => false
  end.

(** [!!v] *)
Definition truthy (v : value) : bool :=
  match v with
  | VUndef | VNull => false
  | VStr s => nonEmpty s
  | VNum n => truthyNum n
  | VSkonto _ => true
  end.

(** [Number.isFinite(v)]: true only on a finite number, no coercion *)
Definition valueIsFinite (v : value) : bool :=
  match v with VNum n => isFinite n | _ => false end.

Definition numStrictEq (a b : num) : bool :=
  match a, b with
  | Fin x, Fin y => Reqb x y
  | PInf, PInf | NInf, NInf => true
  | _, _ => false
  end.

(** [a === b]; two object values are distinct objects *)
Definition strictEq (a b : value) : bool :=
  match a, b with
  | VUndef, VUndef | VNull, VNull => true
  | VStr x, VStr y => String.eqb x y
  | VNum x, VNum y => numStrictEq x y
  | _, _ => false
  end.

(** [a < b] on numbers: false as soon as one side is [NaN] *)
Definition numLt (a b : num) : bool :=
  match a, b with
  | NaN, _ | _, NaN => false
  | Fin x, Fin y => Rltb x y
  | Fin _, PInf => true
  | Fin _, NInf => false
  | PInf, _ => false
  | NInf, NInf => false
  | NInf, _ => true
  end.

(** [a <= b] on numbers *)
Definition numLe (a b : num) : bool :=
  match a, b with
  | NaN, _ | _, NaN => false
  | Fin x, Fin y => Rleb x y
  | Fin _, PInf => true
  | Fin _, NInf => false
  | PInf, PInf => true
  | PInf, _ => false
  | NInf, _ => true
  end.

(** ** Built-in conversions and regular-expression extractors

    The engine reaches JavaScript built-ins (number formatting and parsing,
    [JSON.parse], [Date] arithmetic, the case mappings, [trim] and [slice]
    of strings) and a family of regular-expression searches over the raw
    invoice text.  They are operations of the run-time
    the decision logic is parametric in: every property below holds whatever
    they return. *)

Record JsOps : Type := mkJsOps {
  (** [String(n)] for a number *)
  numToString : num -> string;
  (** [Number(s)] for a string *)
  stringToNumber : string -> num;
  (** [JSON.parse(s)]; [None] when it throws *)
  JSON_parse : string -> option value;
  (** [/Leistungsdatum:\s*(dd)\.(mm)\.(yyyy)/], rendered [yyyy-mm-dd] *)
  extractLeistungsdatum : string -> option string;
  (** [Currency: XXX], [Total: n XXX] or a trailing EUR/USD/GBP *)
  parseCurrency : string -> option string;
  (** [/Total:\s*([0-9]+(?:[.,][0-9]{2})?)/i] as a finite number *)
  extractTotalFromRawText : string -> option R;
  (** [/MwSt\.\s*inkl\.|Prices\s+incl\.\s*VAT|VAT\s+included/i] *)
  isVatInclusiveText : string -> bool;
  (** [/(\d+)%\s*Skonto.*?(\d+)\s*(days|tage)/i] *)
  extractSkonto : string -> option Skonto;
  (** dd.mm.yyyy, dd-mm-yyyy or yyyy-mm-dd to yyyy-mm-dd *)
  parseDateToIso : string -> option string;
  (** whole days between two dates, [NaN] when one does not parse *)
  daysBetween : string -> string -> num;
  (** [/freight\s*&\s*co/i.test(vendor)] *)
  isFreightVendor : string -> bool;
  (** [/shipping|seefracht|transport/i.test(description)] *)
  isFreightDescription : string -> bool;
  (** first group of [/sku=([A-Z0-9\-]+)/i] in a field path *)
  skuOfField : string -> option string;
  (** [s.toLowerCase()], [s.toUpperCase()] and [s.trim()] *)
  toLowerCase : string -> string;
  toUpperCase : string -> string;
  trim : string -> string;
  (** [s.slice(0, n)] *)
  slice0 : nat -> string -> string
}.

(** [String(v)] *)
Definition toStr (ops : JsOps) (v : value) : string :=
  match v with
  | VUndef => "undefined"
  | VNull => "null"
  | VStr s => s
  | VNum n => numToString ops n
  | VSkonto _ => "[object Object]"
  end.

(** [Number(v)] *)
Definition toNum (ops : JsOps) (v : value) : num :=
  match v with
  | VUndef => NaN
  | VNull => Fin 0
  | VStr s => stringToNumber ops s
  | VNum n => n
  | VSkonto _ => NaN
  end.

(** ** Inputs of the engine *)

Record LineItem : Type := mkLineItem {
  li_sku : value;
  li_qty : value;
  li_description : value
}.

(** [fields: Record<string, unknown>], the properties the engine reads *)
Record Fields : Type := mkFields {
  f_invoiceNumber : value;
  f_invoiceDate : value;
  f_serviceDate : value;
  f_currency : value;
  f_netTotal : value;
  f_grossTotal : value;
  f_taxTotal : value;
  f_taxRate : value;
  f_poNumber : value;
  f_discountTerms : value;
  f_lineItems : option (list LineItem)
}.

(** [InvoiceExtracted] of [adapters/loadInvoices.ts].  Properties the
    declared type does not have ([invoiceNumber], [currency], [grossTotal],
    [netTotal], [normalizedInvoice] at top level) read as [undefined]. *)
Record InvoiceExtracted : Type := mkInvoice {
  inv_invoiceId : string;
  inv_vendor : string;
  inv_fields : Fields;
  inv_rawText : option string
}.

Record PoLine : Type := mkPoLine { pol_sku : string; pol_qty : num }.

Record PurchaseOrder : Type := mkPO {
  po_poNumber : string;
  po_vendor : string;
  po_date : string;
  po_lineItems : list PoLine
}.

Record DnLine : Type := mkDnLine { dnl_sku : string; dnl_qtyDelivered : num }.

Record DeliveryNote : Type := mkDN {
  dn_vendor : string;
  dn_poNumber : string;
  dn_lineItems : list DnLine
}.

Record ReferenceData : Type := mkReference {
  purchaseOrders : list PurchaseOrder;
  deliveryNotes : list DeliveryNote
}.

(** One entry of [HumanCorrection.corrections] *)
Record FieldCorrection : Type := mkFieldCorrection {
  fc_field : string;
  fc_to : value
}.

(** [HumanCorrection] of [adapters/loadCorrections.ts] *)
Record HumanCorrection : Type := mkHumanCorrection {
  hc_corrections : list FieldCorrection;
  hc_finalDecision : string
}.

Record Context : Type := mkContext {
  ctx_vendor : string;
  ctx_extracted : InvoiceExtracted;
  ctx_reference : ReferenceData;
  ctx_correctionsForInvoice : list HumanCorrection
}.

(** ** Persisted records *)

Inductive Status : Type := Active | Disabled | Suspect.

Definition Status_eqb (a b : Status) : bool :=
  match a, b with
  | Active, Active | Disabled, Disabled | Suspect, Suspect => true
  | _, _ => false
  end.

Inductive Decision : Type := Approved | Rejected.

Record InvoiceRun : Type := mkRun {
  run_invoiceId : string;
  run_vendor : string;
  run_dataset : string;
  run_createdAt : Z;
  run_invoiceNumber : option string;
  run_fingerprint : option string;
  run_isDuplicate : Z;
  run_duplicateOfInvoiceId : option string
}.

(** A row of [vendor_memory]; the table has no [createdAt] column. *)
Record VendorMemory : Type := mkVendorMemory {
  vm_id : string;
  vm_vendor : string;
  vm_kind : string;
  vm_pattern : string;
  vm_confidence : R;
  vm_supportCount : Z;
  vm_rejectCount : Z;
  vm_lastUsedAt : isoTime;
  vm_status : Status;
  vm_disabledAt : isoTime
}.

(** A row of [correction_memory]; [cm_status] is [None] when the schema has
    no status column or the column is null. *)
Record CorrectionMemoryRow : Type := mkCorrectionMemory {
  cm_id : string;
  cm_vendor : string;
  cm_fieldPath : string;
  cm_patternType : string;
  cm_patternValue : string;
  cm_recommendedValue : string;
  cm_confidence : R;
  cm_supportCount : Z;
  cm_rejectCount : Z;
  cm_lastUsedAt : isoTime;
  cm_createdAt : isoTime;
  cm_status : option Status
}.

(** The parsed [valueJson] of a resolution row *)
Record ResolutionValueJson : Type := mkResolutionValue {
  rv_approved : Z;
  rv_rejected : Z;
  rv_lastDecision : option Decision;
  rv_lastInvoiceId : option string
}.

Record ResolutionMemoryRow : Type := mkResolution {
  rm_vendor : string;
  rm_key : string;
  rm_value : ResolutionValueJson;
  rm_confidence : R;
  rm_rejectCount : Z;
  rm_lastUsedAt : isoTime;
  rm_disabledAt : isoTime;
  rm_createdAt : isoTime
}.

(** [createdAt] is the instant written by [toISOString]; such strings order
    as their instants do. *)
Record DuplicateRecord : Type := mkDuplicateRecord {
  dr_invoiceId : string;
  dr_vendor : string;
  dr_fingerprint : string;
  dr_duplicateOfInvoiceId : option string;
  dr_reason : string;
  dr_createdAt : Z
}.

Record LearningEvent : Type := mkLearningEvent {
  le_invoiceId : string;
  le_learnedAt : Z
}.

Inductive AuditEventType : Type :=
| DUPLICATE_DETECTED
| LEARN_APPROVED
| LEARN_REJECTED
| MEMORY_DISABLED
| MEMORY_CONFIDENCE_RESET
| ADMIN_ACTION
| CORRECTION_MEMORY_REJECTED
| RESOLUTION_APPROVED
| RESOLUTION_REJECTED.

(** The [meta] objects the engine and the admin commands serialise *)
Inductive AuditMeta : Type :=
| MetaDuplicate (duplicateOfInvoiceId reason : string)
| MetaCorrectionRejected (id : string) (rejectCount : option Z)
    (status : option Status)
| MetaResolution (key : string) (v : ResolutionValueJson)
| MetaLearn (updates : list string)
| MetaAdmin (action : string) (to : option R) (changes : nat).

Record AuditEvent : Type := mkAuditEvent {
  ae_ts : Z;
  ae_eventType : AuditEventType;
  ae_vendor : option string;
  ae_invoiceId : option string;
  ae_entityType : option string;
  ae_entityId : option string;
  ae_meta : AuditMeta
}.

(** The store: one list per table, in rowid order, with the results of the
    column probes ([PRAGMA table_info]) that the stores cache. *)
Record Db : Type := mkDb {
  invoice_runs : list InvoiceRun;
  vendor_memory : list VendorMemory;
  correction_memory : list CorrectionMemoryRow;
  correction_hasStatus : bool;
  resolution_memory : list ResolutionMemoryRow;
  resolution_hasDisabledAt : bool;
  resolution_hasRejectCount : bool;
  duplicate_records : list DuplicateRecord;
  learning_events : list LearningEvent;
  audit_events : list AuditEvent
}.

Definition set_invoice_runs (db : Db) (x : list InvoiceRun) : Db :=
  mkDb x (vendor_memory db) (correction_memory db) (correction_hasStatus db)
    (resolution_memory db) (resolution_hasDisabledAt db)
    (resolution_hasRejectCount db) (duplicate_records db)
    (learning_events db) (audit_events db).

Definition set_vendor_memory (db : Db) (x : list VendorMemory) : Db :=
  mkDb (invoice_runs db) x (correction_memory db) (correction_hasStatus db)
    (resolution_memory db) (resolution_hasDisabledAt db)
    (resolution_hasRejectCount db) (duplicate_records db)
    (learning_events db) (audit_events db).

Definition set_correction_memory (db : Db) (x : list CorrectionMemoryRow) : Db :=
  mkDb (invoice_runs db) (vendor_memory db) x (correction_hasStatus db)
    (resolution_memory db) (resolution_hasDisabledAt db)
    (resolution_hasRejectCount db) (duplicate_records db)
    (learning_events db) (audit_events db).

Definition set_resolution_memory (db : Db) (x : list ResolutionMemoryRow) : Db :=
  mkDb (invoice_runs db) (vendor_memory db) (correction_memory db)
    (correction_hasStatus db) x (resolution_hasDisabledAt db)
    (resolution_hasRejectCount db) (duplicate_records db)
    (learning_events db) (audit_events db).

Definition set_duplicate_records (db : Db) (x : list DuplicateRecord) : Db :=
  mkDb (invoice_runs db) (vendor_memory db) (correction_memory db)
    (correction_hasStatus db) (resolution_memory db)
    (resolution_hasDisabledAt db) (resolution_hasRejectCount db) x
    (learning_events db) (audit_events db).

Definition set_learning_events (db : Db) (x : list LearningEvent) : Db :=
  mkDb (invoice_runs db) (vendor_memory db) (correction_memory db)
    (correction_hasStatus db) (resolution_memory db)
    (resolution_hasDisabledAt db) (resolution_hasRejectCount db)
    (duplicate_records db) x (audit_events db).

Definition set_audit_events (db : Db) (x : list AuditEvent) : Db :=
  mkDb (invoice_runs db) (vendor_memory db) (correction_memory db)
    (correction_hasStatus db) (resolution_memory db)
    (resolution_hasDisabledAt db) (resolution_hasRejectCount db)
    (duplicate_records db) (learning_events db) x.

(** [UPDATE t SET ... WHERE p]: rewrite the rows that satisfy [p] in place *)
Definition updateWhere {A : Type} (p : A -> bool) (f : A -> A) (rows : list A)
  : list A :=
  map (fun r => if p r then f r else r) rows.

(** ** db/auditEvents.ts *)

(** [ts] is [args.now] when the caller passes it and the wall clock
    otherwise; the caller resolves that choice. *)
Definition logAuditEvent (db : Db) (ts : Z) (eventType : AuditEventType)
    (vendor invoiceId entityType entityId : option string) (meta : AuditMeta)
  : Db :=
  set_audit_events db
    (audit_events db ++
     [mkAuditEvent ts eventType vendor invoiceId entityType entityId meta]).

(** ** db/learningEvents.ts *)

Definition hasLearned (db : Db) (invoiceId : string) : bool :=
  existsb (fun e => String.eqb (le_invoiceId e) invoiceId) (learning_events db).

(** [INSERT OR IGNORE]: the primary key [invoiceId] keeps the first row *)
Definition markLearned (db : Db) (invoiceId : string) (wall : Z) : Db :=
  if hasLearned db invoiceId then db
  else set_learning_events db
         (learning_events db ++ [mkLearningEvent invoiceId wall]).

(** ** db/vendorMemory.ts *)

Definition tsNullOrEmpty (t : isoTime) : bool :=
  match t with TsNull | TsEmpty => true | _ => false end.

Definition getVendorMemories (db : Db) (vendor : string) : list VendorMemory :=
  filter (fun m => String.eqb (vm_vendor m) vendor
                   && Status_eqb (vm_status m) Active
                   && tsNullOrEmpty (vm_disabledAt m))
         (vendor_memory db).

(** [INSERT ... ON CONFLICT(id) DO UPDATE SET] every column of [mem]; the
    statement does not mention [disabledAt], which keeps its stored value on
    conflict and is null on insert. *)
Definition upsertVendorMemory (db : Db) (mem : VendorMemory) : Db :=
  let hit := fun m => String.eqb (vm_id m) (vm_id mem) in
  if existsb hit (vendor_memory db) then
    set_vendor_memory db
      (updateWhere hit
         (fun old =>
            mkVendorMemory (vm_id mem) (vm_vendor mem) (vm_kind mem)
              (vm_pattern mem) (vm_confidence mem) (vm_supportCount mem)
              (vm_rejectCount mem) (vm_lastUsedAt mem) (vm_status mem)
              (vm_disabledAt old))
         (vendor_memory db))
  else
    set_vendor_memory db
      (vendor_memory db ++
       [mkVendorMemory (vm_id mem) (vm_vendor mem) (vm_kind mem)
          (vm_pattern mem) (vm_confidence mem) (vm_supportCount mem)
          (vm_rejectCount mem) (vm_lastUsedAt mem) (vm_status mem) TsNull]).

(** ** admin/commands.ts *)

Definition countWhere {A : Type} (p : A -> bool) (rows : list A) : nat :=
  List.length (filter p rows).

Definition disableVendorMemory (db : Db) (id : string) (wall : Z) : Db :=
  let hit := fun m => String.eqb (vm_id m) id in
  let db1 :=
    set_vendor_memory db
      (updateWhere hit
         (fun m =>
            mkVendorMemory (vm_id m) (vm_vendor m) (vm_kind m) (vm_pattern m)
              (vm_confidence m) (vm_supportCount m) (vm_rejectCount m)
              (vm_lastUsedAt m) Disabled (TsAt wall))
         (vendor_memory db)) in
  logAuditEvent db1 wall ADMIN_ACTION None None (Some "vendor_memory")
    (Some id) (MetaAdmin "disable" None (countWhere hit (vendor_memory db))).

Definition resetVendorMemoryConfidence (db : Db) (id : string) (to : R)
    (wall : Z) : Db :=
  let hit := fun m => String.eqb (vm_id m) id in
  let db1 :=
    set_vendor_memory db
      (updateWhere hit
         (fun m =>
            mkVendorMemory (vm_id m) (vm_vendor m) (vm_kind m) (vm_pattern m)
              to (vm_supportCount m) 0%Z (vm_lastUsedAt m) (vm_status m)
              (vm_disabledAt m))
         (vendor_memory db)) in
  logAuditEvent db1 wall MEMORY_CONFIDENCE_RESET None None
    (Some "vendor_memory") (Some id)
    (MetaAdmin "reset-confidence" (Some to) (countWhere hit (vendor_memory db))).

(** ** db/correctionMemory.ts *)

Definition statusIsActive (s : option Status) : bool :=
  match s with Some Active => true | _ => false end.

Definition getCorrectionMemories (db : Db) (vendor : string)
  : list CorrectionMemoryRow :=
  if correction_hasStatus db then
    filter (fun m => String.eqb (cm_vendor m) vendor
                     && statusIsActive (cm_status m))
           (correction_memory db)
  else
    filter (fun m => String.eqb (cm_vendor m) vendor) (correction_memory db).

Definition findCorrectionMemory (db : Db)
    (vendor fieldPath patternType patternValue : string)
  : option CorrectionMemoryRow :=
  let key := fun m =>
    String.eqb (cm_vendor m) vendor
    && String.eqb (cm_fieldPath m) fieldPath
    && String.eqb (cm_patternType m) patternType
    && String.eqb (cm_patternValue m) patternValue in
  if correction_hasStatus db then
    find (fun m => key m && statusIsActive (cm_status m)) (correction_memory db)
  else
    find key (correction_memory db).

Definition getCorrectionMemoryById (db : Db) (id : string)
  : option CorrectionMemoryRow :=
  find (fun m => String.eqb (cm_id m) id) (correction_memory db).

(** The [row] argument omits [supportCount] and [rejectCount]; its
    [cm_supportCount] and [cm_rejectCount] are not read.  Returns the store
    and the [confidence] of the result object. *)
Definition upsertCorrectionMemory (db : Db) (row : CorrectionMemoryRow)
  : Db * R :=
  let hit := fun m => String.eqb (cm_id m) (cm_id row) in
  match find hit (correction_memory db) with
  | Some existing =>
      let nextConfidence := Rmin 0.95 (cm_confidence existing + 0.1) in
      (set_correction_memory db
         (updateWhere hit
            (fun m =>
               mkCorrectionMemory (cm_id m) (cm_vendor m) (cm_fieldPath m)
                 (cm_patternType m) (cm_patternValue m)
                 (cm_recommendedValue m) nextConfidence
                 (cm_supportCount m + 1)%Z (cm_rejectCount m)
                 (cm_lastUsedAt row) (cm_createdAt m) (cm_status m))
            (correction_memory db)),
       nextConfidence)
  | None =>
      (set_correction_memory db
         (correction_memory db ++
          [mkCorrectionMemory (cm_id row) (cm_vendor row) (cm_fieldPath row)
             (cm_patternType row) (cm_patternValue row)
             (cm_recommendedValue row) (cm_confidence row) 1%Z 0%Z
             (cm_lastUsedAt row) (cm_createdAt row)
             (if correction_hasStatus db then Some Active else None)]),
       cm_confidence row)
  end.

Definition markUsed (db : Db) (id : string) (wall : Z) : Db :=
  set_correction_memory db
    (updateWhere (fun m => String.eqb (cm_id m) id)
       (fun m =>
          mkCorrectionMemory (cm_id m) (cm_vendor m) (cm_fieldPath m)
            (cm_patternType m) (cm_patternValue m) (cm_recommendedValue m)
            (cm_confidence m) (cm_supportCount m) (cm_rejectCount m)
            (TsAt wall) (cm_createdAt m) (cm_status m))
       (correction_memory db)).

(** The row as [markRejected] rewrites it. *)
Definition rejectedRow (hasStatus : bool) (wall : Z) (m : CorrectionMemoryRow)
  : CorrectionMemoryRow :=
  mkCorrectionMemory (cm_id m) (cm_vendor m) (cm_fieldPath m)
    (cm_patternType m) (cm_patternValue m) (cm_recommendedValue m)
    (cm_confidence m) (cm_supportCount m) (cm_rejectCount m + 1)%Z
    (TsAt wall) (cm_createdAt m)
    (if hasStatus
     then (if (2 <=? cm_rejectCount m + 1)%Z then Some Disabled
           else cm_status m)
     else cm_status m).

Definition markRejected (db : Db) (id : string) (wall : Z) : Db :=
  set_correction_memory db
    (updateWhere (fun m => String.eqb (cm_id m) id)
       (rejectedRow (correction_hasStatus db) wall)
       (correction_memory db)).

(** ** db/resolutionMemory.ts *)

Definition defaultValue : ResolutionValueJson :=
  mkResolutionValue 0 0 None None.

Definition tsIsNull (t : isoTime) : bool :=
  match t with TsNull => true | _ => false end.

Definition resolutionKeyIs (vendor key : string) (r : ResolutionMemoryRow)
  : bool :=
  String.eqb (rm_vendor r) vendor && String.eqb (rm_key r) key.

(** Ignores disabled rows when the [disabledAt] column exists. *)
Definition getResolution (db : Db) (vendor key : string)
  : option ResolutionMemoryRow :=
  if resolution_hasDisabledAt db then
    find (fun r => resolutionKeyIs vendor key r && tsIsNull (rm_disabledAt r))
         (resolution_memory db)
  else
    find (resolutionKeyIs vendor key) (resolution_memory db).

(** The [patch] argument of [upsertResolution]; [None] is an absent key. *)
Record ResolutionPatch : Type := mkPatch {
  p_value : option ResolutionValueJson;
  p_confidence : option R;
  p_lastUsedAt : option isoTime;
  p_disabledAt : option isoTime
}.

Definition upsertResolution (db : Db) (vendor key : string)
    (patch : ResolutionPatch) (wall : Z)
  : Db * (ResolutionValueJson * R) :=
  let existing := getResolution db vendor key in
  let nextValue :=
    match p_value patch with
    | Some v => v
    | None => match existing with Some e => rm_value e | None => defaultValue end
    end in
  let nextConfidence :=
    match p_confidence patch with
    | Some c => c
    | None => match existing with Some e => rm_confidence e | None => 0.5 end
    end in
  let nextLastUsedAt :=
    match p_lastUsedAt patch with Some t => t | None => TsAt wall end in
  let disabledAtCol := resolution_hasDisabledAt db in
  let rejectCountCol := resolution_hasRejectCount db in
  let nextDisabledAt :=
    match p_disabledAt patch with
    | Some t => t
    | None => match existing with Some e => rm_disabledAt e | None => TsNull end
    end in
  let nextRejectCount :=
    match existing with Some e => rm_rejectCount e | None => 0%Z end in
  let createdAt :=
    match existing with
    | Some e => ts_coalesce (rm_createdAt e) (TsAt wall)
    | None => TsAt wall
    end in
  let hit := resolutionKeyIs vendor key in
  let rows :=
    if existsb hit (resolution_memory db) then
      updateWhere hit
        (fun r =>
           mkResolution (rm_vendor r) (rm_key r) nextValue nextConfidence
             (if rejectCountCol then nextRejectCount else rm_rejectCount r)
             nextLastUsedAt
             (if disabledAtCol then nextDisabledAt else rm_disabledAt r)
             (rm_createdAt r))
        (resolution_memory db)
    else
      (resolution_memory db ++
       [mkResolution vendor key nextValue nextConfidence
          (if rejectCountCol then nextRejectCount else 0%Z)
          nextLastUsedAt
          (if disabledAtCol then nextDisabledAt else TsNull)
          createdAt])%list in
  (set_resolution_memory db rows, (nextValue, nextConfidence)).

Definition recordResolutionDecision (db : Db) (vendor key : string)
    (decision : Decision) (invoiceId : string) (wall : Z)
  : Db * (ResolutionValueJson * R) :=
  let existingAny :=
    if resolution_hasDisabledAt db
    then find (resolutionKeyIs vendor key) (resolution_memory db)
    else getResolution db vendor key in
  let value0 :=
    match existingAny with Some e => rm_value e | None => defaultValue end in
  let value :=
    mkResolutionValue
      (match decision with
       | Approved => rv_approved value0 + 1
       | Rejected => rv_approved value0
       end)%Z
      (match decision with
       | Rejected => rv_rejected value0 + 1
       | Approved => rv_rejected value0
       end)%Z
      (Some decision) (Some invoiceId) in
  let confidence0 :=
    match existingAny with Some e => rm_confidence e | None => 0.5 end in
  let confidence1 :=
    match decision with
    | Approved => Rmin 0.95 (confidence0 + 0.05)
    | Rejected => Rmax 0.2 (confidence0 - 0.1)
    end in
  let rejectCountCol := resolution_hasRejectCount db in
  let disabledAtCol := resolution_hasDisabledAt db in
  let rejectCount0 :=
    if rejectCountCol
    then match existingAny with Some e => rm_rejectCount e | None => 0%Z end
    else 0%Z in
  let nextRejectCount :=
    match decision with
    | Rejected => if rejectCountCol then (rejectCount0 + 1)%Z else rejectCount0
    | Approved => rejectCount0
    end in
  let disableNow :=
    disabledAtCol &&
    match decision with
    | Rejected => (2 <=? rv_rejected value)%Z && (rv_approved value =? 0)%Z
    | Approved => false
    end in
  let disabledAt :=
    if disableNow then TsAt wall
    else match existingAny with Some e => rm_disabledAt e | None => TsNull end in
  let confidence :=
    if disableNow then Rmin confidence1 0.2 else confidence1 in
  let '(db1, out) :=
    upsertResolution db vendor key
      (mkPatch (Some value) (Some confidence) (Some (TsAt wall))
         (if disabledAtCol then Some disabledAt else None))
      wall in
  let db2 :=
    if rejectCountCol then
      set_resolution_memory db1
        (updateWhere (resolutionKeyIs vendor key)
           (fun r =>
              mkResolution (rm_vendor r) (rm_key r) (rm_value r)
                (rm_confidence r) nextRejectCount (rm_lastUsedAt r)
                (rm_disabledAt r) (rm_createdAt r))
           (resolution_memory db1))
    else db1 in
  (db2, out).

(** ** engine/duplicateGuard.ts *)

Section DuplicateGuard.

Variable ops : JsOps.

(** [String(s ?? '').trim().toLowerCase()] *)
Definition normalize (s : value) : string :=
  toLowerCase ops (trim ops (toStr ops (coalesce s (VStr EmptyString)))).

Definition rawTextValue (invoice : InvoiceExtracted) : value :=
  match inv_rawText invoice with Some s => VStr s | None => VNull end.

Definition computeFingerprint (invoice : InvoiceExtracted) : string :=
  let f := inv_fields invoice in
  let vendor := normalize (VStr (inv_vendor invoice)) in
  let invoiceNumber :=
    strOr (normalize VUndef)
      (strOr (normalize (f_invoiceNumber f)) (normalize VUndef)) in
  let currency :=
    strOr (normalize VUndef)
      (strOr (normalize (f_currency f)) (normalize VUndef)) in
  let total :=
    strOr (normalize VUndef)
      (strOr (normalize (f_grossTotal f))
         (strOr (normalize VUndef)
            (strOr (normalize VUndef)
               (strOr (normalize (f_netTotal f)) (normalize VUndef))))) in
  let rawSlice := slice0 ops 220 (normalize (rawTextValue invoice)) in
  join "|" [vendor; invoiceNumber; currency; total; rawSlice].

Inductive DupResult : Type :=
| NotDuplicate
| Duplicate (duplicateOfInvoiceId reason fingerprint : string).

Definition isDuplicate (d : DupResult) : bool :=
  match d with NotDuplicate => false | Duplicate _ _ _ => true end.

Definition hasDuplicateCue (invoice : InvoiceExtracted) : bool :=
  let raw := toLowerCase ops (toStr ops (coalesce (rawTextValue invoice)
                                       (VStr EmptyString))) in
  includes raw "duplicate submission"
  || includes raw "erneute zusendung"
  || includes raw "duplicate"
  || includes raw "erneut".

(** The invoice number the guard compares:
    [String(invoice.invoiceNumber ?? invoice?.fields?.invoiceNumber ?? ... ?? '')] *)
Definition guardInvoiceNumber (invoice : InvoiceExtracted) : string :=
  toStr ops
    (coalesce VUndef
       (coalesce (f_invoiceNumber (inv_fields invoice))
          (coalesce VUndef (VStr EmptyString)))).

Definition optStrEqb (o : option string) (s : string) : bool :=
  match o with Some x => String.eqb x s | None => false end.

(** [WHERE vendor = ? AND invoiceNumber = ? AND invoiceId != ?] *)
Definition sameVendorNumber (vendor invoiceNumber invoiceId : string)
    (r : InvoiceRun) : bool :=
  String.eqb (run_vendor r) vendor
  && optStrEqb (run_invoiceNumber r) invoiceNumber
  && negb (String.eqb (run_invoiceId r) invoiceId).

(** [ORDER BY createdAt ASC LIMIT 1]: the first row with the least instant *)
Fixpoint earliest (rows : list DuplicateRecord) : option DuplicateRecord :=
  match rows with
  | [] => None
  | r :: rest =>
      match earliest rest with
      | Some m => if (dr_createdAt m <? dr_createdAt r)%Z then Some m else Some r
      | None => Some r
      end
  end.

Definition seenReason (cue : bool) (invoiceNumber : string) : string :=
  if cue
  then "Duplicate cue found in rawText; vendor+invoiceNumber already seen ("
       ++ invoiceNumber ++ ")."
  else "Same vendor+invoiceNumber already seen (" ++ invoiceNumber ++ ").".

(** An optional string used as a condition ([row?.invoiceId], a regex
    capture or null): present and non-empty *)
Definition truthyStr (o : option string) : option string :=
  match o with
  | Some s => if nonEmpty s then Some s else None
  | None => None
  end.

Definition detectDuplicate (db : Db) (invoice : InvoiceExtracted) : DupResult :=
  let vendor := inv_vendor invoice in
  let invoiceId := inv_invoiceId invoice in
  let invoiceNumber := guardInvoiceNumber invoice in
  let fingerprint := computeFingerprint invoice in
  let cue := hasDuplicateCue invoice in
  let byFingerprint :=
    let prior :=
      earliest
        (filter (fun d => String.eqb (dr_vendor d) vendor
                          && String.eqb (dr_fingerprint d) fingerprint
                          && negb (String.eqb (dr_invoiceId d) invoiceId))
                (duplicate_records db)) in
    match prior with
    | Some p =>
        match truthyStr (Some (dr_invoiceId p)) with
        | Some pid =>
            Duplicate
              (match dr_duplicateOfInvoiceId p with
               | Some o => o
               | None => pid
               end)
              "Fingerprint match for vendor (fallback match)."
              fingerprint
        | None => NotDuplicate
        end
    | None => NotDuplicate
    end in
  if nonEmpty vendor && nonEmpty invoiceNumber then
    let original :=
      find (fun r => sameVendorNumber vendor invoiceNumber invoiceId r
                     && (run_isDuplicate r =? 0)%Z)
           (invoice_runs db) in
    match truthyStr (option_map run_invoiceId original) with
    | Some oid => Duplicate oid (seenReason cue invoiceNumber) fingerprint
    | None =>
        let any :=
          find (sameVendorNumber vendor invoiceNumber invoiceId)
               (invoice_runs db) in
        match truthyStr (option_map run_invoiceId any) with
        | Some aid =>
            let root :=
              find (fun d => String.eqb (dr_invoiceId d) aid)
                   (duplicate_records db) in
            Duplicate
              (match root with
               | Some d =>
                   match dr_duplicateOfInvoiceId d with
                   | Some o => o
                   | None => aid
                   end
               | None => aid
               end)
              (seenReason cue invoiceNumber) fingerprint
        | None => byFingerprint
        end
    end
  else byFingerprint.

(** [INSERT OR REPLACE]: a row with the same primary key [invoiceId] is
    deleted before the new row is appended. *)
Definition recordDuplicate (db : Db)
    (invoiceId vendor fingerprint duplicateOfInvoiceId reason : string)
    (now : Z) : Db :=
  set_duplicate_records db
    (filter (fun d => negb (String.eqb (dr_invoiceId d) invoiceId))
            (duplicate_records db)
     ++ [mkDuplicateRecord invoiceId vendor fingerprint
           (Some duplicateOfInvoiceId) reason now]).

End DuplicateGuard.

(** ** engine/runPipeline.ts *)

Inductive Source : Type :=
| vendor_memory_source        (* "vendor_memory" *)
| rawText_heuristic
| reference_heuristic
| correction_memory_source.   (* "correction_memory" *)

Record Correction : Type := mkCorrection {
  c_field : string;
  c_from : value;
  c_to : value;
  c_source : Source;
  c_confidence : R;
  c_reason : string
}.

Inductive AuditStep : Type :=
| step_duplicateGuard | step_recall | step_apply | step_decide | step_learn.

Record AuditTrailEntry : Type := mkTrail {
  at_step : AuditStep;
  at_timestamp : Z;
  at_details : string
}.

Record MemoryUpdate : Type := mkUpdate {
  mu_type : string;
  mu_id : string;
  mu_confidence : R;
  mu_note : option string
}.

Record AgentOutput : Type := mkOutput {
  normalizedInvoice : Fields;
  proposedCorrections : list Correction;
  requiresHumanReview : bool;
  reasoning : string;
  confidenceScore : R;
  memoryUpdates : list MemoryUpdate;
  auditTrail : list AuditTrailEntry
}.

(** The mutable locals of one [runPipeline] call together with the store. *)
Record RunState : Type := mkState {
  st_db : Db;
  st_proposed : list Correction;  (* proposedCorrections *)
  st_trail : list AuditTrailEntry;
  st_reasons : list string;       (* reasoningParts *)
  st_updates : list MemoryUpdate; (* memoryUpdates *)
  st_resKeys : list string;       (* usedResolutionKeys, insertion order *)
  st_corrIds : list string;       (* usedCorrectionMemoryIds *)
  st_score : R                    (* confidenceScore *)
}.

(** [Set.prototype.add] on an insertion-ordered set of strings *)
Definition setAdd (s : list string) (x : string) : list string :=
  if existsb (String.eqb x) s then s else (s ++ [x])%list.

Definition withDb (st : RunState) (db : Db) : RunState :=
  mkState db (st_proposed st) (st_trail st) (st_reasons st) (st_updates st)
    (st_resKeys st) (st_corrIds st) (st_score st).

Definition pushTrail (st : RunState) (step : AuditStep) (now : Z)
    (details : string) : RunState :=
  mkState (st_db st) (st_proposed st)
    (st_trail st ++ [mkTrail step now details]) (st_reasons st)
    (st_updates st) (st_resKeys st) (st_corrIds st) (st_score st).

Definition pushCorrection (st : RunState) (c : Correction) : RunState :=
  mkState (st_db st) (st_proposed st ++ [c]) (st_trail st) (st_reasons st)
    (st_updates st) (st_resKeys st) (st_corrIds st) (st_score st).

Definition pushReason (st : RunState) (r : string) : RunState :=
  mkState (st_db st) (st_proposed st) (st_trail st) (st_reasons st ++ [r])
    (st_updates st) (st_resKeys st) (st_corrIds st) (st_score st).

Definition pushUpdate (st : RunState) (u : MemoryUpdate) : RunState :=
  mkState (st_db st) (st_proposed st) (st_trail st) (st_reasons st)
    (st_updates st ++ [u]) (st_resKeys st) (st_corrIds st) (st_score st).

Definition useResolutionKey (st : RunState) (k : string) : RunState :=
  mkState (st_db st) (st_proposed st) (st_trail st) (st_reasons st)
    (st_updates st) (setAdd (st_resKeys st) k) (st_corrIds st) (st_score st).

Definition useCorrectionMemory (st : RunState) (id : string) : RunState :=
  mkState (st_db st) (st_proposed st) (st_trail st) (st_reasons st)
    (st_updates st) (st_resKeys st) (setAdd (st_corrIds st) id) (st_score st).

(** [confidenceScore = Math.max(confidenceScore, c)] *)
Definition raiseScore (st : RunState) (c : R) : RunState :=
  mkState (st_db st) (st_proposed st) (st_trail st) (st_reasons st)
    (st_updates st) (st_resKeys st) (st_corrIds st) (Rmax (st_score st) c).

Definition setScore (st : RunState) (c : R) : RunState :=
  mkState (st_db st) (st_proposed st) (st_trail st) (st_reasons st)
    (st_updates st) (st_resKeys st) (st_corrIds st) c.

Definition RES_serviceDate : string := "serviceDate_from_leistungsdatum".
Definition RES_poInfer : string := "po_infer_sku_date_window".
Definition RES_qtyToDn : string := "qty_to_delivery_note".
Definition RES_vatTotals : string := "vat_inclusive_recompute_totals".
Definition RES_currency : string := "currency_from_rawText".
Definition RES_skonto : string := "skonto_terms_extraction".
Definition RES_freightSku : string := "freight_sku_mapping".

Definition REVIEW_THRESHOLD : R := 0.75.

(** [Math.round(n * 100) / 100], with [Math.round x = floor (x + 1/2)] *)
Definition round2 (n : R) : R := IZR (Zfloor (n * 100 + / 2)) / 100.

(** [v === null || v === undefined || v === ''] *)
Definition isMissing (v : value) : bool :=
  match v with
  | VUndef | VNull => true
  | VStr s => negb (nonEmpty s)
  | _ => false
  end.

(** [Math.min(...xs)] of a non-empty list *)
Fixpoint minOf (x : R) (xs : list R) : R :=
  match xs with
  | [] => x
  | y :: ys => Rmin x (minOf y ys)
  end.

(** U+2192, the arrow of the resolution note, as UTF-8 bytes *)
Definition arrow : string :=
  String (ascii_of_nat 226)
    (String (ascii_of_nat 134) (String (ascii_of_nat 146) EmptyString)).

(** The double quote character of the reasoning text *)
Definition dquote : string := String (ascii_of_nat 34) EmptyString.

(** ** The usability gates *)

Definition canApplyVendorMem (mem : option VendorMemory) (now : Z) : bool :=
  match mem with
  | None => false
  | Some mem =>
      if negb (Status_eqb (vm_status mem) Active) then false
      else
        let rejects := vm_rejectCount mem in
        if (2 <=? rejects)%Z then false
        else
          let base := vm_confidence mem in
          let ageDays := daysSince (ts_coalesce (vm_lastUsedAt mem) TsNull) now in
          let eff := decayedConfidence30 (Fin base) ageDays in
          Rleb 0.65 eff
  end.

Definition isSuspectCorrectionMemory (mem : option CorrectionMemoryRow)
    (resolution : option ResolutionMemoryRow) (now : Z) : bool :=
  match mem with
  | None => true
  | Some mem =>
      if match cm_status mem with
         | Some s => negb (Status_eqb s Active)
         | None => false
         end
      then true
      else
        let rejectCount := cm_rejectCount mem in
        if (2 <=? rejectCount)%Z then true
        else
          let baseConf := cm_confidence mem in
          if Rltb 0 baseConf && Rltb baseConf 0.65 then true
          else
            let r :=
              match resolution with
              | Some res => rv_rejected (rm_value res)
              | None => 0%Z
              end in
            if (2 <=? r)%Z then true
            else
              let ageDays :=
                daysSince
                  (ts_coalesce (cm_lastUsedAt mem)
                     (ts_coalesce (cm_createdAt mem) TsNull)) now in
              let eff := decayedConfidence30 (Fin baseConf) ageDays in
              if Rltb eff 0.65 then true else false
  end.

Section Engine.

Variable ops : JsOps.

(** [String(z)] for an integer *)
Definition zStr (z : Z) : string := numToString ops (Fin (IZR z)).

(** [String(x)] for a finite number *)
Definition rStr (x : R) : string := numToString ops (Fin x).

Definition boolOf {A : Type} (o : option A) : bool :=
  match o with Some _ => true | None => false end.

Definition applyResolutionMemoryToConfidence (db : Db) (vendor key : string)
    (base : R) : R * string :=
  match getResolution db vendor key with
  | None => (base, "No resolution history.")
  | Some res =>
      let a := rv_approved (rm_value res) in
      let r := rv_rejected (rm_value res) in
      let adjusted0 := base in
      let adjusted1 :=
        if (2 <=? a)%Z && (r =? 0)%Z then Rmin 0.95 (base + 0.15)
        else adjusted0 in
      let adjusted :=
        if (1 <=? r)%Z then Rmax 0.2 (base - 0.2) else adjusted1 in
      (adjusted,
       "Resolution: approved=" ++ zStr a ++ ", rejected=" ++ zStr r ++ ", "
       ++ rStr base ++ arrow ++ rStr adjusted)
  end.

(** [daysSince(mem?.lastUsedAt ?? mem?.createdAt ?? null, now)] on a vendor
    memory, whose rows have no [createdAt] *)
Definition vendorMemAge (mem : option VendorMemory) (now : Z) : num :=
  match mem with
  | Some m => daysSince (ts_coalesce (vm_lastUsedAt m) TsNull) now
  | None => daysSince TsNull now
  end.

Definition correctionMemAge (m : CorrectionMemoryRow) (now : Z) : num :=
  daysSince
    (ts_coalesce (cm_lastUsedAt m) (ts_coalesce (cm_createdAt m) TsNull)) now.

(** [canUse ? decayedConfidence(base, age) : base] *)
Definition baseAfterDecayVendor (canUse : bool) (mem : option VendorMemory)
    (base : R) (now : Z) : R :=
  if canUse then decayedConfidence30 (Fin base) (vendorMemAge mem now) else base.

Definition findVendorMem (kind pattern : string) (mems : list VendorMemory)
  : option VendorMemory :=
  find (fun m => String.eqb (vm_kind m) kind && String.eqb (vm_pattern m) pattern)
       mems.

Definition findVendorMemByKind (kind : string) (mems : list VendorMemory)
  : option VendorMemory :=
  find (fun m => String.eqb (vm_kind m) kind) mems.

Definition lineItemsOf (extracted : InvoiceExtracted) : list LineItem :=
  match f_lineItems (inv_fields extracted) with
  | Some l => l
  | None => []
  end.

Definition getInvoiceSkus (extracted : InvoiceExtracted) : list value :=
  filter truthy (map li_sku (lineItemsOf extracted)).

(** [parseDateToIso(extracted.fields?.invoiceDate)].  The source calls
    [match] on any truthy argument; a truthy value that is not a string is
    outside the model and answers [null] here. *)
Definition parseInvoiceDate (v : value) : option string :=
  match v with
  | VStr s => if nonEmpty s then parseDateToIso ops s else None
  | _ => None
  end.

(** [arr.includes(v)] for an array of strings *)
Definition skuIn (poSkus : list string) (s : value) : bool :=
  existsb (fun p => strictEq (VStr p) s) poSkus.

Definition suggestPoNumber (context : Context) (daysWindow : R)
  : option (string * string) :=
  let vendor := ctx_vendor context in
  let extracted := ctx_extracted context in
  match parseInvoiceDate (f_invoiceDate (inv_fields extracted)) with
  | None => None
  | Some invoiceDateIso =>
      let skus := getInvoiceSkus extracted in
      match skus with
      | [] => None
      | _ :: _ =>
          let candidates :=
            filter (fun po => existsb (skuIn (map pol_sku (po_lineItems po))) skus)
              (filter (fun po => numLe (daysBetween ops invoiceDateIso (po_date po))
                                       (Fin daysWindow))
                 (filter (fun po => String.eqb (po_vendor po) vendor)
                    (purchaseOrders (ctx_reference context)))) in
          match candidates with
          | [c] =>
              Some (po_poNumber c,
                    "Only matching PO for vendor within " ++ rStr daysWindow
                    ++ " days and matching SKU ("
                    ++ join ", " (map (toStr ops) skus) ++ ").")
          | _ => None
          end
      end
  end.

Definition findMatchingDeliveryQty (context : Context) (sku : value)
  : option R :=
  let vendor := ctx_vendor context in
  let invoicePo := f_poNumber (inv_fields (ctx_extracted context)) in
  let dns :=
    filter (fun dn => negb (truthy invoicePo)
                      || strictEq (VStr (dn_poNumber dn)) invoicePo)
      (filter (fun dn => String.eqb (dn_vendor dn) vendor)
         (deliveryNotes (ctx_reference context))) in
  let fix scan (l : list DeliveryNote) : option R :=
    match l with
    | [] => None
    | dn :: rest =>
        match find (fun x => strictEq (VStr (dnl_sku x)) sku) (dn_lineItems dn) with
        | Some li =>
            match dnl_qtyDelivered li with
            | Fin q => Some q
            | _ => scan rest
            end
        | None => scan rest
        end
    end in
  scan dns.

Section Run.

Variable context : Context.
Variable now : Z.
(** The reading of the wall clock ([new Date()]) taken by store operations
    that are not handed [now]; one reading per run. *)
Variable wall : Z.

Let vendor : string := ctx_vendor context.
Let extracted : InvoiceExtracted := ctx_extracted context.
Let fields : Fields := inv_fields extracted.
Let rawText : string :=
  match inv_rawText extracted with Some s => s | None => EmptyString end.

(** [vendorMemsAll], recalled once before the heuristics run *)
Variable vendorMemsAll : list VendorMemory.

(** *** Apply: service date from the Leistungsdatum label *)

Definition applyServiceDate (st : RunState) : RunState :=
  let serviceMem := findVendorMem "serviceDate_from_label" "Leistungsdatum"
                      vendorMemsAll in
  let canUseServiceMem := canApplyVendorMem serviceMem now in
  let candidateServiceDate := extractLeistungsdatum ops rawText in
  match (if isNullish (f_serviceDate fields)
         then truthyStr candidateServiceDate else None) with
  | Some d =>
      let resKey := RES_serviceDate in
      let st := useResolutionKey st resKey in
      let base := if canUseServiceMem then 0.85 else 0.55 in
      let baseAfterDecay :=
        baseAfterDecayVendor canUseServiceMem serviceMem base now in
      let shaped :=
        applyResolutionMemoryToConfidence (st_db st) vendor resKey
          baseAfterDecay in
      let appliedConfidence := fst shaped in
      let st := pushTrail st step_apply now
                  ("Resolution memory applied for " ++ resKey ++ ": "
                   ++ snd shaped) in
      let st := pushCorrection st
                  (mkCorrection "serviceDate" VNull (VStr d)
                     (if canUseServiceMem then vendor_memory_source
                      else rawText_heuristic)
                     appliedConfidence
                     ("Found Leistungsdatum in rawText (" ++ d ++ ").")) in
      let st := pushReason st
                  (if canUseServiceMem
                   then "Applied vendor memory (decayed): " ++ dquote ++ vendor
                        ++ dquote ++ " uses Leistungsdatum as service date."
                   else "Heuristic: rawText contains Leistungsdatum, suggesting serviceDate.") in
      raiseScore st appliedConfidence
  | None =>
      match serviceMem with
      | Some m =>
          if negb canUseServiceMem then
            pushTrail st step_apply now
              ("Vendor memory for serviceDate exists but is disabled/suspect/decayed; not auto-applied (id="
               ++ vm_id m ++ ").")
          else st
      | None => st
      end
  end.

(** *** Apply: purchase-order inference *)

Definition applyPoInference (st : RunState) : RunState :=
  let poMem := findVendorMem "po_match_strategy" "sku_and_date_window"
                 vendorMemsAll in
  let canUsePoMem := canApplyVendorMem poMem now in
  if isNullish (f_poNumber fields) then
    match suggestPoNumber context 30 with
    | Some (poNumber, reason) =>
        let resKey := RES_poInfer in
        let st := useResolutionKey st resKey in
        let base := if canUsePoMem then 0.88 else 0.80 in
        let baseAfterDecay := baseAfterDecayVendor canUsePoMem poMem base now in
        let shaped :=
          applyResolutionMemoryToConfidence (st_db st) vendor resKey
            baseAfterDecay in
        let appliedConfidence := fst shaped in
        let st := pushTrail st step_apply now
                    ("PO inference ("
                     ++ (if canUsePoMem then "vendor_memory" else "heuristic")
                     ++ ") " ++ arrow ++ " " ++ poNumber ++ ". " ++ snd shaped) in
        let st := pushCorrection st
                    (mkCorrection "poNumber" VNull (VStr poNumber)
                       (if canUsePoMem then vendor_memory_source
                        else reference_heuristic)
                       appliedConfidence reason) in
        let st := pushReason st
                    (if canUsePoMem
                     then "Applied vendor memory (decayed): inferred PO using SKU + 30-day window."
                     else "Heuristic: inferred PO using SKU + 30-day window.") in
        raiseScore st appliedConfidence
    | None =>
        pushTrail st step_apply now
          "PO inference attempted but no unique/strong match found (SKU+date window)."
    end
  else st.

(** *** Apply: VAT-inclusive totals *)

Definition applyVatTotals (st : RunState) : RunState :=
  let vatMem := findVendorMem "vat_inclusive_pricing" "mwst_inkl" vendorMemsAll in
  let canUseVatMem := canApplyVendorMem vatMem now in
  let vatInclusiveDetected := isVatInclusiveText ops rawText in
  if vatInclusiveDetected then
    let resKey := RES_vatTotals in
    let st := useResolutionKey st resKey in
    let base := if canUseVatMem then 0.85 else 0.6 in
    let baseAfterDecay := baseAfterDecayVendor canUseVatMem vatMem base now in
    let shaped :=
      applyResolutionMemoryToConfidence (st_db st) vendor resKey baseAfterDecay in
    let appliedConfidence := fst shaped in
    let st := pushTrail st step_apply now
                ("Resolution memory applied for " ++ resKey ++ ": "
                 ++ snd shaped) in
    let net := toNum ops (f_netTotal fields) in
    let rate := toNum ops (coalesce (f_taxRate fields) (VNum (Fin 0.19))) in
    let grossFromText := extractTotalFromRawText ops rawText in
    let currentGross := toNum ops (f_grossTotal fields) in
    let currentTax := toNum ops (f_taxTotal fields) in
    match net, rate, currentGross, currentTax with
    | Fin net, Fin rate, Fin currentGross, Fin currentTax =>
        let expectedGross :=
          match grossFromText with
          | Some g => round2 g
          | None => round2 (net * (1 + rate))
          end in
        let expectedTax := round2 (expectedGross - net) in
        let grossOff := Rltb 0.01 (Rabs (currentGross - expectedGross)) in
        let taxOff := Rltb 0.01 (Rabs (currentTax - expectedTax)) in
        let st :=
          if grossOff then
            pushCorrection st
              (mkCorrection "grossTotal" (VNum (Fin currentGross))
                 (VNum (Fin expectedGross))
                 (if canUseVatMem then vendor_memory_source
                  else rawText_heuristic)
                 appliedConfidence
                 (if boolOf grossFromText
                  then "VAT-inclusive pricing detected; rawText Total="
                       ++ rStr expectedGross ++ " used for grossTotal."
                  else "VAT-inclusive pricing detected; recomputed grossTotal from netTotal and taxRate."))
          else st in
        let st :=
          if taxOff then
            pushCorrection st
              (mkCorrection "taxTotal" (VNum (Fin currentTax))
                 (VNum (Fin expectedTax))
                 (if canUseVatMem then vendor_memory_source
                  else rawText_heuristic)
                 appliedConfidence
                 ("VAT-inclusive pricing detected; taxTotal should be grossTotal - netTotal ("
                  ++ rStr expectedTax ++ ")."))
          else st in
        let pushedAny := grossOff || taxOff in
        if pushedAny then
          let st := pushReason st
                      (if canUseVatMem
                       then "Applied vendor memory (decayed): VAT-inclusive pricing " ++ arrow ++ " recompute totals."
                       else "Heuristic: VAT-inclusive pricing detected in rawText " ++ arrow ++ " propose recompute totals.") in
          raiseScore st appliedConfidence
        else
          let st := pushTrail st step_apply now
                      ("VAT-inclusive pricing detected; totals verified (no correction needed). "
                       ++ "Expected gross=" ++ rStr expectedGross ++ ", tax="
                       ++ rStr expectedTax ++ ".") in
          let st := pushReason st
                      (if canUseVatMem
                       then "Known vendor pattern (decayed): VAT-inclusive pricing detected; totals verified, no correction required."
                       else "VAT-inclusive pricing detected; totals verified, no correction required.") in
          raiseScore st (Rmin 0.85 appliedConfidence)
    | _, _, _, _ => st
    end
  else st.

(** *** Apply: line-item quantities against delivery notes *)

(** [canUseMem = foundMem && !isSuspectCorrectionMemory(...)]: the trusted
    entry, if any *)
Definition usableCorrectionMem (found : option CorrectionMemoryRow)
    (res : option ResolutionMemoryRow) : option CorrectionMemoryRow :=
  match found with
  | Some m => if isSuspectCorrectionMemory (Some m) res now then None else Some m
  | None => None
  end.

(** [canUseMem ? decayedConfidence(base, age) : base] *)
Definition baseAfterDecayCorrection (canUse : option CorrectionMemoryRow)
    (base : R) : R :=
  match canUse with
  | Some m => decayedConfidence30 (Fin base) (correctionMemAge m now)
  | None => base
  end.

(** One iteration of the loop over [extracted.fields?.lineItems]. *)
Definition applyQtyItem (st : RunState) (li : LineItem) : RunState :=
  if negb (truthy (li_sku li)) || negb (valueIsFinite (li_qty li)) then st
  else
    match findMatchingDeliveryQty context (li_sku li) with
    | None => st
    | Some dnQty =>
        if strictEq (VNum (Fin dnQty)) (li_qty li) then st
        else
          let resKey := RES_qtyToDn in
          let st := useResolutionKey st resKey in
          let res := getResolution (st_db st) vendor resKey in
          let sku := toStr ops (li_sku li) in
          let foundMem :=
            findCorrectionMemory (st_db st) vendor "lineItems[].qty" "sku" sku in
          let canUseMem := usableCorrectionMem foundMem res in
          let st :=
            match foundMem, canUseMem with
            | Some m, None =>
                pushTrail st step_apply now
                  ("Skipped correction memory for qty as suspect/disabled/decayed (id="
                   ++ cm_id m ++ ").")
            | _, _ => st
            end in
          let base :=
            match canUseMem with
            | Some m => Rmax 0.75 (cm_confidence m)
            | None => 0.6
            end in
          let baseAfterDecay := baseAfterDecayCorrection canUseMem base in
          let shaped :=
            applyResolutionMemoryToConfidence (st_db st) vendor resKey
              baseAfterDecay in
          let confidence := fst shaped in
          let st := pushTrail st step_apply now
                      ("Resolution memory applied for " ++ resKey ++ ": "
                       ++ snd shaped) in
          let st := pushCorrection st
                      (mkCorrection ("lineItems[sku=" ++ sku ++ "].qty")
                         (li_qty li) (VNum (Fin dnQty))
                         (if boolOf canUseMem then correction_memory_source
                          else reference_heuristic)
                         confidence
                         ("Delivery note quantity (" ++ rStr dnQty
                          ++ ") differs from invoice quantity ("
                          ++ toStr ops (li_qty li) ++ ") for SKU " ++ sku ++ ".")) in
          let st :=
            match canUseMem with
            | Some m =>
                let st := withDb st (markUsed (st_db st) (cm_id m) wall) in
                let st := useCorrectionMemory st (cm_id m) in
                pushReason st
                  ("Applied correction memory (decayed) for qty by SKU " ++ sku ++ ".")
            | None =>
                pushReason st
                  ("Heuristic: delivery note qty differs for SKU " ++ sku ++ ".")
            end in
          raiseScore st confidence
    end.

Definition applyQuantities (st : RunState) : RunState :=
  fold_left applyQtyItem (lineItemsOf extracted) st.

(** *** Apply: currency recovery *)

Definition applyCurrency (st : RunState) : RunState :=
  let currencyMem := findVendorMemByKind "currency_from_rawText" vendorMemsAll in
  let canUseCurrencyMem := canApplyVendorMem currencyMem now in
  if isNullish (f_currency fields) then
    match truthyStr (parseCurrency ops rawText) with
    | Some cur =>
        let resKey := RES_currency in
        let st := useResolutionKey st resKey in
        let base := if canUseCurrencyMem then 0.85 else 0.7 in
        let baseAfterDecay :=
          baseAfterDecayVendor canUseCurrencyMem currencyMem base now in
        let shaped :=
          applyResolutionMemoryToConfidence (st_db st) vendor resKey
            baseAfterDecay in
        let appliedConfidence := fst shaped in
        let st := pushTrail st step_apply now
                    ("Resolution memory applied for " ++ resKey ++ ": "
                     ++ snd shaped) in
        let st := pushCorrection st
                    (mkCorrection "currency" VNull (VStr cur)
                       (if canUseCurrencyMem then vendor_memory_source
                        else rawText_heuristic)
                       appliedConfidence
                       ("Recovered currency from rawText (" ++ cur ++ ").")) in
        let st := pushReason st
                    (if canUseCurrencyMem
                     then "Applied vendor memory (decayed): currency can be recovered from rawText."
                     else "Heuristic: recovered missing currency from rawText.") in
        raiseScore st appliedConfidence
    | None =>
        (* fallback correction memory: currency by vendor default *)
        let resKey := RES_currency in
        let st := useResolutionKey st resKey in
        let res := getResolution (st_db st) vendor resKey in
        let mem := findCorrectionMemory (st_db st) vendor "currency" "vendor"
                     "default" in
        let canUseMem := usableCorrectionMem mem res in
        let st :=
          match mem, canUseMem with
          | Some m, None =>
              pushTrail st step_apply now
                ("Skipped correction memory for currency as suspect/disabled/decayed (id="
                 ++ cm_id m ++ ").")
          | _, _ => st
          end in
        match canUseMem with
        | Some m =>
            let base := Rmax 0.7 (cm_confidence m) in
            let baseAfterDecay :=
              decayedConfidence30 (Fin base) (correctionMemAge m now) in
            let shaped :=
              applyResolutionMemoryToConfidence (st_db st) vendor resKey
                baseAfterDecay in
            let st := pushCorrection st
                        (mkCorrection "currency" VNull
                           (VStr (cm_recommendedValue m))
                           correction_memory_source (fst shaped)
                           "Currency missing and rawText parse failed; applied correction memory fallback.") in
            let st := withDb st (markUsed (st_db st) (cm_id m) wall) in
            let st := useCorrectionMemory st (cm_id m) in
            let st := pushTrail st step_apply now
                        ("Applied correction memory fallback for currency (id="
                         ++ cm_id m ++ "). " ++ snd shaped) in
            raiseScore st (fst shaped)
        | None => st
        end
    end
  else st.

(** *** Apply: payment terms and freight SKU of the freight vendor *)

Definition applySkonto (st : RunState) : RunState :=
  if isNullish (f_discountTerms fields) then
    match extractSkonto ops rawText with
    | Some skonto =>
        let resKey := RES_skonto in
        let st := useResolutionKey st resKey in
        let skontoMem := findVendorMemByKind "skonto_terms" vendorMemsAll in
        let canUseSkontoMem := canApplyVendorMem skontoMem now in
        let base := if canUseSkontoMem then 0.85 else 0.6 in
        let baseAfterDecay :=
          baseAfterDecayVendor canUseSkontoMem skontoMem base now in
        let shaped :=
          applyResolutionMemoryToConfidence (st_db st) vendor resKey
            baseAfterDecay in
        let appliedConfidence := fst shaped in
        let st := pushTrail st step_apply now
                    ("Resolution memory applied for " ++ resKey ++ ": "
                     ++ snd shaped) in
        let st := pushCorrection st
                    (mkCorrection "discountTerms" VNull (VSkonto skonto)
                       (if canUseSkontoMem then vendor_memory_source
                        else rawText_heuristic)
                       appliedConfidence
                       ("Detected " ++ numToString ops (percent skonto)
                        ++ "% Skonto if paid within "
                        ++ numToString ops (days skonto) ++ " days.")) in
        let st := pushReason st
                    (if canUseSkontoMem
                     then "Applied vendor memory (decayed): Freight & Co uses Skonto terms."
                     else "Heuristic: detected Skonto payment terms in rawText.") in
        raiseScore st appliedConfidence
    | None =>
        let resKey := RES_skonto in
        let st := useResolutionKey st resKey in
        let res := getResolution (st_db st) vendor resKey in
        let mem := findCorrectionMemory (st_db st) vendor "discountTerms"
                     "vendor" "default" in
        let canUseMem := usableCorrectionMem mem res in
        let st :=
          match mem, canUseMem with
          | Some m, None =>
              pushTrail st step_apply now
                ("Skipped correction memory for discountTerms as suspect/disabled/decayed (id="
                 ++ cm_id m ++ ").")
          | _, _ => st
          end in
        match canUseMem with
        | Some m =>
            let st := useResolutionKey st resKey in
            let base := Rmax 0.7 (cm_confidence m) in
            let baseAfterDecay :=
              decayedConfidence30 (Fin base) (correctionMemAge m now) in
            let shaped :=
              applyResolutionMemoryToConfidence (st_db st) vendor resKey
                baseAfterDecay in
            let parsed :=
              match JSON_parse ops (cm_recommendedValue m) with
              | Some v => v
              | None => VStr (cm_recommendedValue m)
              end in
            let st := pushCorrection st
                        (mkCorrection "discountTerms" VNull parsed
                           correction_memory_source (fst shaped)
                           "Skonto missing and rawText extraction failed; applied correction memory fallback.") in
            let st := withDb st (markUsed (st_db st) (cm_id m) wall) in
            let st := useCorrectionMemory st (cm_id m) in
            let st := pushTrail st step_apply now
                        ("Applied correction memory fallback for discountTerms (id="
                         ++ cm_id m ++ "). " ++ snd shaped) in
            raiseScore st (fst shaped)
        | None => st
        end
    end
  else st.

Definition applyFreightSku (st : RunState) : RunState :=
  let freightItem :=
    match f_lineItems fields with
    | Some items =>
        find (fun li => isNullish (li_sku li)
                        && isFreightDescription ops
                             (toStr ops (coalesce (li_description li)
                                           (VStr EmptyString))))
             items
    | None => None
    end in
  match freightItem with
  | Some _ =>
      let resKey := RES_freightSku in
      let st := useResolutionKey st resKey in
      let res := getResolution (st_db st) vendor resKey in
      let mem := findCorrectionMemory (st_db st) vendor "lineItems[].sku"
                   "vendor" "freight_desc_missing_sku" in
      let canUseMem := usableCorrectionMem mem res in
      let skuVendorMem := findVendorMem "sku_mapping" "FREIGHT" vendorMemsAll in
      let canUseSkuVendorMem := canApplyVendorMem skuVendorMem now in
      let pickedSku :=
        match canUseMem with
        | Some m => cm_recommendedValue m
        | None => "FREIGHT"
        end in
      let base :=
        match canUseMem with
        | Some m => Rmax 0.7 (cm_confidence m)
        | None => if canUseSkuVendorMem then 0.85 else 0.6
        end in
      let baseAfterDecay :=
        match canUseMem with
        | Some m => decayedConfidence30 (Fin base) (correctionMemAge m now)
        | None => baseAfterDecayVendor canUseSkuVendorMem skuVendorMem base now
        end in
      let shaped :=
        applyResolutionMemoryToConfidence (st_db st) vendor resKey
          baseAfterDecay in
      let appliedConfidence := fst shaped in
      let st := pushTrail st step_apply now
                  ("Resolution memory applied for " ++ resKey ++ ": "
                   ++ snd shaped) in
      let st := pushCorrection st
                  (mkCorrection "lineItems[].sku" VNull (VStr pickedSku)
                     (match canUseMem with
                      | Some _ => correction_memory_source
                      | None => if canUseSkuVendorMem then vendor_memory_source
                                else rawText_heuristic
                      end)
                     appliedConfidence
                     (if boolOf canUseMem
                      then "Applied correction memory freight SKU mapping."
                      else "Freight-related description mapped to SKU FREIGHT.")) in
      let st :=
        match canUseMem with
        | Some m =>
            useCorrectionMemory (withDb st (markUsed (st_db st) (cm_id m) wall))
              (cm_id m)
        | None => st
        end in
      let st := pushReason st
                  (match canUseMem with
                   | Some _ => "Applied correction memory (decayed): freight descriptions map to a learned SKU."
                   | None =>
                       if canUseSkuVendorMem
                       then "Applied vendor memory (decayed): Freight descriptions map to SKU FREIGHT."
                       else "Heuristic: freight-related description suggests SKU FREIGHT."
                   end) in
      raiseScore st appliedConfidence
  | None => st
  end.

Definition applyFreightVendor (st : RunState) : RunState :=
  if isFreightVendor ops vendor then applyFreightSku (applySkonto st) else st.

(** The Apply phase: the catalogue in source order, closed by the count of
    proposals in the audit trail. *)
Definition applyPhase (st : RunState) : RunState :=
  let st := applyServiceDate st in
  let st := applyPoInference st in
  let st := applyVatTotals st in
  let st := applyQuantities st in
  let st := applyCurrency st in
  let st := applyFreightVendor st in
  pushTrail st step_apply now
    ("Proposed " ++ rStr (INR (List.length (st_proposed st)))
     ++ " correction(s).").

(** *** Decide *)

Definition hasCriticalMissingFields (normalized : Fields)
    (proposed : list Correction) : bool :=
  let missingCurrency := isMissing (f_currency normalized) in
  let missingInvoiceNumber := isMissing (f_invoiceNumber normalized) in
  let missingInvoiceDate := isMissing (f_invoiceDate normalized) in
  let missingNet := negb (isFinite (toNum ops (f_netTotal normalized))) in
  let missingGross := negb (isFinite (toNum ops (f_grossTotal normalized))) in
  let missingPo := isMissing (f_poNumber normalized) in
  let hasPoSuggestionHigh :=
    existsb (fun c => String.eqb (c_field c) "poNumber"
                      && Rleb 0.75 (c_confidence c))
            proposed in
  let missingPoIsCritical := missingPo && negb hasPoSuggestionHigh in
  missingInvoiceNumber || missingInvoiceDate || missingCurrency
  || missingNet || missingGross || missingPoIsCritical.

Definition anyLowConfidence (proposed : list Correction) : bool :=
  (0 <? List.length proposed)%nat
  && existsb (fun c => Rltb (c_confidence c) REVIEW_THRESHOLD) proposed.

Definition decideDetails (proposed : list Correction)
    (anyLow criticalMissing requiresHumanReview : bool) : string :=
  match proposed with
  | [] =>
      if criticalMissing
      then "Escalated: no corrections proposed but critical fields are missing."
      else "No corrections proposed; auto-accept."
  | _ :: _ =>
      if requiresHumanReview then
        if anyLow
        then "Escalated: at least one correction below confidence threshold."
        else "Escalated: critical fields missing."
      else "Auto-correct possible: all corrections high confidence."
  end.

(** The Decide phase: the review flag and the state with the reported
    confidence score. *)
Definition decidePhase (st : RunState) : bool * RunState :=
  let proposed := st_proposed st in
  let normalized := fields in
  let anyLow := anyLowConfidence proposed in
  let criticalMissing := hasCriticalMissingFields normalized proposed in
  let requiresHumanReview := anyLow || criticalMissing in
  let st := pushTrail st step_decide now
              (decideDetails proposed anyLow criticalMissing requiresHumanReview) in
  let st :=
    match map c_confidence proposed with
    | [] => st
    | c :: cs => setScore st (round2 (minOf c cs))
    end in
  (requiresHumanReview, st).

(** *** Learn *)

Definition decisionOf (s : string) : option Decision :=
  if String.eqb s "approved" then Some Approved
  else if String.eqb s "rejected" then Some Rejected
  else None.

(** How the Learn phase ends: at its end, with the run state; or in the
    [TypeError] of its loop over the rejected correction-memory entries,
    with the store as the statements that ran before it left it (the store
    is not in a transaction). *)
Inductive LearnOutcome : Type :=
| LearnDone (st : RunState)
| LearnThrown (db : Db).

(** The first iteration of the loop over [usedCorrectionMemoryIds] of a
    rejected decision, as far as it gets.  [markRejected] updates the entry
    and returns nothing; the trail entry that follows reads
    [out.rejectCount] off that [undefined], which throws.  Nothing is
    pushed to the trail and nothing is logged; the store is left as
    [markRejected] wrote it. *)
Definition learnRejectCorrection (st : RunState) (memId : string) : Db :=
  markRejected (st_db st) memId wall.

(** An approval block for one vendor-memory kind; the six blocks of the
    source differ in [kind], [pattern] and [note] only. *)
Definition learnVendorMemory (kind pattern : string) (note : option string)
    (st : RunState) : RunState :=
  let id := vendor ++ "::" ++ kind ++ "::" ++ pattern in
  let existing := find (fun m => String.eqb (vm_id m) id) vendorMemsAll in
  let nextConfidence :=
    Rmin 0.95
      (match existing with Some e => vm_confidence e | None => 0.6 end + 0.1) in
  let db :=
    upsertVendorMemory (st_db st)
      (mkVendorMemory id vendor kind pattern nextConfidence
         (match existing with Some e => vm_supportCount e | None => 0 end + 1)%Z
         (match existing with Some e => vm_rejectCount e | None => 0%Z end)
         (TsAt now) Active TsNull) in
  pushUpdate (withDb st db)
    (mkUpdate "vendor_memory_upsert" id nextConfidence note).

Definition hasField (name : string) (cs : list FieldCorrection) : bool :=
  existsb (fun c => String.eqb (fc_field c) name) cs.

(** One iteration of the loop over [qtyFixes]. *)
Definition learnQtyFix (st : RunState) (fix_ : FieldCorrection) : RunState :=
  match skuOfField ops (fc_field fix_) with
  | None => st
  | Some sku =>
      let id := vendor ++ "::lineItems[].qty::sku::" ++ sku in
      let result :=
        upsertCorrectionMemory (st_db st)
          (mkCorrectionMemory id vendor "lineItems[].qty" "sku" sku
             (toStr ops (fc_to fix_)) 0.7 0%Z 0%Z (TsAt now) (TsAt now)
             (Some Active)) in
      pushUpdate (withDb st (fst result))
        (mkUpdate "correction_memory_upsert" id (snd result) None)
  end.

Definition learnApproved (corrections : list FieldCorrection) (st : RunState)
  : RunState :=
  let st :=
    if hasField "serviceDate" corrections
    then learnVendorMemory "serviceDate_from_label" "Leistungsdatum" None st
    else st in
  let st :=
    if hasField "poNumber" corrections
    then learnVendorMemory "po_match_strategy" "sku_and_date_window" None st
    else st in
  let touchesTotals :=
    existsb (fun c => String.eqb (fc_field c) "taxTotal"
                      || String.eqb (fc_field c) "grossTotal") corrections in
  let st :=
    if touchesTotals && isVatInclusiveText ops rawText
    then learnVendorMemory "vat_inclusive_pricing" "mwst_inkl"
           (Some "Learned VAT-inclusive pricing behavior.") st
    else st in
  let st :=
    if hasField "currency" corrections
    then learnVendorMemory "currency_from_rawText" "default"
           (Some "Learned currency-from-rawText behavior.") st
    else st in
  let qtyFixes := filter (fun c => includes (fc_field c) ".qty") corrections in
  let st := fold_left learnQtyFix qtyFixes st in
  let st :=
    if hasField "discountTerms" corrections
    then learnVendorMemory "skonto_terms" "default"
           (Some "Learned skonto terms behavior.") st
    else st in
  let freightSkuFix :=
    existsb (fun c => String.eqb (fc_field c) "lineItems[].sku"
                      && String.eqb (toUpperCase ops (toStr ops (fc_to c))) "FREIGHT")
            corrections in
  if freightSkuFix
  then learnVendorMemory "sku_mapping" "FREIGHT"
         (Some ("Learned freight description " ++ arrow ++ " SKU FREIGHT mapping.")) st
  else st.

(** One iteration of the loop over [usedResolutionKeys]. *)
Definition learnResolution (finalDecision : Decision) (invoiceId : string)
    (st : RunState) (key : string) : RunState :=
  let '(db, (value, _)) :=
    recordResolutionDecision (st_db st) vendor key finalDecision invoiceId wall in
  let db :=
    logAuditEvent db now
      (match finalDecision with
       | Approved => RESOLUTION_APPROVED
       | Rejected => RESOLUTION_REJECTED
       end)
      (Some vendor) (Some invoiceId) None None (MetaResolution key value) in
  pushTrail (withDb st db) step_learn now
    ("Resolution memory: " ++ key ++ " recorded "
     ++ (match finalDecision with Approved => "APPROVED" | Rejected => "REJECTED" end)
     ++ " (approved=" ++ zStr (rv_approved value) ++ ", rejected="
     ++ zStr (rv_rejected value) ++ ").").

Definition learnPhase (st : RunState) : LearnOutcome :=
  let invoiceId := inv_invoiceId extracted in
  if hasLearned (st_db st) invoiceId then
    LearnDone
      (pushTrail st step_learn now
         ("Skipped learning: invoiceId " ++ invoiceId ++ " already learned."))
  else
    let decisionsForInvoice := ctx_correctionsForInvoice context in
    let decisionRow :=
      find (fun x => String.eqb (hc_finalDecision x) "approved"
                     || String.eqb (hc_finalDecision x) "rejected")
           decisionsForInvoice in
    match decisionRow with
    | None =>
        LearnDone
          (pushTrail st step_learn now
             "No human decision available for learning.")
    | Some row =>
        match decisionOf (hc_finalDecision row) with
        | None =>
            LearnDone
              (pushTrail st step_learn now
                 "No human decision available for learning.")
        | Some finalDecision =>
            match finalDecision, st_corrIds st with
            | Rejected, memId :: _ =>
                LearnThrown (learnRejectCorrection st memId)
            | _, _ =>
                let st :=
                  match finalDecision with
                  | Rejected =>
                      (* no correction memory was used, and the loop over
                         maybeUsedVendorMemIds that follows in the source
                         ranges over an empty array *)
                      st
                  | Approved => learnApproved (hc_corrections row) st
                  end in
                let st :=
                  fold_left (learnResolution finalDecision invoiceId)
                    (st_resKeys st) st in
                let st := withDb st (markLearned (st_db st) invoiceId wall) in
                let st :=
                  withDb st
                    (logAuditEvent (st_db st) now
                       (match finalDecision with
                        | Approved => LEARN_APPROVED
                        | Rejected => LEARN_REJECTED
                        end)
                       (Some vendor) (Some invoiceId) None None
                       (MetaLearn (filter nonEmpty (map mu_id (st_updates st))))) in
                LearnDone
                  (pushTrail st step_learn now
                     (match finalDecision with
                      | Approved =>
                          "Learning applied from APPROVED corrections for invoiceId "
                          ++ invoiceId ++ "."
                      | Rejected =>
                          "Recorded REJECTED decision for invoiceId " ++ invoiceId
                          ++ " (no vendor/correction learning applied)."
                      end))
            end
        end
    end.

End Run.

(** *** The pipeline *)

Definition initialScore : R := 0.25.

Definition markRunDuplicate (db : Db) (invoiceId duplicateOf : string) : Db :=
  set_invoice_runs db
    (updateWhere (fun r => String.eqb (run_invoiceId r) invoiceId)
       (fun r =>
          mkRun (run_invoiceId r) (run_vendor r) (run_dataset r)
            (run_createdAt r) (run_invoiceNumber r) (run_fingerprint r) 1%Z
            (Some duplicateOf))
       (invoice_runs db)).

Definition runPipeline (db : Db) (context : Context) (now wall : Z)
  : Db * option AgentOutput :=
  let vendor := ctx_vendor context in
  let extracted := ctx_extracted context in
  match detectDuplicate ops db extracted with
  | Duplicate duplicateOfInvoiceId reason fingerprint =>
      let db :=
        recordDuplicate db (inv_invoiceId extracted) (inv_vendor extracted)
          fingerprint duplicateOfInvoiceId reason now in
      let db := markRunDuplicate db (inv_invoiceId extracted) duplicateOfInvoiceId in
      let db :=
        logAuditEvent db now DUPLICATE_DETECTED (Some (inv_vendor extracted))
          (Some (inv_invoiceId extracted)) None None
          (MetaDuplicate duplicateOfInvoiceId reason) in
      (db,
       Some
         (mkOutput (inv_fields extracted) [] true
            ("Duplicate detected: " ++ reason ++ " (duplicate of "
             ++ duplicateOfInvoiceId ++ ").")
            0.2 []
            [mkTrail step_duplicateGuard now
               ("Duplicate of " ++ duplicateOfInvoiceId ++ ": " ++ reason)]))
  | NotDuplicate =>
      let st := mkState db [] [] [] [] [] [] initialScore in
      let vendorMemsAll := getVendorMemories db vendor in
      let st := pushTrail st step_recall now
                  ("Recalled " ++ rStr (INR (List.length vendorMemsAll))
                   ++ " vendor memories for " ++ vendor ++ ".") in
      let corrMems := getCorrectionMemories db vendor in
      let st := pushTrail st step_recall now
                  ("Recalled " ++ rStr (INR (List.length corrMems))
                   ++ " correction memories for " ++ vendor ++ ".") in
      let st := applyPhase context now wall vendorMemsAll st in
      let decided := decidePhase context now st in
      let requiresHumanReview := fst decided in
      let st := snd decided in
      match learnPhase context now wall vendorMemsAll st with
      | LearnDone st =>
          (st_db st,
           Some
             (mkOutput (inv_fields extracted) (st_proposed st)
                requiresHumanReview (join " " (st_reasons st)) (st_score st)
                (st_updates st) (st_trail st)))
      | LearnThrown db => (db, None)
      end
  end.

End Engine.

(** ** Notions used to state the properties *)

(** A correction-memory row without its [lastUsedAt] stamp. *)
Definition forgetLastUsed (m : CorrectionMemoryRow) : CorrectionMemoryRow :=
  mkCorrectionMemory (cm_id m) (cm_vendor m) (cm_fieldPath m)
    (cm_patternType m) (cm_patternValue m) (cm_recommendedValue m)
    (cm_confidence m) (cm_supportCount m) (cm_rejectCount m) TsNull
    (cm_createdAt m) (cm_status m).

(** Two stores that agree on every table, up to the [lastUsedAt] stamps of
    correction memory. *)
Definition sameMemory (db db' : Db) : Prop :=
  invoice_runs db' = invoice_runs db
  /\ vendor_memory db' = vendor_memory db
  /\ map forgetLastUsed (correction_memory db')
     = map forgetLastUsed (correction_memory db)
  /\ correction_hasStatus db' = correction_hasStatus db
  /\ resolution_memory db' = resolution_memory db
  /\ resolution_hasDisabledAt db' = resolution_hasDisabledAt db
  /\ resolution_hasRejectCount db' = resolution_hasRejectCount db
  /\ duplicate_records db' = duplicate_records db
  /\ learning_events db' = learning_events db
  /\ audit_events db' = audit_events db.

(** The confidence the VAT-inclusive check works with when it runs to
    completion: the raw text quotes VAT-inclusive prices and net total, tax
    rate, gross total and tax total are all finite numbers. *)
Definition vatCheckConfidence (ops : JsOps) (context : Context) (now : Z)
    (vendorMemsAll : list VendorMemory) (db : Db) : option R :=
  let extracted := ctx_extracted context in
  let fields := inv_fields extracted in
  let rawText :=
    match inv_rawText extracted with Some s => s | None => EmptyString end in
  let vatMem := findVendorMem "vat_inclusive_pricing" "mwst_inkl" vendorMemsAll in
  let canUseVatMem := canApplyVendorMem vatMem now in
  if isVatInclusiveText ops rawText then
    match toNum ops (f_netTotal fields),
          toNum ops (coalesce (f_taxRate fields) (VNum (Fin 0.19))),
          toNum ops (f_grossTotal fields),
          toNum ops (f_taxTotal fields) with
    | Fin _, Fin _, Fin _, Fin _ =>
        Some (fst (applyResolutionMemoryToConfidence ops db (ctx_vendor context)
                     RES_vatTotals
                     (baseAfterDecayVendor canUseVatMem vatMem
                        (if canUseVatMem then 0.85 else 0.6) now)))
    | _, _, _, _ => None
    end
  else None.

(** The human verdict the Learn phase acts on, if any. *)
Definition verdictOf (context : Context) : option Decision :=
  match find (fun x => String.eqb (hc_finalDecision x) "approved"
                       || String.eqb (hc_finalDecision x) "rejected")
             (ctx_correctionsForInvoice context) with
  | Some row => decisionOf (hc_finalDecision row)
  | None => None
  end.



(** What one heuristic of the Apply phase may do to the run state: stamp
    correction memory as used, append proposals, and raise the running
    score, the last only together with a proposal. *)
Definition applyFrame (st st' : RunState) : Prop :=
  sameMemory (st_db st) (st_db st')
  /\ st_updates st' = st_updates st
  /\ exists cs, st_proposed st' = (st_proposed st ++ cs)%list
                /\ (cs = [] -> st_score st' = st_score st).

(** What the Learn phase maintains about the vendor memory [vm0] it started
    from: an entry is either still stored as it was or named by a memory
    update, and every vendor-memory update names a stored, active entry. *)
Definition learnInv (vm0 : list VendorMemory) (st : RunState) : Prop :=
  (forall m, In m vm0 ->
     In m (vendor_memory (st_db st))
     \/ In (vm_id m) (map mu_id (st_updates st)))
  /\ (forall u, In u (st_updates st) -> mu_type u = "vendor_memory_upsert" ->
        exists m', In m' (vendor_memory (st_db st))
                   /\ vm_id m' = mu_id u /\ vm_status m' = Active).

(** The store the Learn phase leaves, however it ends. *)
Definition learnStore (o : LearnOutcome) : Db :=
  match o with
  | LearnDone st => st_db st
  | LearnThrown db => db
  end.

(** The part of the run state the Learn phase never writes. *)
Definition learnKeeps (st st' : RunState) : Prop :=
  st_proposed st' = st_proposed st /\ st_score st' = st_score st.

(** Steps of the Learn phase that leave vendor memory and the list of
    memory updates alone. *)
Definition vendorIdle (st st' : RunState) : Prop :=
  vendor_memory (st_db st') = vendor_memory (st_db st)
  /\ st_updates st' = st_updates st.

(** ** Sample data

    Concrete stores and invoices on which the properties below are
    exercised.  [plainOps] answers the extractors for raw texts that hold
    none of the labels they search for ("VAT included" is the one wording it
    recognises); its number conversions are placeholders, never consulted
    by a comparison, and its case mappings, [trim] and [slice] are those
    of ASCII strings, which is what the sample data consists of. *)

Definition plainOps : JsOps :=
  mkJsOps
    (fun _ => "0")
    (fun _ => NaN)
    (fun _ => None)
    (fun _ => None)
    (fun _ => None)
    (fun _ => None)
    (fun s => includes (asciiToLowerCase s) "vat included")
    (fun _ => None)
    (fun _ => None)
    (fun _ _ => NaN)
    (fun _ => false)
    (fun _ => false)
    (fun _ => None)
    asciiToLowerCase asciiToUpperCase asciiTrim asciiSlice0.

Definition emptyDb : Db :=
  mkDb [] [] [] true [] true true [] [] [].

Definition sampleFields : Fields :=
  mkFields (VStr "INV-1") (VStr "2024-03-05") (VStr "2024-03-05") (VStr "EUR")
    (VNum (Fin 100)) (VNum (Fin 119)) (VNum (Fin 19)) (VNum (Fin 0.19))
    (VStr "PO-1") (VStr "net 30") (Some []).

(** An invoice whose notes mention a duplicate, first of its vendor. *)
Definition cueInvoice : InvoiceExtracted :=
  mkInvoice "INV-1" "Supplier GmbH" sampleFields
    (Some "Please note: DUPLICATE submission of our letter.").

(** A store that has seen another invoice of the vendor and holds the run
    row of [cueInvoice] itself. *)
Definition cueDb : Db :=
  mkDb
    [mkRun "INV-0" "Supplier GmbH" "full" 0 (Some "INV-0000") None 0 None;
     mkRun "INV-1" "Supplier GmbH" "full" 1 (Some "INV-1") None 0 None]
    [] [] true [] true true [] [] [].

(** Three submissions of one vendor under the invoice number N-7: the
    original INV-A, then INV-B, then INV-C. *)
Definition invoiceNumbered (id : string) : InvoiceExtracted :=
  mkInvoice id "Parts AG"
    (mkFields (VStr "N-7") (VStr "2024-03-05") (VStr "2024-03-05") (VStr "EUR")
       (VNum (Fin 100)) (VNum (Fin 119)) (VNum (Fin 19)) (VNum (Fin 0.19))
       (VStr "PO-1") (VStr "net 30") (Some []))
    (Some "Invoice N-7").

Definition contextOf (invoice : InvoiceExtracted) : Context :=
  mkContext (inv_vendor invoice) invoice (mkReference [] []) [].

(** The store when INV-B arrives: the run of INV-A and the run row of INV-B. *)
Definition chainDb : Db :=
  mkDb
    [mkRun "INV-A" "Parts AG" "full" 0 (Some "N-7") None 0 None;
     mkRun "INV-B" "Parts AG" "full" 1 (Some "N-7") None 0 None]
    [] [] true [] true true [] [] [].

(** A trusted correction-memory entry: the default currency of a vendor. *)
Definition currencyEntry : CorrectionMemoryRow :=
  mkCorrectionMemory "cm-1" "Supplier GmbH" "currency" "vendor" "default" "EUR"
    0.7 1 0 (TsAt 0) (TsAt 0) (Some Active).

Definition rejectDb : Db :=
  mkDb [] [] [currencyEntry] true [] true true [] [] [].

(** A vendor-memory entry that was disabled, and an approved human decision
    that covers the service date for the same vendor. *)
Definition disabledEntry : VendorMemory :=
  mkVendorMemory "Supplier GmbH::serviceDate_from_label::Leistungsdatum"
    "Supplier GmbH" "serviceDate_from_label" "Leistungsdatum"
    0.45 3 2 (TsAt 0) Disabled TsNull.

Definition disabledDb : Db :=
  mkDb [] [disabledEntry] [] true [] true true [] [] [].

Definition plainInvoice : InvoiceExtracted :=
  mkInvoice "INV-1" "Supplier GmbH" sampleFields (Some "Invoice no. 1").

Definition approvedServiceDate : Context :=
  mkContext "Supplier GmbH" plainInvoice (mkReference [] [])
    [mkHumanCorrection [mkFieldCorrection "serviceDate" (VStr "2024-03-05")]
       "approved"].

(** An invoice quoting VAT-inclusive prices whose totals already agree. *)
Definition vatInvoice : InvoiceExtracted :=
  mkInvoice "INV-1" "Supplier GmbH" sampleFields (Some "VAT included").

(** A store in which INV-1 has been learned and the vendor's default
    currency is a trusted, freshly used correction-memory entry; and INV-1
    as extracted without a currency. *)
Definition usedCurrencyEntry : CorrectionMemoryRow :=
  mkCorrectionMemory "cm-1" "Supplier GmbH" "currency" "vendor" "default" "EUR"
    0.7 1 0 (TsAt 10) (TsAt 0) (Some Active).

Definition learnedDb : Db :=
  mkDb [] [] [usedCurrencyEntry] true [] true true []
    [mkLearningEvent "INV-1" 5] [].

Definition noCurrencyInvoice : InvoiceExtracted :=
  mkInvoice "INV-1" "Supplier GmbH"
    (mkFields (VStr "INV-1") (VStr "2024-03-05") (VStr "2024-03-05") VNull
       (VNum (Fin 100)) (VNum (Fin 119)) (VNum (Fin 19)) (VNum (Fin 0.19))
       (VStr "PO-1") (VStr "net 30") (Some []))
    (Some "Invoice no. 1").

Definition approvedCurrency : Context :=
  mkContext "Supplier GmbH" noCurrencyInvoice (mkReference [] [])
    [mkHumanCorrection [mkFieldCorrection "currency" (VStr "EUR")] "approved"].




(** The service-date entry of a vendor right after a first approval. *)
Definition learnedEntry : VendorMemory :=
  mkVendorMemory "Supplier GmbH::serviceDate_from_label::Leistungsdatum"
    "Supplier GmbH" "serviceDate_from_label" "Leistungsdatum"
    0.7 1 0 (TsAt 0) Active TsNull.

(** Ninety days in milliseconds *)
Definition ninetyDays : Z := 90 * 86400000.

(** ** db/vendorMemory.ts: rejections of a vendor-memory entry *)

Section VendorRejections.

(** The meta objects of the two audit events a penalty can write,
    [{ amount, nextConfidence, nextReject }] and [{ reason }], as audit
    metadata. *)
Variable penaltyMeta : R -> R -> Z -> AuditMeta.
Variable disabledMeta : string -> AuditMeta.

Definition penalizeVendorMemory (db : Db) (id : string) (amount : R)
    (wall : Z) : Db :=
  let hit := fun m => String.eqb (vm_id m) id in
  match find hit (vendor_memory db) with
  | None => db
  | Some row =>
      let nextConfidence := Rmax 0 (Rmin 1 (vm_confidence row - amount)) in
      let nextReject := (vm_rejectCount row + 1)%Z in
      let db1 :=
        set_vendor_memory db
          (updateWhere hit
             (fun m =>
                mkVendorMemory (vm_id m) (vm_vendor m) (vm_kind m)
                  (vm_pattern m) nextConfidence (vm_supportCount m)
                  nextReject (TsAt wall) (vm_status m) (vm_disabledAt m))
             (vendor_memory db)) in
      let db2 :=
        logAuditEvent db1 wall LEARN_REJECTED (Some (vm_vendor row)) None
          (Some "vendor_memory") (Some (vm_id row))
          (penaltyMeta amount nextConfidence nextReject) in
      if (2 <=? nextReject)%Z && negb (Status_eqb (vm_status row) Disabled)
      then
        let db3 :=
          set_vendor_memory db2
            (updateWhere hit
               (fun m =>
                  mkVendorMemory (vm_id m) (vm_vendor m) (vm_kind m)
                    (vm_pattern m) (vm_confidence m) (vm_supportCount m)
                    (vm_rejectCount m) (vm_lastUsedAt m) Disabled
                    (vm_disabledAt m))
               (vendor_memory db2)) in
        logAuditEvent db3 wall MEMORY_DISABLED (Some (vm_vendor row)) None
          (Some "vendor_memory") (Some (vm_id row))
          (disabledMeta "rejectCount>=2")
      else db2
  end.

(** The default argument [amount = 0.15]. *)
Definition penalizeVendorMemoryDefault (db : Db) (id : string) (wall : Z)
  : Db :=
  penalizeVendorMemory db id 0.15 wall.

End VendorRejections.

(** [rejectCount = COALESCE(rejectCount, 0) + 1,
     lastUsedAt = COALESCE(lastUsedAt, @nowIso)] *)
Definition incrementVendorMemoryReject (db : Db) (id : string)
    (nowIso : isoTime) : Db :=
  set_vendor_memory db
    (updateWhere (fun m => String.eqb (vm_id m) id)
       (fun m =>
          mkVendorMemory (vm_id m) (vm_vendor m) (vm_kind m) (vm_pattern m)
            (vm_confidence m) (vm_supportCount m) (vm_rejectCount m + 1)%Z
            (ts_coalesce (vm_lastUsedAt m) nowIso) (vm_status m)
            (vm_disabledAt m))
       (vendor_memory db)).

(** The store's own [disableVendorMemory], which sets the status and leaves
    the [disabledAt] column alone (the admin command of the same name sets
    both). *)
Module VendorMemoryDb.

Definition disableVendorMemory (db : Db) (id : string) (nowIso : isoTime)
  : Db :=
  set_vendor_memory db
    (updateWhere (fun m => String.eqb (vm_id m) id)
       (fun m =>
          mkVendorMemory (vm_id m) (vm_vendor m) (vm_kind m) (vm_pattern m)
            (vm_confidence m) (vm_supportCount m) (vm_rejectCount m)
            (ts_coalesce (vm_lastUsedAt m) nowIso) Disabled
            (vm_disabledAt m))
       (vendor_memory db)).

End VendorMemoryDb.

(** ** db/resolutionMemory.ts: shaping a confidence by the history *)

Definition applyResolutionToConfidence (ops : JsOps) (db : Db)
    (vendor key : string) (baseConfidence : R) : R * string :=
  match getResolution db vendor key with
  | None => (baseConfidence, "No resolution history.")
  | Some row =>
      let a := rv_approved (rm_value row) in
      let r := rv_rejected (rm_value row) in
      let total := (a + r)%Z in
      if (total =? 0)%Z then (baseConfidence, "No resolution history.")
      else if (2 <=? r)%Z && (a =? 0)%Z then
        let capped := Rmin baseConfidence 0.6 in
        (capped,
         "Mostly rejected historically (approved=" ++ zStr ops a
         ++ ", rejected=" ++ zStr ops r ++ ") " ++ arrow ++ " capped.")
      else
        let approvalRatio := IZR a / IZR total in
        let delta := (approvalRatio - 0.5) * 0.2 in
        let next := Rmax 0.2 (Rmin 0.95 (baseConfidence + delta)) in
        (next,
         "Resolution: approved=" ++ zStr ops a ++ ", rejected=" ++ zStr ops r
         ++ ", " ++ rStr ops baseConfidence ++ arrow ++ rStr ops next)
  end.

(** ** Further notions used to state properties *)

(** The row stored under [(vendor, key)], disabled or not. *)
Definition resolutionRow (db : Db) (vendor key : string)
  : option ResolutionMemoryRow :=
  find (resolutionKeyIs vendor key) (resolution_memory db).

(** The counters and the confidence a decision starts from: those of the
    stored row, or the defaults of a key without a row. *)
Definition resolutionValueOf (o : option ResolutionMemoryRow)
  : ResolutionValueJson :=
  match o with Some e => rm_value e | None => defaultValue end.

Definition resolutionConfidenceOf (o : option ResolutionMemoryRow) : R :=
  match o with Some e => rm_confidence e | None => 0.5 end.

(** An entry that an administrator disabled: rows are stored under the id
    and each carries a [disabledAt] stamp. *)
Definition adminDisabled (id : string) (db : Db) : Prop :=
  (exists m, In m (vendor_memory db) /\ vm_id m = id)
  /\ forall m, In m (vendor_memory db) -> vm_id m = id ->
       tsNullOrEmpty (vm_disabledAt m) = false.

(** What the Learn phase writes into vendor memory: an active row of the
    run's vendor, stamped with the run's instant, its confidence capped. *)
Definition learnedRow (vendor : string) (now : Z) (mem : VendorMemory) : Prop :=
  vm_vendor mem = vendor
  /\ vm_status mem = Active
  /\ vm_lastUsedAt mem = TsAt now
  /\ vm_confidence mem <= 0.95
  /\ vm_disabledAt mem = TsNull.

(** The row the Learn phase hands to [upsertCorrectionMemory] for an
    approved quantity fix. *)
Definition learnedCorrection (vendor : string) (now : Z)
    (row : CorrectionMemoryRow) : Prop :=
  cm_vendor row = vendor
  /\ cm_fieldPath row = "lineItems[].qty"%string
  /\ cm_patternType row = "sku"%string
  /\ cm_confidence row = 0.7
  /\ cm_lastUsedAt row = TsAt now
  /\ cm_createdAt row = TsAt now.

(** A correction-memory row [m'] that continues the row [m]: the same id,
    key and recommendation, counters that did not go down, and a disabled
    status that was not lifted. *)
Definition cmKept (m m' : CorrectionMemoryRow) : Prop :=
  cm_id m' = cm_id m
  /\ cm_vendor m' = cm_vendor m
  /\ cm_fieldPath m' = cm_fieldPath m
  /\ cm_patternType m' = cm_patternType m
  /\ cm_patternValue m' = cm_patternValue m
  /\ cm_recommendedValue m' = cm_recommendedValue m
  /\ cm_createdAt m' = cm_createdAt m
  /\ (cm_supportCount m <= cm_supportCount m')%Z
  /\ (cm_rejectCount m <= cm_rejectCount m')%Z
  /\ (cm_status m = Some Disabled -> cm_status m' = Some Disabled).

(** A correction-memory entry the gate can trust, as far as its stored
    columns other than [lastUsedAt] go. *)
Definition trustedEntry (vendor : string) (m : CorrectionMemoryRow) : Prop :=
  cm_vendor m = vendor
  /\ (cm_status m = None \/ cm_status m = Some Active)
  /\ (cm_rejectCount m < 2)%Z
  /\ 0.65 <= cm_confidence m.

(** What holds of every correction the Apply phase proposes. *)
Definition proposalOk (context : Context) (now : Z)
    (vendorMemsAll : list VendorMemory) (db : Db) (c : Correction) : Prop :=
  let fields := inv_fields (ctx_extracted context) in
  0 <= c_confidence c <= 1
  /\ (c_source c = vendor_memory_source ->
      exists m, In m vendorMemsAll /\ canApplyVendorMem (Some m) now = true)
  /\ (c_source c = correction_memory_source ->
      exists m, In m (correction_memory db)
                /\ trustedEntry (ctx_vendor context) m)
  /\ (c_field c = "serviceDate" -> isNullish (f_serviceDate fields) = true)
  /\ (c_field c = "poNumber" -> isNullish (f_poNumber fields) = true)
  /\ (c_field c = "currency" -> isNullish (f_currency fields) = true)
  /\ (c_field c = "discountTerms" -> isNullish (f_discountTerms fields) = true)
  /\ (c_field c = "grossTotal" \/ c_field c = "taxTotal" ->
      exists current expected,
        c_from c = VNum (Fin current) /\ c_to c = VNum (Fin expected)
        /\ 0.01 < Rabs (current - expected)).

Definition proposalsOk (context : Context) (now : Z)
    (vendorMemsAll : list VendorMemory) (st : RunState) : Prop :=
  Forall (proposalOk context now vendorMemsAll (st_db st)) (st_proposed st)
  /\ 0 <= st_score st <= 1.


(** A step of a run that appends to the audit trail only entries of one
    phase, stamped with the instant of the run. *)
Definition trailAdds (step : AuditStep) (now : Z) (st st' : RunState) : Prop :=
  exists ts,
    st_trail st' = (st_trail st ++ ts)%list
    /\ Forall (fun e => at_step e = step /\ at_timestamp e = now) ts.

(** ** What a proposal rests on *)




(** ** admin/adminCli.ts: the command line of the administrator *)

(** [s.indexOf(c)] for a one-character needle; [None] is the answer -1 *)
Fixpoint indexOf (c : ascii) (s : string) : option nat :=
  match s with
  | EmptyString => None
  | String a s' =>
      if Ascii.eqb a c then Some 0%nat
      else match indexOf c s' with
           | Some i => Some (S i)
           | None => None
           end
  end.

(** [s.slice(from, to)] and [s.slice(from)] for indices within the string *)
Definition slice (from to : nat) (s : string) : string :=
  substring from (to - from) s.

Definition sliceFrom (from : nat) (s : string) : string :=
  substring from (String.length s - from) s.

(** What an option of the command line is bound to: the string given for
    it, or [true] for a bare flag. *)
Inductive ArgValue : Type :=
| ArgStr (s : string)
| ArgTrue.

(** The value under the key [_]: the array of positional tokens, until an
    option that is itself named [_] overwrites it. *)
Inductive Positional : Type :=
| PosList (tokens : list string)
| PosValue (v : ArgValue).

(** The object [out] of [parseCliArgs]: the key [_], and the other own keys
    with the latest assignment first.  The keys the command line is read
    at ([db], [vendor], [id], [to]) are not defined by [Object.prototype],
    so that a key without a binding reads as [undefined]. *)
Record CliArgs : Type := mkCliArgs {
  args_positional : Positional;
  args_options : list (string * ArgValue)
}.

(** [out[k] = v].  Assigning a string or a boolean to [__proto__] is
    ignored by the setter [Object.prototype] defines for it. *)
Definition setArg (out : CliArgs) (k : string) (v : ArgValue) : CliArgs :=
  if String.eqb k "_" then mkCliArgs (PosValue v) (args_options out)
  else if String.eqb k "__proto__" then out
  else mkCliArgs (args_positional out) ((k, v) :: args_options out).

(** [args[k]] for a key other than [_] *)
Definition getArgOf (args : CliArgs) (k : string) : option ArgValue :=
  match find (fun kv => String.eqb (fst kv) k) (args_options args) with
  | Some kv => Some (snd kv)
  | None => None
  end.

(** The loop of [parseCliArgs] from the token at hand on.  [None] is the
    [TypeError] of [out._.push(token)] once [_] no longer holds an array. *)
Fixpoint parseLoop (argv : list string) (out : CliArgs) : option CliArgs :=
  match argv with
  | [] => Some out
  | token :: rest =>
      if negb (prefix "--" token) then
        match args_positional out with
        | PosList l =>
            parseLoop rest
              (mkCliArgs (PosList (l ++ [token])%list) (args_options out))
        | PosValue _ => None
        end
      else
        match indexOf "="%char token with
        | Some eq =>
            let k := slice 2 eq token in
            let v := sliceFrom (eq + 1) token in
            parseLoop rest (setArg out k (ArgStr v))
        | None =>
            let k := sliceFrom 2 token in
            match rest with
            | next :: rest' =>
                if nonEmpty next && negb (prefix "--" next)
                then parseLoop rest' (setArg out k (ArgStr next))
                else parseLoop rest (setArg out k ArgTrue)
            | [] => parseLoop rest (setArg out k ArgTrue)
            end
        end
  end.

Definition parseCliArgs (argv : list string) : option CliArgs :=
  parseLoop argv (mkCliArgs (PosList []) []).

(** [String(v ?? fallback)] *)
Definition stringOfArg (v : option ArgValue) (fallback : string) : string :=
  match v with
  | Some (ArgStr s) => s
  | Some ArgTrue => "true"
  | None => fallback
  end.

(** [Number(v ?? 0.75)] *)
Definition numberOfArg (ops : JsOps) (v : option ArgValue) : num :=
  match v with
  | Some (ArgStr s) => stringToNumber ops s
  | Some ArgTrue => Fin 1
  | None => Fin 0.75
  end.

(** [String(args._[0] ?? "")]; indexing a string gives its first
    character, indexing [true] gives [undefined]. *)
Definition commandOf (args : CliArgs) : string :=
  match args_positional args with
  | PosList (t :: _) => t
  | PosList [] => ""
  | PosValue (ArgStr s) => substring 0 1 s
  | PosValue ArgTrue => ""
  end.

(** How a call of the command line ends: with [listMemory] called for a
    vendor, with a store written by a command, or with an [Error] thrown.
    What is printed is left out. *)
Inductive CliOutcome : Type :=
| CliListed (vendor : string)
| CliDone (db' : Db)
| CliError (message : string).

(** [runAdminCli(argv)] on the store [db] found at the path it opens: the
    path, and the outcome.  [None] is the [TypeError] of [parseCliArgs],
    raised before a store is opened. *)
Definition runAdminCli (ops : JsOps) (db : Db) (argv : list string)
    (wall : Z) : option (string * CliOutcome) :=
  match parseCliArgs argv with
  | None => None
  | Some args =>
      let dbPath := stringOfArg (getArgOf args "db") "storage/memory.db" in
      let cmd := commandOf args in
      Some
        (dbPath,
         if String.eqb cmd "list" then
           CliListed (stringOfArg (getArgOf args "vendor") "")
         else if String.eqb cmd "disable" then
           let id := trim ops (stringOfArg (getArgOf args "id") "") in
           if negb (nonEmpty id) then CliError "--id is required"
           else CliDone (disableVendorMemory db id wall)
         else if String.eqb cmd "reset-confidence" then
           let id := trim ops (stringOfArg (getArgOf args "id") "") in
           let to := numberOfArg ops (getArgOf args "to") in
           if negb (nonEmpty id) then CliError "--id is required"
           else
             match to with
             | Fin t =>
                 if Rleb 0 t && Rleb t 1
                 then CliDone (resetVendorMemoryConfidence db id t wall)
                 else CliError "--to must be between 0 and 1"
             | _ => CliError "--to must be between 0 and 1"
             end
         else CliError ("Unknown admin command: " ++ cmd))
  end.

(** A resolution row on which one decision has been booked, against the
    row (or the absence of a row) it started from. *)
Definition tallied (dec : Decision) (invoiceId : string)
    (old new : option ResolutionMemoryRow) : Prop :=
  exists r',
    new = Some r'
    /\ rm_value r'
       = mkResolutionValue
           (rv_approved (resolutionValueOf old)
            + match dec with Approved => 1 | Rejected => 0 end)
           (rv_rejected (resolutionValueOf old)
            + match dec with Rejected => 1 | Approved => 0 end)
           (Some dec) (Some invoiceId).

(** A string of the ASCII white space that [trim] removes: tab, line feed,
    vertical tab, form feed, carriage return, space. *)
Fixpoint allWhite (s : string) : bool :=
  match s with
  | EmptyString => true
  | String c s' => isWhite c && allWhite s'
  end.

(** A string of ASCII characters only.  On these the case mappings and
    [trim] of JavaScript are the byte-wise ones: the letters A to Z and a
    to z are mapped onto each other, and the white space removed is tab,
    line feed, vertical tab, form feed, carriage return and space. *)
Definition isAsciiChar (c : ascii) : bool :=
  match c with Ascii _ _ _ _ _ _ _ b7 => negb b7 end.

Fixpoint isAscii (s : string) : bool :=
  match s with
  | EmptyString => true
  | String c s' => isAsciiChar c && isAscii s'
  end.

(** Run-time string operations that treat ASCII strings as JavaScript
    does. *)
Definition asciiFaithful (ops : JsOps) : Prop :=
  forall s, isAscii s = true ->
    toLowerCase ops s = asciiToLowerCase s /\ trim ops s = asciiTrim s.
(** * Properties *)

Local Open Scope list_scope.

(** ** Comparisons on reals *)

Lemma Rltb_true x y : Rltb x y = true <-> x < y.
Proof. unfold Rltb; destruct (Rlt_dec x y); split; (congruence || lra || auto). Qed.

Lemma Rltb_false x y : Rltb x y = false <-> y <= x.
Proof. unfold Rltb; destruct (Rlt_dec x y); split; (congruence || lra || auto). Qed.

Lemma Rleb_true x y : Rleb x y = true <-> x <= y.
Proof. unfold Rleb; destruct (Rle_dec x y); split; (congruence || lra || auto). Qed.

Lemma Rleb_false x y : Rleb x y = false <-> y < x.
Proof. unfold Rleb; destruct (Rle_dec x y); split; (congruence || lra || auto). Qed.

Lemma Reqb_true x y : Reqb x y = true <-> x = y.
Proof. unfold Reqb; destruct (Req_dec_T x y); split; (congruence || auto). Qed.

(** *** Properties of the decay *)

Lemma clamp01_bounds x : 0 <= clamp01 x <= 1.
Proof.
  unfold clamp01; split.
  - apply Rmax_l.
  - apply Rmax_lub; [lra | apply Rmin_l].
Qed.

Lemma clamp01_id x : 0 <= x <= 1 -> clamp01 x = x.
Proof.
  intros [H0 H1]; unfold clamp01.
  rewrite Rmin_right by assumption.
  now rewrite Rmax_right.
Qed.

Lemma clamp01_le x : 0 <= x -> clamp01 x <= x.
Proof.
  intros H0; unfold clamp01.
  apply Rmax_lub; [assumption | apply Rmin_r].
Qed.

Lemma clamp01_mono x y : x <= y -> clamp01 x <= clamp01 y.
Proof.
  intros Hxy; unfold clamp01.
  apply Rle_max_compat_l, Rle_min_compat_l; assumption.
Qed.

Lemma ln2_pos : 0 < ln 2.
Proof. rewrite <- ln_1; apply ln_increasing; lra. Qed.

Lemma decay_rate_pos hl : 0 < ln 2 / Rmax (1 / 1000000) hl.
Proof.
  apply Rdiv_lt_0_compat; [apply ln2_pos|].
  apply Rlt_le_trans with (1 / 1000000); [lra | apply Rmax_l].
Qed.

Lemma exp_le_compat x y : x <= y -> exp x <= exp y.
Proof.
  intros [Hlt | ->]; [left; now apply exp_increasing | right; reflexivity].
Qed.

Lemma exp_neg_le_1 l d : 0 < l -> 0 <= d -> exp (- l * d) <= 1.
Proof.
  intros Hl Hd; rewrite <- exp_0; apply exp_le_compat; nra.
Qed.

Lemma exp_neg_antitone l d1 d2 :
  0 < l -> d1 <= d2 -> exp (- l * d2) <= exp (- l * d1).
Proof.
  intros Hl Hd; apply exp_le_compat; nra.
Qed.

Lemma decayFactor_pos hl d : 0 < decayFactor hl d.
Proof. apply exp_pos. Qed.

Lemma decayFactor_le_1 hl d : 0 <= d -> decayFactor hl d <= 1.
Proof. intros Hd; apply exp_neg_le_1; [apply decay_rate_pos | assumption]. Qed.

Lemma decayFactor_antitone hl d1 d2 :
  d1 <= d2 -> decayFactor hl d2 <= decayFactor hl d1.
Proof. intros Hd; apply exp_neg_antitone; [apply decay_rate_pos | assumption]. Qed.

Lemma decayedConfidence_fin b d hl :
  decayedConfidence (Fin b) (Fin d) hl =
  if Rleb d 0 then clamp01 b else clamp01 (clamp01 b * decayFactor hl d).
Proof. reflexivity. Qed.

Lemma decayedConfidence_bounds base days hl :
  0 <= decayedConfidence base days hl <= 1.
Proof.
  unfold decayedConfidence.
  destruct base as [b| | |]; try lra.
  destruct days as [d| | |]; try lra.
  destruct (Rleb d 0); apply clamp01_bounds.
Qed.

Lemma decayedConfidence_le_base b days hl :
  decayedConfidence (Fin b) days hl <= clamp01 b.
Proof.
  pose proof (clamp01_bounds b) as [Hb0 Hb1].
  destruct days as [d| | |]; try exact Hb0.
  rewrite decayedConfidence_fin.
  destruct (Rleb d 0) eqn:Hd; [lra|].
  apply Rleb_false in Hd.
  pose proof (decayFactor_pos hl d) as Hf0.
  pose proof (decayFactor_le_1 hl d ltac:(lra)) as Hf1.
  eapply Rle_trans; [apply clamp01_le|]; nra.
Qed.

Lemma decayedConfidence_mono_fin b d1 d2 hl :
  d1 <= d2 ->
  decayedConfidence (Fin b) (Fin d2) hl <= decayedConfidence (Fin b) (Fin d1) hl.
Proof.
  intros H12.
  pose proof (clamp01_bounds b) as [Hb0 Hb1].
  rewrite !decayedConfidence_fin.
  destruct (Rleb d2 0) eqn:E2.
  - apply Rleb_true in E2.
    assert (Rleb d1 0 = true) as -> by (apply Rleb_true; lra). lra.
  - apply Rleb_false in E2.
    pose proof (decayFactor_pos hl d2) as Hf0.
    pose proof (decayFactor_le_1 hl d2 ltac:(lra)) as Hf1.
    destruct (Rleb d1 0) eqn:E1.
    + eapply Rle_trans; [apply clamp01_le|]; nra.
    + apply clamp01_mono.
      apply Rmult_le_compat_l; [assumption|].
      now apply decayFactor_antitone.
Qed.

Lemma daysSince_nonneg iso now d : daysSince iso now = Fin d -> 0 <= d.
Proof.
  destruct iso as [| | |t]; simpl; try discriminate.
  destruct (now - t <=? 0)%Z eqn:E; intros [= <-]; [lra|].
  apply Z.leb_gt in E.
  apply Rlt_le, Rdiv_lt_0_compat; [now apply IZR_lt | unfold msPerDay; lra].
Qed.

Lemma ts_coalesce_null_r t : ts_coalesce t TsNull = t.
Proof. now destruct t. Qed.

(** ** Confidence decay *)

(** C2.  For a confidence [c] in [[0,1]] and elapsed days [0 <= d1 <= d2]
    the decayed confidence is non-increasing ([d2] decays at least as much
    as [d1], and an infinite age decays at least as much as any finite one);
    it equals [c] at [d = 0] and for every [d <= 0]; it is [0] at
    [d = +Infinity] whatever the base, which is the age [daysSince] gives a
    null, empty or unparsable [lastUsedAt]; and the result always lies in
    [[0,1]]. *)
Theorem decayedConfidence_monotone_clamped
    (c d1 d2 halfLife : R) (Hc : 0 <= c <= 1) (Hd : 0 <= d1 <= d2) :
  decayedConfidence (Fin c) (Fin d2) halfLife
    <= decayedConfidence (Fin c) (Fin d1) halfLife
  /\ decayedConfidence (Fin c) PInf halfLife
       <= decayedConfidence (Fin c) (Fin d2) halfLife
  /\ decayedConfidence (Fin c) (Fin 0) halfLife = c
  /\ (forall d, d <= 0 -> decayedConfidence (Fin c) (Fin d) halfLife = c)
  /\ (forall base, decayedConfidence base PInf halfLife = 0)
  /\ (forall now, daysSince TsNull now = PInf
                  /\ daysSince TsEmpty now = PInf
                  /\ daysSince TsInvalid now = PInf)
  /\ (forall base days, 0 <= decayedConfidence base days halfLife <= 1).
Proof.
  assert (Hle0 : forall d, d <= 0 ->
                           decayedConfidence (Fin c) (Fin d) halfLife = c).
  { intros d Hd0. rewrite decayedConfidence_fin.
    assert (Rleb d 0 = true) as -> by now apply Rleb_true.
    now apply clamp01_id. }
  repeat split.
  - apply decayedConfidence_mono_fin; lra.
  - apply (decayedConfidence_bounds (Fin c) (Fin d2) halfLife).
  - apply Hle0; lra.
  - exact Hle0.
  - intros base; now destruct base.
  - apply decayedConfidence_bounds.
  - apply decayedConfidence_bounds.
Qed.

Lemma decayedConfidence_monotone_clamped_witness :
  decayedConfidence (Fin 0.8) (Fin 60) 30 <= decayedConfidence (Fin 0.8) (Fin 30) 30
  /\ decayedConfidence (Fin 0.8) (Fin 0) 30 = 0.8.
Proof.
  assert (Hc : 0 <= 0.8 <= 1) by lra.
  assert (Hd : 0 <= 30 <= 60) by lra.
  pose proof (decayedConfidence_monotone_clamped 0.8 30 60 30 Hc Hd)
    as (Hmono & _ & Hzero & _).
  split; [exact Hmono | exact Hzero].
Defined.

(** ** The usability gates *)

Lemma canApplyVendorMem_iff m now :
  canApplyVendorMem (Some m) now = true <->
  vm_status m = Active
  /\ (vm_rejectCount m < 2)%Z
  /\ 0.65 <= decayedConfidence30 (Fin (vm_confidence m))
               (daysSince (vm_lastUsedAt m) now).
Proof.
  unfold canApplyVendorMem. rewrite ts_coalesce_null_r.
  destruct (vm_status m); simpl;
    try (split; [discriminate | intros (H & _); discriminate]).
  destruct (2 <=? vm_rejectCount m)%Z eqn:Er.
  - apply Z.leb_le in Er. split; [discriminate | intros (_ & H & _); lia].
  - apply Z.leb_gt in Er. rewrite Rleb_true. intuition.
Qed.

Lemma decayed_below_floor conf age :
  conf < 0.65 -> decayedConfidence30 (Fin conf) age < 0.65.
Proof.
  intros Hc. unfold decayedConfidence30.
  eapply Rle_lt_trans; [apply decayedConfidence_le_base|].
  unfold clamp01. apply Rmax_lub_lt; [lra|].
  eapply Rle_lt_trans; [apply Rmin_r | assumption].
Qed.


(** What the correction-memory gate requires of an entry it trusts: no
    status other than active, fewer than two rejections of the entry and of
    its strategy, a stored confidence of at least 0.65, and a confidence
    decayed from [lastUsedAt] (from [createdAt] when never used) of at least
    0.65. *)
Lemma isSuspectCorrectionMemory_trusted cm res now :
  isSuspectCorrectionMemory (Some cm) res now = false ->
  (cm_status cm = None \/ cm_status cm = Some Active)
  /\ (cm_rejectCount cm < 2)%Z
  /\ (match res with Some r => rv_rejected (rm_value r) | None => 0 end < 2)%Z
  /\ 0.65 <= cm_confidence cm
  /\ 0.65 <= decayedConfidence30 (Fin (cm_confidence cm))
               (daysSince (ts_coalesce (cm_lastUsedAt cm) (cm_createdAt cm)) now).
Proof.
  unfold isSuspectCorrectionMemory. rewrite ts_coalesce_null_r.
  destruct (cm_status cm) as [[| |]|]; simpl; try discriminate.
  all: destruct (2 <=? cm_rejectCount cm)%Z eqn:Er; try discriminate;
       apply Z.leb_gt in Er.
  all: destruct (Rltb 0 (cm_confidence cm) && Rltb (cm_confidence cm) 0.65)
         eqn:Ec; try discriminate.
  all: destruct (2 <=? match res with
                       | Some r => rv_rejected (rm_value r) | None => 0%Z end)%Z
         eqn:Es; try discriminate; apply Z.leb_gt in Es.
  all: match goal with |- (if Rltb ?e _ then _ else _) = _ -> _ =>
         destruct (Rltb e 0.65) eqn:Ee; try discriminate;
         apply Rltb_false in Ee end.
  all: intros _; repeat split; auto; try lia.
  all: destruct (Rle_lt_dec 0.65 (cm_confidence cm)) as [Hge|Hlt]; [lra|];
       pose proof (decayed_below_floor _
                     (daysSince (ts_coalesce (cm_lastUsedAt cm) (cm_createdAt cm)) now)
                     Hlt).
  all: lra.
Qed.

(** *** The gate on the service-date scenario *)

Lemma decayFactor_three_half_lives : decayFactor 30 90 = / 8.
Proof.
  unfold decayFactor.
  rewrite Rmax_right by lra.
  replace (- (ln 2 / 30) * 90) with (- (ln 2 + ln 2 + ln 2)) by lra.
  rewrite exp_Ropp, !exp_plus, exp_ln by lra. f_equal. lra.
Qed.

(** Used on the day it was learned, the entry is trusted. *)
Example gate_accepts_fresh_entry :
  canApplyVendorMem (Some learnedEntry) 0 = true.
Proof.
  apply canApplyVendorMem_iff. split; [reflexivity|]. split; [reflexivity|].
  change (daysSince (vm_lastUsedAt learnedEntry) 0) with (Fin 0).
  unfold decayedConfidence30. rewrite decayedConfidence_fin.
  assert (Rleb 0 0 = true) as -> by (apply Rleb_true; lra).
  cbn [vm_confidence learnedEntry]. rewrite clamp01_id; lra.
Qed.

(** Ninety days later, three half-lives have taken 0.7 down to 0.0875. *)
Example gate_refuses_entry_after_90_days :
  decayedConfidence30 (Fin 0.7) (daysSince (TsAt 0) ninetyDays) = 0.7 / 8
  /\ canApplyVendorMem (Some learnedEntry) ninetyDays = false.
Proof.
  assert (Hdays : daysSince (TsAt 0) ninetyDays = Fin 90).
  { unfold daysSince, ninetyDays, msPerDay. cbn [Z.sub Z.leb].
    change (90 * 86400000 - 0 <=? 0)%Z with false. cbv iota.
    f_equal. change (90 * 86400000 - 0)%Z with 7776000000%Z. lra. }
  assert (Hdecay : decayedConfidence30 (Fin 0.7) (Fin 90) = 0.7 / 8).
  { unfold decayedConfidence30. rewrite decayedConfidence_fin.
    assert (Rleb 90 0 = false) as -> by (apply Rleb_false; lra).
    rewrite decayFactor_three_half_lives.
    rewrite (clamp01_id 0.7) by lra. rewrite clamp01_id by lra. lra. }
  split; [now rewrite Hdays|].
  apply not_true_is_false. intros H.
  apply canApplyVendorMem_iff in H as (_ & _ & H).
  change (vm_lastUsedAt learnedEntry) with (TsAt 0) in H.
  change (vm_confidence learnedEntry) with 0.7 in H.
  rewrite Hdays, Hdecay in H. lra.
Qed.

(** A disabled entry with two rejections is refused whatever its age. *)
Example gate_refuses_disabled_entry now :
  canApplyVendorMem (Some disabledEntry) now = false.
Proof. reflexivity. Qed.

(** ** Lists as tables *)

Lemma find_none_of {A} (p : A -> bool) l :
  (forall x, In x l -> p x = false) -> find p l = None.
Proof.
  induction l as [|a l IH]; intros H; [reflexivity|].
  simpl. rewrite (H a (or_introl eq_refl)). apply IH.
  intros x Hx; apply H; now right.
Qed.

Lemma filter_nil_of {A} (p : A -> bool) l :
  (forall x, In x l -> p x = false) -> filter p l = [].
Proof.
  induction l as [|a l IH]; intros H; [reflexivity|].
  simpl. rewrite (H a (or_introl eq_refl)). apply IH.
  intros x Hx; apply H; now right.
Qed.

Lemma find_ext_in {A} (p q : A -> bool) l :
  (forall x, In x l -> p x = q x) -> find p l = find q l.
Proof.
  induction l as [|a l IH]; intros H; [reflexivity|].
  simpl. rewrite (H a (or_introl eq_refl)).
  destruct (q a); [reflexivity|]. apply IH.
  intros x Hx; apply H; now right.
Qed.

Lemma find_map {A B} (p : B -> bool) (g : A -> B) l :
  find p (map g l) = option_map g (find (fun x => p (g x)) l).
Proof.
  induction l as [|a l IH]; [reflexivity|].
  simpl. destruct (p (g a)); [reflexivity | apply IH].
Qed.

Lemma find_app {A} (p : A -> bool) l1 l2 :
  find p (l1 ++ l2) =
  match find p l1 with Some x => Some x | None => find p l2 end.
Proof.
  induction l1 as [|a l1 IH]; [reflexivity|].
  simpl. destruct (p a); [reflexivity | apply IH].
Qed.

Lemma find_filter {A} (p q : A -> bool) l :
  (forall x, p x = true -> q x = true) ->
  find p (filter q l) = find p l.
Proof.
  intros H. induction l as [|a l IH]; [reflexivity|].
  simpl. destruct (q a) eqn:Eq; simpl.
  - destruct (p a); [reflexivity | apply IH].
  - destruct (p a) eqn:Ep; [|apply IH].
    apply H in Ep. congruence.
Qed.

Lemma find_In {A} (p : A -> bool) l x : find p l = Some x -> In x l /\ p x = true.
Proof. apply find_some. Qed.

Lemma find_exists {A} (p : A -> bool) l x :
  In x l -> p x = true -> exists y, find p l = Some y.
Proof.
  intros Hin Hp. destruct (find p l) eqn:E; [eauto|].
  pose proof (find_none _ _ E _ Hin). congruence.
Qed.

(** ** The duplicate guard *)

(** C10.  An invoice whose raw text carries a duplicate cue, but for which
    no run of another invoice has the same vendor and invoice number and no
    duplicate record of another invoice has the same vendor and
    fingerprint, is not a duplicate: the cue alone never marks it. *)
Theorem cue_alone_is_not_duplicate
    (ops : JsOps) (db : Db) (invoice : InvoiceExtracted)
    (Hcue : hasDuplicateCue ops invoice = true)
    (Hruns : forall r, In r (invoice_runs db) ->
               run_invoiceId r <> inv_invoiceId invoice ->
               run_vendor r = inv_vendor invoice ->
               run_invoiceNumber r <> Some (guardInvoiceNumber ops invoice))
    (Hrecs : forall d, In d (duplicate_records db) ->
               dr_invoiceId d <> inv_invoiceId invoice ->
               dr_vendor d = inv_vendor invoice ->
               dr_fingerprint d <> computeFingerprint ops invoice) :
  detectDuplicate ops db invoice = NotDuplicate
  /\ isDuplicate (detectDuplicate ops db invoice) = false.
Proof.
  assert (Hnone : forall p,
            find (fun r => sameVendorNumber (inv_vendor invoice)
                             (guardInvoiceNumber ops invoice)
                             (inv_invoiceId invoice) r && p r)
                 (invoice_runs db) = None).
  { intros p. apply find_none_of. intros r Hr.
    unfold sameVendorNumber, optStrEqb.
    destruct (String.eqb_spec (run_vendor r) (inv_vendor invoice)) as [Hv|];
      [|reflexivity].
    destruct (String.eqb_spec (run_invoiceId r) (inv_invoiceId invoice)) as [|Hi];
      [now rewrite andb_false_r|].
    specialize (Hruns r Hr Hi Hv).
    destruct (run_invoiceNumber r) as [n|]; [|reflexivity].
    destruct (String.eqb_spec n (guardInvoiceNumber ops invoice)) as [->|];
      [congruence | reflexivity]. }
  assert (Hany : find (sameVendorNumber (inv_vendor invoice)
                         (guardInvoiceNumber ops invoice)
                         (inv_invoiceId invoice))
                      (invoice_runs db) = None).
  { rewrite <- (Hnone (fun _ => true)). apply find_ext_in.
    intros; now rewrite andb_true_r. }
  assert (Hfp : filter (fun d => String.eqb (dr_vendor d) (inv_vendor invoice)
                          && String.eqb (dr_fingerprint d)
                               (computeFingerprint ops invoice)
                          && negb (String.eqb (dr_invoiceId d)
                                     (inv_invoiceId invoice)))
                  (duplicate_records db) = []).
  { apply filter_nil_of. intros d Hd.
    destruct (String.eqb_spec (dr_vendor d) (inv_vendor invoice)) as [Hv|];
      [|reflexivity].
    destruct (String.eqb_spec (dr_invoiceId d) (inv_invoiceId invoice)) as [|Hi];
      [now rewrite andb_false_r|].
    specialize (Hrecs d Hd Hi Hv).
    destruct (String.eqb_spec (dr_fingerprint d) (computeFingerprint ops invoice));
      [congruence | reflexivity]. }
  assert (H : detectDuplicate ops db invoice = NotDuplicate).
  { unfold detectDuplicate. cbv zeta.
    rewrite Hfp, Hany, Hnone. simpl.
    destruct (nonEmpty (inv_vendor invoice)
              && nonEmpty (guardInvoiceNumber ops invoice)); reflexivity. }
  rewrite H. split; reflexivity.
Qed.

Lemma cue_alone_is_not_duplicate_witness :
  hasDuplicateCue plainOps cueInvoice = true
  /\ detectDuplicate plainOps cueDb cueInvoice = NotDuplicate.
Proof.
  assert (Hcue : hasDuplicateCue plainOps cueInvoice = true) by reflexivity.
  split; [exact Hcue|].
  refine (proj1 (cue_alone_is_not_duplicate plainOps cueDb cueInvoice
                   Hcue _ _)).
  - intros r [<-|[<-|[]]] Hid Hv.
    + intros H; vm_compute in H; discriminate.
    + exfalso; apply Hid; reflexivity.
  - intros d [].
Defined.

(** The store a run leaves behind when the guard reports a duplicate. *)
Lemma runPipeline_duplicate ops db context now wall dupOf reason fp :
  detectDuplicate ops db (ctx_extracted context) = Duplicate dupOf reason fp ->
  runPipeline ops db context now wall =
  (logAuditEvent
     (markRunDuplicate
        (recordDuplicate db (inv_invoiceId (ctx_extracted context))
           (inv_vendor (ctx_extracted context)) fp dupOf reason now)
        (inv_invoiceId (ctx_extracted context)) dupOf)
     now DUPLICATE_DETECTED (Some (inv_vendor (ctx_extracted context)))
     (Some (inv_invoiceId (ctx_extracted context))) None None
     (MetaDuplicate dupOf reason),
   Some
     (mkOutput (inv_fields (ctx_extracted context)) [] true
        ("Duplicate detected: " ++ reason ++ " (duplicate of " ++ dupOf ++ ").")%string
        0.2 []
        [mkTrail step_duplicateGuard now
           ("Duplicate of " ++ dupOf ++ ": " ++ reason)%string])).
Proof. intros H. unfold runPipeline. now rewrite H. Qed.



Lemma find_filter_none {A} (p q : A -> bool) l :
  (forall x, p x = true -> q x = false) -> find p (filter q l) = None.
Proof.
  intros H. apply find_none_of. intros x Hx.
  apply filter_In in Hx as [_ Hq].
  destruct (p x) eqn:Ep; [|reflexivity].
  apply H in Ep. congruence.
Qed.

(** The first row satisfying [p] is the first satisfying a weaker-or-equal
    [q] that it satisfies. *)
Lemma find_first_stronger {A} (p q : A -> bool) l x :
  find p l = Some x -> q x = true -> (forall y, q y = true -> p y = true) ->
  find q l = Some x.
Proof.
  intros Hf Hq Hqp. induction l as [|a l IH]; [discriminate|].
  simpl in *. destruct (p a) eqn:Ep.
  - injection Hf as ->. now rewrite Hq.
  - destruct (q a) eqn:Eq; [|now apply IH].
    apply Hqp in Eq. congruence.
Qed.

Lemma truthyStr_nonEmpty s : nonEmpty s = true -> truthyStr (Some s) = Some s.
Proof. intros H. unfold truthyStr. now rewrite H. Qed.

Section ChainCollapse.

Variable ops : JsOps.
Variable db : Db.
Variables ctxB : Context.
Variable invC : InvoiceExtracted.
Variables now wall : Z.

Let invB := ctx_extracted ctxB.
Let v := inv_vendor invB.
Let n := guardInvoiceNumber ops invB.
Let idB := inv_invoiceId invB.
Let idC := inv_invoiceId invC.

Hypothesis Hvendor : inv_vendor invC = v.
Hypothesis Hnumber : guardInvoiceNumber ops invC = n.
Hypothesis Hv : nonEmpty v = true.
Hypothesis Hn : nonEmpty n = true.
Hypothesis Hids : forall r, In r (invoice_runs db) -> nonEmpty (run_invoiceId r) = true.
Hypothesis HrowB : exists r, In r (invoice_runs db)
                             /\ run_invoiceId r = idB
                             /\ run_vendor r = v
                             /\ run_invoiceNumber r = Some n.
Hypothesis HnewC : forall r, In r (invoice_runs db) -> run_invoiceId r <> idC.

Let flag (A : string) (r : InvoiceRun) : InvoiceRun :=
  if String.eqb (run_invoiceId r) idB
  then mkRun (run_invoiceId r) (run_vendor r) (run_dataset r) (run_createdAt r)
         (run_invoiceNumber r) (run_fingerprint r) 1%Z (Some A)
  else r.

Let vn (r : InvoiceRun) : bool :=
  String.eqb (run_vendor r) v && optStrEqb (run_invoiceNumber r) n.

Lemma flag_other A r : run_invoiceId r <> idB -> flag A r = r.
Proof.
  intros H. unfold flag.
  destruct (String.eqb_spec (run_invoiceId r) idB); [contradiction|reflexivity].
Qed.

Lemma flag_id A r : run_invoiceId (flag A r) = run_invoiceId r.
Proof. unfold flag. now destruct (String.eqb (run_invoiceId r) idB). Qed.

Lemma sameVendorNumber_C_flag A r :
  In r (invoice_runs db) ->
  sameVendorNumber v n idC (flag A r) = vn r.
Proof.
  intros Hr. unfold sameVendorNumber, vn, flag.
  assert (negb (String.eqb (run_invoiceId r) idC) = true) as Hneq.
  { destruct (String.eqb_spec (run_invoiceId r) idC) as [e|]; [|reflexivity].
    now apply HnewC in e. }
  destruct (String.eqb (run_invoiceId r) idB); cbn [run_vendor run_invoiceNumber run_invoiceId];
    rewrite Hneq; now rewrite andb_true_r.
Qed.

Lemma step1_C_flag A r :
  In r (invoice_runs db) ->
  sameVendorNumber v n idC (flag A r) && (run_isDuplicate (flag A r) =? 0)%Z
  = sameVendorNumber v n idB r && (run_isDuplicate r =? 0)%Z.
Proof.
  intros Hr. rewrite sameVendorNumber_C_flag by assumption.
  unfold sameVendorNumber, vn, flag.
  destruct (String.eqb (run_invoiceId r) idB); cbn [run_isDuplicate negb].
  - now rewrite !andb_false_r.
  - now rewrite andb_true_r.
Qed.

Lemma sameVendorNumber_B_vn r :
  sameVendorNumber v n idB r = vn r && negb (String.eqb (run_invoiceId r) idB).
Proof. reflexivity. Qed.

(** The root a run of [aid] points to, as step 2 of the guard computes it. *)
Let rootOf (recs : list DuplicateRecord) (aid : string) : string :=
  match find (fun d => String.eqb (dr_invoiceId d) aid) recs with
  | Some d => match dr_duplicateOfInvoiceId d with Some o => o | None => aid end
  | None => aid
  end.

Lemma chain_collapse_core A reason fp :
  detectDuplicate ops db invB = Duplicate A reason fp ->
  let db' :=
    logAuditEvent
      (markRunDuplicate (recordDuplicate db idB v fp A reason now) idB A)
      now DUPLICATE_DETECTED (Some v) (Some idB) None None
      (MetaDuplicate A reason) in
  exists reason' fp', detectDuplicate ops db' invC = Duplicate A reason' fp'.
Proof.
  intros HB db'.
  assert (Hruns' : invoice_runs db' = map (flag A) (invoice_runs db)) by reflexivity.
  assert (Hrecs' : duplicate_records db'
                   = filter (fun d => negb (String.eqb (dr_invoiceId d) idB))
                       (duplicate_records db)
                     ++ [mkDuplicateRecord idB v fp (Some A) reason now])
    by reflexivity.
  unfold detectDuplicate in HB |- *. cbv zeta in HB |- *.
  fold invB in HB. fold v n idB in HB. fold idC.
  rewrite Hvendor, Hnumber, Hruns', Hrecs'.
  rewrite Hv, Hn in HB |- *. cbn [andb] in HB |- *.
  rewrite !find_map.
  rewrite (find_ext_in _ (fun r => sameVendorNumber v n idB r
                                   && (run_isDuplicate r =? 0)%Z))
    by (intros; now apply step1_C_flag).
  destruct (find (fun r => sameVendorNumber v n idB r
                           && (run_isDuplicate r =? 0)%Z) (invoice_runs db))
    as [X|] eqn:E1.
  - (* the canonical original answers both *)
    apply find_In in E1 as [HX HpX].
    assert (HidX : run_invoiceId X <> idB).
    { rewrite sameVendorNumber_B_vn in HpX.
      apply andb_prop in HpX as [HpX _]. apply andb_prop in HpX as [_ HpX].
      destruct (String.eqb_spec (run_invoiceId X) idB); [discriminate|assumption]. }
    cbn [option_map] in HB |- *.
    rewrite (flag_other A X HidX).
    rewrite (truthyStr_nonEmpty _ (Hids X HX)) in HB |- *.
    injection HB as <- _ _. eauto.
  - cbn [option_map truthyStr] in HB |- *.
    rewrite (find_ext_in _ vn) by (intros; now apply sameVendorNumber_C_flag).
    destruct HrowB as (rB & HrB & HrBid & HrBv & HrBn).
    assert (Hvn : vn rB = true).
    { unfold vn, optStrEqb. rewrite HrBv, HrBn. now rewrite !String.eqb_refl. }
    destruct (find_exists vn _ rB HrB Hvn) as [r0 E0].
    rewrite E0. cbn [option_map].
    pose proof (find_In _ _ _ E0) as [Hr0 Hvn0].
    rewrite flag_id, (truthyStr_nonEmpty _ (Hids r0 Hr0)).
    rewrite find_app.
    destruct (String.eqb_spec (run_invoiceId r0) idB) as [e|ne].
    + (* the first run under the number is a run of B: its record says A *)
      rewrite find_filter_none.
      2:{ intros d Hd. apply String.eqb_eq in Hd. rewrite Hd, e.
          now rewrite String.eqb_refl. }
      cbn [find dr_invoiceId]. rewrite e, String.eqb_refl.
      cbn [dr_duplicateOfInvoiceId]. eauto.
    + (* it is a run of another invoice, the one B itself was resolved by *)
      assert (EB : find (sameVendorNumber v n idB) (invoice_runs db) = Some r0).
      { apply (find_first_stronger vn); [assumption| |].
        - rewrite sameVendorNumber_B_vn, Hvn0.
          destruct (String.eqb_spec (run_invoiceId r0) idB);
            [contradiction|reflexivity].
        - intros y Hy. rewrite sameVendorNumber_B_vn in Hy.
          now apply andb_prop in Hy as [Hy _]. }
      rewrite EB in HB. cbn [option_map] in HB.
      rewrite (truthyStr_nonEmpty _ (Hids r0 Hr0)) in HB.
      rewrite find_filter.
      2:{ intros d Hd. apply String.eqb_eq in Hd. rewrite Hd.
          destruct (String.eqb_spec (run_invoiceId r0) idB);
            [contradiction|reflexivity]. }
      injection HB as HA _ _.
      destruct (find (fun d => String.eqb (dr_invoiceId d) (run_invoiceId r0))
                  (duplicate_records db)) as [d|] eqn:Ed.
      * rewrite <- HA. eauto.
      * cbn [find dr_invoiceId].
        destruct (String.eqb_spec idB (run_invoiceId r0)) as [e'|_];
          [symmetry in e'; contradiction|].
        rewrite <- HA. eauto.
Qed.

End ChainCollapse.

(** Rows of the invoice's own id, such as the run row inserted for the
    submission being checked, are invisible to the guard. *)
Lemma detectDuplicate_ignores_own_runs ops db invoice rows :
  (forall r, In r rows -> run_invoiceId r = inv_invoiceId invoice) ->
  detectDuplicate ops (set_invoice_runs db (invoice_runs db ++ rows)) invoice
  = detectDuplicate ops db invoice.
Proof.
  intros Hown.
  assert (Hskip : forall q,
            find (fun r => sameVendorNumber (inv_vendor invoice)
                             (guardInvoiceNumber ops invoice)
                             (inv_invoiceId invoice) r && q r) rows = None).
  { intros q. apply find_none_of. intros r Hr.
    unfold sameVendorNumber. rewrite (Hown r Hr), String.eqb_refl.
    now rewrite andb_false_r. }
  unfold detectDuplicate. cbv zeta. cbn [invoice_runs set_invoice_runs duplicate_records].
  rewrite !find_app, Hskip.
  assert (find (sameVendorNumber (inv_vendor invoice)
                  (guardInvoiceNumber ops invoice) (inv_invoiceId invoice)) rows
          = None) as ->.
  { rewrite <- (Hskip (fun _ => true)). apply find_ext_in.
    intros; now rewrite andb_true_r. }
  destruct (find (fun r => _ && (run_isDuplicate r =? 0)%Z) (invoice_runs db));
    destruct (find (sameVendorNumber _ _ _) (invoice_runs db)); reflexivity.
Qed.

(** C7.  Duplicate chains collapse to the original.  Invoice B, whose run is
    on record, is found by the pipeline to be a duplicate of A; when a new
    invoice C of the same vendor then arrives under B's invoice number, the
    guard resolves C to A as well, whether it meets A's own run first or
    meets B's run and follows B's duplicate-of pointer.  The run rows
    inserted for C itself make no difference. *)
Theorem duplicate_chain_collapses
    (ops : JsOps) (db : Db) (ctxB : Context) (invC : InvoiceExtracted)
    (now wall : Z) (A reason fp : string)
    (Hvendor : inv_vendor invC = inv_vendor (ctx_extracted ctxB))
    (Hnumber : guardInvoiceNumber ops invC
               = guardInvoiceNumber ops (ctx_extracted ctxB))
    (Hv : nonEmpty (inv_vendor (ctx_extracted ctxB)) = true)
    (Hn : nonEmpty (guardInvoiceNumber ops (ctx_extracted ctxB)) = true)
    (Hids : forall r, In r (invoice_runs db) -> nonEmpty (run_invoiceId r) = true)
    (HrowB : exists r, In r (invoice_runs db)
               /\ run_invoiceId r = inv_invoiceId (ctx_extracted ctxB)
               /\ run_vendor r = inv_vendor (ctx_extracted ctxB)
               /\ run_invoiceNumber r
                  = Some (guardInvoiceNumber ops (ctx_extracted ctxB)))
    (HnewC : forall r, In r (invoice_runs db) ->
               run_invoiceId r <> inv_invoiceId invC)
    (HB : detectDuplicate ops db (ctx_extracted ctxB) = Duplicate A reason fp) :
  let db' := fst (runPipeline ops db ctxB now wall) in
  forall rowsC,
    (forall r, In r rowsC -> run_invoiceId r = inv_invoiceId invC) ->
    exists reason' fp',
      detectDuplicate ops (set_invoice_runs db' (invoice_runs db' ++ rowsC)) invC
      = Duplicate A reason' fp'.
Proof.
  intros db' rowsC HrowsC.
  rewrite (detectDuplicate_ignores_own_runs ops db' invC rowsC HrowsC).
  unfold db'. rewrite (runPipeline_duplicate _ _ _ now wall _ _ _ HB). cbn [fst].
  exact (chain_collapse_core ops db ctxB invC now Hvendor Hnumber Hv Hn Hids
           HrowB HnewC A reason fp HB).
Qed.

Lemma duplicate_chain_collapses_witness :
  let db' := fst (runPipeline plainOps chainDb
                    (contextOf (invoiceNumbered "INV-B")) 10 11) in
  exists reason fp,
    detectDuplicate plainOps
      (set_invoice_runs db'
         (invoice_runs db'
          ++ [mkRun "INV-C" "Parts AG" "full" 20 (Some "N-7") None 0 None]))
      (invoiceNumbered "INV-C")
    = Duplicate "INV-A" reason fp.
Proof.
  refine (duplicate_chain_collapses plainOps chainDb
            (contextOf (invoiceNumbered "INV-B")) (invoiceNumbered "INV-C")
            10 11 "INV-A" _ _ eq_refl eq_refl eq_refl eq_refl _ _ _ eq_refl
            [mkRun "INV-C" "Parts AG" "full" 20 (Some "N-7") None 0 None] _).
  - intros r [<-|[<-|[]]]; reflexivity.
  - eexists; split; [right; left; reflexivity|]. repeat split.
  - intros r [<-|[<-|[]]]; discriminate.
  - intros r [<-|[]]; reflexivity.
Defined.

(** ** Rejections of a correction-memory entry *)

Lemma find_updateWhere {A} (p : A -> bool) (f : A -> A) l :
  (forall x, p (f x) = p x) ->
  find p (updateWhere p f l) = option_map f (find p l).
Proof.
  intros Hpf. unfold updateWhere.
  induction l as [|a l IH]; [reflexivity|].
  simpl. destruct (p a) eqn:E.
  - now rewrite Hpf, E.
  - rewrite E. apply IH.
Qed.

(** C8, as the store implements it.  Recording a rejection against a
    correction-memory entry leaves its confidence as stored, increments its
    [rejectCount] by one and stamps [lastUsedAt]; when the schema has a
    status column and the resulting count reaches 2 the entry becomes
    disabled, and otherwise its status stays as it was.  No other table
    changes. *)
Theorem markRejected_counts_and_disables
    (db : Db) (id : string) (wall : Z) (m : CorrectionMemoryRow)
    (Hm : getCorrectionMemoryById db id = Some m) :
  let db' := markRejected db id wall in
  (exists m',
     getCorrectionMemoryById db' id = Some m'
     /\ cm_confidence m' = cm_confidence m
     /\ cm_rejectCount m' = (cm_rejectCount m + 1)%Z
     /\ cm_lastUsedAt m' = TsAt wall
     /\ (correction_hasStatus db = true -> (2 <= cm_rejectCount m + 1)%Z ->
         cm_status m' = Some Disabled)
     /\ (correction_hasStatus db = false \/ (cm_rejectCount m + 1 < 2)%Z ->
         cm_status m' = cm_status m))
  /\ vendor_memory db' = vendor_memory db
  /\ resolution_memory db' = resolution_memory db
  /\ learning_events db' = learning_events db
  /\ audit_events db' = audit_events db.
Proof.
  intros db'. split; [|repeat split].
  exists (rejectedRow (correction_hasStatus db) wall m).
  split.
  - unfold db', markRejected, getCorrectionMemoryById in *.
    cbn [correction_memory set_correction_memory].
    rewrite find_updateWhere by reflexivity. now rewrite Hm.
  - unfold rejectedRow; cbn.
    repeat split.
    + intros -> Hge. apply Z.leb_le in Hge. now rewrite Hge.
    + intros [-> | Hlt]; [reflexivity|].
      apply Z.leb_gt in Hlt. rewrite Hlt.
      now destruct (correction_hasStatus db).
Qed.

Lemma markRejected_counts_and_disables_witness :
  exists m',
    getCorrectionMemoryById (markRejected rejectDb "cm-1" 5) "cm-1" = Some m'
    /\ cm_confidence m' = cm_confidence currencyEntry
    /\ cm_rejectCount m' = 1%Z.
Proof.
  destruct (markRejected_counts_and_disables rejectDb "cm-1" 5 currencyEntry
              eq_refl) as [(m' & H1 & H2 & H3 & _) _].
  exists m'. repeat split; assumption.
Defined.

(** Counterexample to C8 as stated: after a rejection the entry holds the
    confidence it had; nothing is subtracted. *)
Lemma markRejected_keeps_confidence :
  cm_confidence currencyEntry = 0.7
  /\ exists m',
       getCorrectionMemoryById (markRejected rejectDb "cm-1" 5) "cm-1" = Some m'
       /\ cm_rejectCount m' = 1%Z
       /\ cm_confidence m' = 0.7
       /\ ~ cm_confidence m' < cm_confidence currencyEntry.
Proof.
  split; [reflexivity|].
  eexists. split; [reflexivity|]. cbn. repeat split. lra.
Qed.

(** ** The Apply phase *)

Ltac break_match :=
  match goal with
  | |- context [match ?x with _ => _ end] => destruct x eqn:?
  end.

Lemma sameMemory_refl db : sameMemory db db.
Proof. repeat split. Qed.

Lemma sameMemory_trans db1 db2 db3 :
  sameMemory db1 db2 -> sameMemory db2 db3 -> sameMemory db1 db3.
Proof.
  unfold sameMemory. intros H1 H2.
  decompose [and] H1; decompose [and] H2; repeat split; congruence.
Qed.

Lemma sameMemory_markUsed db id wall : sameMemory db (markUsed db id wall).
Proof.
  repeat split. cbn. unfold updateWhere. rewrite map_map.
  apply map_ext. intros m. now destruct (String.eqb (cm_id m) id).
Qed.

Lemma applyFrame_refl st : applyFrame st st.
Proof.
  split; [apply sameMemory_refl|]. split; [reflexivity|].
  exists []. split; [now rewrite app_nil_r | reflexivity].
Qed.

Lemma applyFrame_trans st1 st2 st3 :
  applyFrame st1 st2 -> applyFrame st2 st3 -> applyFrame st1 st3.
Proof.
  intros (Hm1 & Hu1 & cs1 & Hp1 & Hs1) (Hm2 & Hu2 & cs2 & Hp2 & Hs2).
  split; [eapply sameMemory_trans; eassumption|].
  split; [congruence|].
  exists (cs1 ++ cs2). split.
  - rewrite Hp2, Hp1. now rewrite app_assoc.
  - intros H. apply app_eq_nil in H as [-> ->].
    rewrite Hs2, Hs1; reflexivity.
Qed.

(** A heuristic that proposes nothing and touches neither store nor score. *)
Ltac frame_idle :=
  split; [first [apply sameMemory_refl | apply sameMemory_markUsed]|];
  split; [reflexivity|];
  exists []; split; [now rewrite app_nil_r | reflexivity].

(** A heuristic that appends one proposal. *)
Ltac frame_push :=
  split; [first [apply sameMemory_refl | apply sameMemory_markUsed]|];
  split; [reflexivity|];
  eexists [_]; split; [reflexivity | discriminate].

Ltac frame_step := cbn; first [frame_idle | frame_push].

Section ApplyFrames.

Variable ops : JsOps.
Variable context : Context.
Variables now wall : Z.
Variable vendorMemsAll : list VendorMemory.

Lemma applyServiceDate_frame st :
  applyFrame st (applyServiceDate ops context now vendorMemsAll st).
Proof. unfold applyServiceDate. repeat break_match; frame_step. Qed.

Lemma applyServiceDate_db st :
  st_db (applyServiceDate ops context now vendorMemsAll st) = st_db st.
Proof. unfold applyServiceDate. repeat break_match; reflexivity. Qed.

Lemma applyPoInference_frame st :
  applyFrame st (applyPoInference ops context now vendorMemsAll st).
Proof. unfold applyPoInference. repeat break_match; frame_step. Qed.

Lemma applyPoInference_db st :
  st_db (applyPoInference ops context now vendorMemsAll st) = st_db st.
Proof. unfold applyPoInference. repeat break_match; reflexivity. Qed.

Lemma applyQtyItem_frame st li :
  applyFrame st (applyQtyItem ops context now wall st li).
Proof. unfold applyQtyItem. repeat break_match; frame_step. Qed.

Lemma applyQuantities_frame st :
  applyFrame st (applyQuantities ops context now wall st).
Proof.
  unfold applyQuantities.
  generalize (lineItemsOf (ctx_extracted context)) as items.
  intros items; revert st.
  induction items as [|li items IH]; intros st; [apply applyFrame_refl|].
  simpl. eapply applyFrame_trans; [apply applyQtyItem_frame | apply IH].
Qed.

Lemma applyCurrency_frame st :
  applyFrame st (applyCurrency ops context now wall vendorMemsAll st).
Proof. unfold applyCurrency. repeat break_match; frame_step. Qed.

Lemma applySkonto_frame st :
  applyFrame st (applySkonto ops context now wall vendorMemsAll st).
Proof. unfold applySkonto. repeat break_match; frame_step. Qed.

Lemma applyFreightSku_frame st :
  applyFrame st (applyFreightSku ops context now wall vendorMemsAll st).
Proof. unfold applyFreightSku. repeat break_match; frame_step. Qed.

Lemma applyFreightVendor_frame st :
  applyFrame st (applyFreightVendor ops context now wall vendorMemsAll st).
Proof.
  unfold applyFreightVendor.
  destruct (isFreightVendor ops (ctx_vendor context)); [|apply applyFrame_refl].
  eapply applyFrame_trans; [apply applySkonto_frame | apply applyFreightSku_frame].
Qed.

End ApplyFrames.

Section PhaseLemmas.

Variable ops : JsOps.
Variable context : Context.
Variables now wall : Z.
Variable vendorMemsAll : list VendorMemory.

(** The VAT check proposes corrections or, when the totals verify, raises
    the running score to at most 0.85 without proposing anything. *)
Lemma applyVatTotals_frame st :
  let st' := applyVatTotals ops context now vendorMemsAll st in
  st_db st' = st_db st
  /\ st_updates st' = st_updates st
  /\ exists cs,
       st_proposed st' = st_proposed st ++ cs
       /\ (cs = [] ->
           st_score st'
           = match vatCheckConfidence ops context now vendorMemsAll (st_db st) with
             | Some a => Rmax (st_score st) (Rmin 0.85 a)
             | None => st_score st
             end).
Proof.
  unfold applyVatTotals, vatCheckConfidence. cbv zeta.
  destruct (isVatInclusiveText ops _);
    [|cbn; repeat split; exists []; split; [now rewrite app_nil_r | reflexivity]].
  destruct (toNum ops (f_netTotal _)) as [net| | |];
    try (cbn; repeat split; exists []; split;
         [now rewrite app_nil_r | reflexivity]).
  destruct (toNum ops (coalesce _ _)) as [rate| | |];
    try (cbn; repeat split; exists []; split;
         [now rewrite app_nil_r | reflexivity]).
  destruct (toNum ops (f_grossTotal _)) as [gross| | |];
    try (cbn; repeat split; exists []; split;
         [now rewrite app_nil_r | reflexivity]).
  destruct (toNum ops (f_taxTotal _)) as [tax| | |];
    try (cbn; repeat split; exists []; split;
         [now rewrite app_nil_r | reflexivity]).
  destruct (Rltb 0.01 (Rabs (gross - _))) eqn:Eg;
    destruct (Rltb 0.01 (Rabs (tax - _))) eqn:Et; cbn.
  - repeat split. eexists [_; _]. split; [now rewrite <- app_assoc | discriminate].
  - repeat split. eexists [_]. split; [reflexivity | discriminate].
  - repeat split. eexists [_]. split; [reflexivity | discriminate].
  - repeat split. exists []. split; [now rewrite app_nil_r | reflexivity].
Qed.

Lemma applyPhase_frame st :
  let st' := applyPhase ops context now wall vendorMemsAll st in
  sameMemory (st_db st) (st_db st')
  /\ st_updates st' = st_updates st
  /\ exists cs,
       st_proposed st' = st_proposed st ++ cs
       /\ (cs = [] ->
           st_score st'
           = match vatCheckConfidence ops context now vendorMemsAll (st_db st) with
             | Some a => Rmax (st_score st) (Rmin 0.85 a)
             | None => st_score st
             end).
Proof.
  unfold applyPhase. cbv zeta.
  set (s1 := applyServiceDate ops context now vendorMemsAll st).
  set (s2 := applyPoInference ops context now vendorMemsAll s1).
  set (s3 := applyVatTotals ops context now vendorMemsAll s2).
  set (s4 := applyQuantities ops context now wall s3).
  set (s5 := applyCurrency ops context now wall vendorMemsAll s4).
  set (s6 := applyFreightVendor ops context now wall vendorMemsAll s5).
  cbn [pushTrail st_db st_updates st_proposed st_score].
  pose proof (applyServiceDate_frame ops context now vendorMemsAll st) as F1.
  pose proof (applyPoInference_frame ops context now vendorMemsAll s1) as F2.
  pose proof (applyVatTotals_frame s2) as (D3 & U3 & cs3 & P3 & S3).
  fold s3 in D3, U3, P3, S3.
  assert (D2 : st_db s2 = st_db st).
  { unfold s2, s1. now rewrite applyPoInference_db, applyServiceDate_db. }
  pose proof (applyFrame_trans _ _ _ F1 F2) as (_ & U12 & cs12 & P12 & S12).
  fold s1 s2 in U12, P12, S12.
  pose proof (applyFrame_trans _ _ _
                (applyQuantities_frame ops context now wall s3)
                (applyFrame_trans _ _ _
                   (applyCurrency_frame ops context now wall vendorMemsAll s4)
                   (applyFreightVendor_frame ops context now wall vendorMemsAll s5)))
    as (M6 & U6 & cs6 & P6 & S6).
  fold s4 s5 s6 in M6, U6, P6, S6.
  split; [|split].
  - rewrite <- D2, <- D3. exact M6.
  - congruence.
  - exists (cs12 ++ cs3 ++ cs6). split.
    + rewrite P6, P3, P12. now rewrite !app_assoc.
    + intros H. apply app_eq_nil in H as [-> H].
      apply app_eq_nil in H as [-> ->].
      rewrite S6, S3, D2, S12; reflexivity.
Qed.

Lemma decidePhase_spec st :
  let r := decidePhase ops context now st in
  fst r = anyLowConfidence (st_proposed st)
          || hasCriticalMissingFields ops (inv_fields (ctx_extracted context))
               (st_proposed st)
  /\ st_db (snd r) = st_db st
  /\ st_updates (snd r) = st_updates st
  /\ st_proposed (snd r) = st_proposed st
  /\ st_resKeys (snd r) = st_resKeys st
  /\ st_corrIds (snd r) = st_corrIds st
  /\ st_score (snd r)
     = match map c_confidence (st_proposed st) with
       | [] => st_score st
       | c :: cs => round2 (minOf c cs)
       end.
Proof.
  unfold decidePhase. cbv zeta. cbn [fst snd].
  destruct (map c_confidence (st_proposed st)); repeat split.
Qed.

End PhaseLemmas.

(** ** The Learn phase *)

Lemma fold_left_invariant {A B} (f : A -> B -> A) (P : A -> Prop) :
  (forall a b, P a -> P (f a b)) ->
  forall l a, P a -> P (fold_left f l a).
Proof.
  intros Hf l. induction l as [|b l IH]; intros a Ha; [exact Ha|].
  simpl. apply IH, Hf, Ha.
Qed.

Lemma fold_left_related {A B} (f : A -> B -> A) (R : A -> A -> Prop) :
  (forall a, R a a) -> (forall a b c, R a b -> R b c -> R a c) ->
  (forall a b, R a (f a b)) ->
  forall l a, R a (fold_left f l a).
Proof.
  intros Hrefl Htrans Hf l. induction l as [|b l IH]; intros a; [apply Hrefl|].
  simpl. eapply Htrans; [apply Hf | apply IH].
Qed.

Lemma recordResolutionDecision_vendor db vendor key dec id wall :
  vendor_memory (fst (recordResolutionDecision db vendor key dec id wall))
  = vendor_memory db.
Proof.
  unfold recordResolutionDecision, upsertResolution. cbv zeta.
  destruct (resolution_hasRejectCount db); reflexivity.
Qed.

Lemma recordResolutionDecision_learning db vendor key dec id wall :
  learning_events (fst (recordResolutionDecision db vendor key dec id wall))
  = learning_events db.
Proof.
  unfold recordResolutionDecision, upsertResolution. cbv zeta.
  destruct (resolution_hasRejectCount db); reflexivity.
Qed.

Lemma upsertCorrectionMemory_vendor db row :
  vendor_memory (fst (upsertCorrectionMemory db row)) = vendor_memory db.
Proof. unfold upsertCorrectionMemory. now break_match. Qed.

Lemma upsertCorrectionMemory_learning db row :
  learning_events (fst (upsertCorrectionMemory db row)) = learning_events db.
Proof. unfold upsertCorrectionMemory. now break_match. Qed.

Lemma upsertVendorMemory_learning db mem :
  learning_events (upsertVendorMemory db mem) = learning_events db.
Proof. unfold upsertVendorMemory. now break_match. Qed.

Lemma markLearned_vendor db id wall :
  vendor_memory (markLearned db id wall) = vendor_memory db.
Proof. unfold markLearned. now break_match. Qed.

Lemma markLearned_hasLearned db id wall :
  hasLearned (markLearned db id wall) id = true.
Proof.
  unfold markLearned. destruct (hasLearned db id) eqn:E; [exact E|].
  unfold hasLearned. cbn. rewrite existsb_app. cbn.
  now rewrite String.eqb_refl, orb_true_r.
Qed.

(** *** Upserts of vendor memory *)

Lemma upsertVendorMemory_others db mem m :
  In m (vendor_memory db) -> vm_id m <> vm_id mem ->
  In m (vendor_memory (upsertVendorMemory db mem)).
Proof.
  intros Hin Hid. unfold upsertVendorMemory. cbv zeta.
  destruct (existsb _ _); cbn.
  - unfold updateWhere. apply in_map_iff. exists m. split; [|assumption].
    destruct (String.eqb_spec (vm_id m) (vm_id mem)); [contradiction|reflexivity].
  - apply in_or_app. now left.
Qed.

Lemma upsertVendorMemory_row db mem :
  exists m', In m' (vendor_memory (upsertVendorMemory db mem))
             /\ vm_id m' = vm_id mem /\ vm_status m' = vm_status mem.
Proof.
  unfold upsertVendorMemory. cbv zeta.
  destruct (existsb _ _) eqn:E; cbn.
  - apply existsb_exists in E as (old & Hold & Hid).
    eexists. split.
    + unfold updateWhere. apply in_map_iff. exists old. split; [|exact Hold].
      rewrite Hid. reflexivity.
    + split; reflexivity.
  - eexists. split; [apply in_or_app; right; left; reflexivity|].
    split; reflexivity.
Qed.

Section LearnLemmas.

Variable ops : JsOps.
Variable context : Context.
Variables now wall : Z.
Variable vendorMemsAll : list VendorMemory.

Let invoiceId := inv_invoiceId (ctx_extracted context).

Lemma learnKeeps_refl st : learnKeeps st st.
Proof. split; reflexivity. Qed.

Lemma learnKeeps_trans a b c : learnKeeps a b -> learnKeeps b c -> learnKeeps a c.
Proof. intros [] []; split; congruence. Qed.

Lemma vendorIdle_refl st : vendorIdle st st.
Proof. split; reflexivity. Qed.

Lemma vendorIdle_trans a b c : vendorIdle a b -> vendorIdle b c -> vendorIdle a c.
Proof. intros [] []; split; congruence. Qed.

Lemma learnResolution_keeps dec st key :
  learnKeeps st (learnResolution ops context now wall dec invoiceId st key).
Proof.
  unfold learnResolution.
  destruct (recordResolutionDecision _ _ _ _ _ _) as [db [value c]].
  split; reflexivity.
Qed.

Lemma learnResolution_idle dec st key :
  vendorIdle st (learnResolution ops context now wall dec invoiceId st key).
Proof.
  unfold learnResolution.
  pose proof (recordResolutionDecision_vendor (st_db st) (ctx_vendor context)
                key dec invoiceId wall) as H.
  destruct (recordResolutionDecision _ _ _ _ _ _) as [db [value c]].
  split; [exact H | reflexivity].
Qed.

Lemma learnResolution_learning dec st key :
  learning_events (st_db (learnResolution ops context now wall dec invoiceId st key))
  = learning_events (st_db st).
Proof.
  unfold learnResolution.
  pose proof (recordResolutionDecision_learning (st_db st) (ctx_vendor context)
                key dec invoiceId wall) as H.
  destruct (recordResolutionDecision _ _ _ _ _ _) as [db [value c]].
  exact H.
Qed.

Lemma learnVendorMemory_keeps kind pattern note st :
  learnKeeps st (learnVendorMemory context now vendorMemsAll kind pattern note st).
Proof. split; reflexivity. Qed.

Lemma learnQtyFix_keeps st fx :
  learnKeeps st (learnQtyFix ops context now st fx).
Proof. unfold learnQtyFix. break_match; split; reflexivity. Qed.

Lemma learnApproved_keeps corrections st :
  learnKeeps st (learnApproved ops context now vendorMemsAll corrections st).
Proof.
  unfold learnApproved. cbv zeta.
  repeat match goal with
         | |- learnKeeps _ (if ?c then _ else _) => destruct c
         | |- learnKeeps ?a (learnVendorMemory _ _ _ _ _ _ ?b) =>
             apply (learnKeeps_trans a b);
             [|apply learnVendorMemory_keeps]
         | |- learnKeeps ?a (fold_left _ _ ?b) =>
             apply (learnKeeps_trans a b);
             [|apply (fold_left_related _ learnKeeps learnKeeps_refl
                        learnKeeps_trans (learnQtyFix_keeps))]
         end; apply learnKeeps_refl.
Qed.

(** How the Learn phase ends.  An invoice already learned, or without a
    verdict, only adds an entry to the trail.  A rejected verdict on a run
    that used correction memory throws, leaving the store as the first
    [markRejected] wrote it.  Any other verdict is learned: the approved
    corrections, then the resolution keys, then the learning event and the
    audit event. *)
Lemma learnPhase_cases st :
  (hasLearned (st_db st) invoiceId = true
   /\ exists msg, learnPhase ops context now wall vendorMemsAll st
                  = LearnDone (pushTrail st step_learn now msg))
  \/ (hasLearned (st_db st) invoiceId = false
      /\ verdictOf context = None
      /\ exists msg, learnPhase ops context now wall vendorMemsAll st
                     = LearnDone (pushTrail st step_learn now msg))
  \/ (hasLearned (st_db st) invoiceId = false
      /\ verdictOf context = Some Rejected
      /\ exists memId rest,
           st_corrIds st = memId :: rest
           /\ learnPhase ops context now wall vendorMemsAll st
              = LearnThrown (markRejected (st_db st) memId wall))
  \/ (hasLearned (st_db st) invoiceId = false
      /\ exists row dec,
           find (fun x => String.eqb (hc_finalDecision x) "approved"
                          || String.eqb (hc_finalDecision x) "rejected")
                (ctx_correctionsForInvoice context) = Some row
           /\ verdictOf context = Some dec
           /\ (dec = Approved \/ st_corrIds st = [])
           /\ let s1 :=
                match dec with
                | Rejected => st
                | Approved =>
                    learnApproved ops context now vendorMemsAll
                      (hc_corrections row) st
                end in
              let s2 :=
                fold_left (learnResolution ops context now wall dec invoiceId)
                  (st_resKeys s1) s1 in
              exists ev msg,
                learnPhase ops context now wall vendorMemsAll st
                = LearnDone
                    (pushTrail
                       (withDb s2
                          (logAuditEvent (markLearned (st_db s2) invoiceId wall)
                             now ev (Some (ctx_vendor context)) (Some invoiceId)
                             None None
                             (MetaLearn
                                (filter nonEmpty (map mu_id (st_updates s2))))))
                       step_learn now msg)).
Proof.
  unfold learnPhase, verdictOf. cbv zeta. fold invoiceId.
  destruct (hasLearned (st_db st) invoiceId) eqn:Hl.
  { left. split; [reflexivity|]. eexists. reflexivity. }
  right.
  destruct (find (fun x => String.eqb (hc_finalDecision x) "approved"
                           || String.eqb (hc_finalDecision x) "rejected")
              (ctx_correctionsForInvoice context)) as [row|] eqn:Hrow.
  2:{ left. repeat split. eexists. reflexivity. }
  destruct (decisionOf (hc_finalDecision row)) as [dec|] eqn:Hdec.
  2:{ left. repeat split. eexists. reflexivity. }
  right.
  destruct dec.
  - right. split; [reflexivity|]. exists row, Approved.
    repeat split; auto. do 2 eexists. reflexivity.
  - destruct (st_corrIds st) as [|memId rest] eqn:Hc.
    + right. split; [reflexivity|]. exists row, Rejected.
      repeat split; auto. do 2 eexists. reflexivity.
    + left. repeat split. exists memId, rest. split; reflexivity.
Qed.

Lemma learnPhase_keeps st st' :
  learnPhase ops context now wall vendorMemsAll st = LearnDone st' ->
  learnKeeps st st'.
Proof.
  destruct (learnPhase_cases st)
    as [(_ & msg & ->) | [(_ & _ & msg & ->) | [(_ & _ & m & r & _ & ->)
       | (_ & row & dec & _ & _ & _ & H)]]].
  - intros [= <-]. split; reflexivity.
  - intros [= <-]. split; reflexivity.
  - discriminate.
  - cbv zeta in H. destruct H as (ev & msg & ->). intros [= <-].
    match goal with
    | |- context [fold_left (learnResolution _ _ _ _ _ _) (st_resKeys ?s) _] =>
        pose proof (fold_left_related _ learnKeeps learnKeeps_refl learnKeeps_trans
                      (learnResolution_keeps dec) (st_resKeys s) s) as K2;
        assert (K1 : learnKeeps st s)
    end.
    { destruct dec; [apply learnApproved_keeps | apply learnKeeps_refl]. }
    eapply learnKeeps_trans; [exact K1|].
    eapply learnKeeps_trans; [exact K2|].
    split; reflexivity.
Qed.

End LearnLemmas.

(** ** A run that is not a duplicate *)

Lemma runPipeline_phases ops db context now wall :
  detectDuplicate ops db (ctx_extracted context) = NotDuplicate ->
  exists st0,
    (st_db st0 = db /\ st_proposed st0 = [] /\ st_updates st0 = []
     /\ st_resKeys st0 = [] /\ st_corrIds st0 = []
     /\ st_score st0 = initialScore)
    /\ let vendorMemsAll := getVendorMemories db (ctx_vendor context) in
       let sA := applyPhase ops context now wall vendorMemsAll st0 in
       let d := decidePhase ops context now sA in
       runPipeline ops db context now wall
       = match learnPhase ops context now wall vendorMemsAll (snd d) with
         | LearnDone sL =>
             (st_db sL,
              Some
                (mkOutput (inv_fields (ctx_extracted context)) (st_proposed sL)
                   (fst d) (join " " (st_reasons sL)) (st_score sL)
                   (st_updates sL) (st_trail sL)))
         | LearnThrown db' => (db', None)
         end.
Proof.
  intros H. unfold runPipeline. rewrite H. cbv zeta.
  eexists. split; [|reflexivity].
  repeat split.
Qed.

(** The store a run that is not a duplicate leaves is the one its Learn
    phase leaves, however that phase ends. *)
Lemma runPipeline_store ops db context now wall :
  detectDuplicate ops db (ctx_extracted context) = NotDuplicate ->
  exists st0,
    (st_db st0 = db /\ st_proposed st0 = [] /\ st_updates st0 = []
     /\ st_resKeys st0 = [] /\ st_corrIds st0 = []
     /\ st_score st0 = initialScore)
    /\ let vendorMemsAll := getVendorMemories db (ctx_vendor context) in
       let sA := applyPhase ops context now wall vendorMemsAll st0 in
       let d := decidePhase ops context now sA in
       fst (runPipeline ops db context now wall)
       = learnStore (learnPhase ops context now wall vendorMemsAll (snd d))
       /\ (snd (runPipeline ops db context now wall) = None <->
           exists db',
             learnPhase ops context now wall vendorMemsAll (snd d)
             = LearnThrown db').
Proof.
  intros H.
  destruct (runPipeline_phases ops db context now wall H) as (st0 & H0 & Hrun).
  exists st0. split; [exact H0|]. cbv zeta in Hrun |- *. rewrite Hrun.
  destruct (learnPhase _ _ _ _ _ _) as [sL|db']; cbn [fst snd learnStore].
  - split; [reflexivity|]. split; [discriminate | intros (x & Hx); discriminate].
  - split; [reflexivity|]. split; [eauto | reflexivity].
Qed.

(** The output of a run that is not a duplicate and returns: its Learn
    phase ran to its end, and proposals, review flag and score are those
    the Apply and Decide phases fixed. *)
Lemma runPipeline_output ops db context now wall out :
  detectDuplicate ops db (ctx_extracted context) = NotDuplicate ->
  snd (runPipeline ops db context now wall) = Some out ->
  exists st0 sL,
    (st_db st0 = db /\ st_proposed st0 = [] /\ st_updates st0 = []
     /\ st_resKeys st0 = [] /\ st_corrIds st0 = []
     /\ st_score st0 = initialScore)
    /\ let vendorMemsAll := getVendorMemories db (ctx_vendor context) in
       let sA := applyPhase ops context now wall vendorMemsAll st0 in
       let d := decidePhase ops context now sA in
       learnPhase ops context now wall vendorMemsAll (snd d) = LearnDone sL
       /\ fst (runPipeline ops db context now wall) = st_db sL
       /\ out = mkOutput (inv_fields (ctx_extracted context)) (st_proposed sA)
                  (anyLowConfidence (st_proposed sA)
                   || hasCriticalMissingFields ops
                        (inv_fields (ctx_extracted context)) (st_proposed sA))
                  (join " " (st_reasons sL))
                  (match map c_confidence (st_proposed sA) with
                   | [] => st_score sA
                   | c :: cs => round2 (minOf c cs)
                   end)
                  (st_updates sL) (st_trail sL).
Proof.
  intros H Hout.
  destruct (runPipeline_phases ops db context now wall H) as (st0 & H0 & Hrun).
  exists st0. cbv zeta in Hrun |- *.
  set (sA := applyPhase ops context now wall
               (getVendorMemories db (ctx_vendor context)) st0) in *.
  destruct (decidePhase_spec ops context now sA)
    as (Hflag & _ & _ & Hp & _ & _ & Hs).
  set (d := decidePhase ops context now sA) in *.
  rewrite Hrun in Hout |- *.
  destruct (learnPhase ops context now wall
              (getVendorMemories db (ctx_vendor context)) (snd d))
    as [sL|db'] eqn:El; [|discriminate].
  destruct (learnPhase_keeps _ _ _ _ _ _ _ El) as [Kp Ks].
  clearbody d sA.
  exists sL. split; [exact H0|].
  split; [reflexivity|]. split; [reflexivity|].
  unfold snd in Hout. injection Hout as <-.
  now rewrite Kp, Ks, Hp, Hs, Hflag.
Qed.

(** A run returns unless its verdict is a rejection. *)
Lemma runPipeline_returns ops db context now wall :
  verdictOf context <> Some Rejected ->
  exists out, snd (runPipeline ops db context now wall) = Some out.
Proof.
  intros Hv.
  destruct (detectDuplicate ops db (ctx_extracted context))
    as [|dupOf reason fp] eqn:E.
  2:{ rewrite (runPipeline_duplicate _ _ _ now wall _ _ _ E).
      eexists. reflexivity. }
  destruct (runPipeline_phases ops db context now wall E) as (st0 & _ & Hrun).
  cbv zeta in Hrun. rewrite Hrun.
  match goal with
  | |- context [learnPhase ?o ?c ?n ?w ?v ?s] =>
      destruct (learnPhase_cases o c n w v s)
        as [(_ & msg & ->) | [(_ & _ & msg & ->) | [(_ & Hr & _)
           | (_ & row & dec & _ & _ & _ & H)]]]
  end.
  - eexists. reflexivity.
  - eexists. reflexivity.
  - contradiction.
  - cbv zeta in H. destruct H as (ev & msg & ->). eexists. reflexivity.
Qed.








(** ** The reported confidence score *)

Lemma minOf_least x xs :
  In (minOf x xs) (x :: xs) /\ forall y, In y (x :: xs) -> minOf x xs <= y.
Proof.
  revert x. induction xs as [|z zs IH]; intros x; simpl.
  - split; [now left | intros y [<-|[]]; lra].
  - destruct (IH z) as [Hin Hle]. split.
    + unfold Rmin. destruct (Rle_dec x (minOf z zs)); [now left | right; exact Hin].
    + intros y [<-|Hy].
      * apply Rmin_l.
      * eapply Rle_trans; [apply Rmin_r | apply Hle, Hy].
Qed.

Lemma score_with_corrections ops db context now wall out :
  detectDuplicate ops db (ctx_extracted context) = NotDuplicate ->
  snd (runPipeline ops db context now wall) = Some out ->
  proposedCorrections out <> [] ->
  exists m,
    In m (map c_confidence (proposedCorrections out))
    /\ (forall c, In c (proposedCorrections out) -> m <= c_confidence c)
    /\ confidenceScore out = round2 m.
Proof.
  intros Hnd Hout.
  destruct (runPipeline_output ops db context now wall out Hnd Hout)
    as (st0 & sL & _ & H).
  cbv zeta in H. destruct H as (_ & _ & ->).
  cbn [proposedCorrections confidenceScore].
  match goal with |- context [applyPhase ?o ?c ?n ?w ?v ?s] =>
    generalize (st_proposed (applyPhase o c n w v s)) end.
  intros proposed Hne.
  destruct proposed as [|c cs]; [contradiction|]. cbn [map].
  destruct (minOf_least (c_confidence c) (map c_confidence cs)) as [Hin Hle].
  exists (minOf (c_confidence c) (map c_confidence cs)).
  split; [exact Hin|]. split; [|reflexivity].
  intros c' Hc'. apply Hle. change (In (c_confidence c') (map c_confidence (c :: cs))).
  now apply in_map.
Qed.

Lemma score_without_corrections ops db context now wall out :
  detectDuplicate ops db (ctx_extracted context) = NotDuplicate ->
  snd (runPipeline ops db context now wall) = Some out ->
  proposedCorrections out = [] ->
  confidenceScore out
  = match vatCheckConfidence ops context now
            (getVendorMemories db (ctx_vendor context)) db with
    | Some a => Rmax initialScore (Rmin 0.85 a)
    | None => initialScore
    end.
Proof.
  intros Hnd Hout.
  destruct (runPipeline_output ops db context now wall out Hnd Hout)
    as (st0 & sL & (Hdb & Hp0 & _ & _ & _ & Hs0) & H).
  cbv zeta in H. destruct H as (_ & _ & ->).
  cbn [proposedCorrections confidenceScore].
  destruct (applyPhase_frame ops context now wall
              (getVendorMemories db (ctx_vendor context)) st0)
    as (_ & _ & cs & Hp & Hs).
  intros Hnil. rewrite Hnil. cbn [map].
  rewrite Hp, Hp0 in Hnil. cbn [app] in Hnil.
  rewrite (Hs Hnil), Hdb, Hs0. reflexivity.
Qed.

(** C4, as the engine computes it.  In a run that is not a duplicate,
    returns and proposes at least one correction, the reported score is the
    least confidence among the proposals, rounded to two decimals.  In a
    run that proposes none, the reported score is the baseline 0.25, except
    that a VAT-inclusive check that ran to completion and found the totals
    in order lifts it to [max(0.25, min(0.85, a))], [a] being the
    confidence that check worked with. *)
Theorem confidence_score_reported
    (ops : JsOps) (db : Db) (context : Context) (now wall : Z)
    (out : AgentOutput)
    (Hnd : detectDuplicate ops db (ctx_extracted context) = NotDuplicate)
    (Hout : snd (runPipeline ops db context now wall) = Some out) :
  (proposedCorrections out <> [] ->
   exists m,
     In m (map c_confidence (proposedCorrections out))
     /\ (forall c, In c (proposedCorrections out) -> m <= c_confidence c)
     /\ confidenceScore out = round2 m)
  /\ (proposedCorrections out = [] ->
      confidenceScore out
      = match vatCheckConfidence ops context now
              (getVendorMemories db (ctx_vendor context)) db with
        | Some a => Rmax initialScore (Rmin 0.85 a)
        | None => initialScore
        end).
Proof.
  split.
  - apply (score_with_corrections ops db context now wall); assumption.
  - apply (score_without_corrections ops db context now wall); assumption.
Qed.

Lemma confidence_score_reported_witness :
  exists out,
    snd (runPipeline plainOps emptyDb (contextOf plainInvoice) 10 11) = Some out
    /\ confidenceScore out = initialScore.
Proof.
  eexists. split; [reflexivity|].
  destruct (confidence_score_reported plainOps emptyDb (contextOf plainInvoice)
              10 11 _ eq_refl eq_refl) as [_ H].
  exact (H eq_refl).
Defined.

Lemma round2_of (x : R) (z : Z) :
  IZR z <= x * 100 + / 2 < IZR z + 1 -> round2 x = IZR z / 100.
Proof. intros H. unfold round2. now rewrite (Zfloor_eq z _ H). Qed.

(** The VAT check on totals that are in order proposes nothing. *)
Lemma applyVatTotals_verified ops context now vendorMemsAll st
      (net rate gross tax : R) :
  let f := inv_fields (ctx_extracted context) in
  let rawText :=
    match inv_rawText (ctx_extracted context) with
    | Some s => s
    | None => EmptyString
    end in
  toNum ops (f_netTotal f) = Fin net ->
  toNum ops (coalesce (f_taxRate f) (VNum (Fin 0.19))) = Fin rate ->
  toNum ops (f_grossTotal f) = Fin gross ->
  toNum ops (f_taxTotal f) = Fin tax ->
  let expectedGross :=
    match extractTotalFromRawText ops rawText with
    | Some g => round2 g
    | None => round2 (net * (1 + rate))
    end in
  Rabs (gross - expectedGross) <= 0.01 ->
  Rabs (tax - round2 (expectedGross - net)) <= 0.01 ->
  st_proposed (applyVatTotals ops context now vendorMemsAll st) = st_proposed st.
Proof.
  intros f rawText Hn Hr Hg Ht expectedGross Hge Hte.
  unfold applyVatTotals. cbv zeta.
  fold f. fold rawText. rewrite Hn, Hr, Hg, Ht. fold expectedGross.
  apply Rltb_false in Hge. apply Rltb_false in Hte. rewrite Hge, Hte.
  destruct (isVatInclusiveText ops rawText); reflexivity.
Qed.

(** Counterexample to C4 as stated: an invoice quoting VAT-inclusive prices
    whose totals agree (net 100, rate 0.19, gross 119, tax 19) receives no
    proposal, yet the run reports 0.6 and not the baseline 0.25. *)
Lemma score_without_corrections_above_baseline :
  exists out,
    snd (runPipeline plainOps emptyDb (contextOf vatInvoice) 10 11) = Some out
    /\ proposedCorrections out = []
    /\ confidenceScore out = 0.6
    /\ initialScore = 0.25
    /\ confidenceScore out <> initialScore.
Proof.
  assert (Hnd : detectDuplicate plainOps emptyDb
                  (ctx_extracted (contextOf vatInvoice)) = NotDuplicate)
    by reflexivity.
  destruct (runPipeline_returns plainOps emptyDb (contextOf vatInvoice) 10 11)
    as [out Hout]; [discriminate|].
  exists out. split; [exact Hout|].
  assert (Hvat : isVatInclusiveText plainOps "VAT included" = true)
    by (vm_compute; reflexivity).
  assert (Hg : round2 (100 * (1 + 0.19)) = 119).
  { rewrite (round2_of _ 11900); lra. }
  assert (Ht : round2 (119 - 100) = 19).
  { rewrite (round2_of _ 1900); lra. }
  assert (Hnone : proposedCorrections out = []).
  { destruct (runPipeline_output plainOps emptyDb (contextOf vatInvoice) 10 11
                out Hnd Hout) as (st0 & sL & (_ & Hp0 & _) & H).
    cbv zeta in H. destruct H as (_ & _ & ->). cbn [proposedCorrections].
    unfold applyPhase, applyFreightVendor, applyCurrency, applyQuantities.
    cbn -[applyVatTotals applyPoInference applyServiceDate].
    rewrite (applyVatTotals_verified plainOps (contextOf vatInvoice) 10 _ _
               100 0.19 119 19 eq_refl eq_refl eq_refl eq_refl).
    - unfold applyPoInference, applyServiceDate. cbn. exact Hp0.
    - cbn. rewrite Hg. replace (119 - 119) with 0 by lra. rewrite Rabs_R0. lra.
    - cbn. rewrite Hg, Ht. replace (19 - 19) with 0 by lra. rewrite Rabs_R0. lra.
  }
  pose proof (score_without_corrections plainOps emptyDb (contextOf vatInvoice)
                10 11 out Hnd Hout Hnone) as Hscore.
  assert (Hcheck : vatCheckConfidence plainOps (contextOf vatInvoice) 10
                     (getVendorMemories emptyDb (ctx_vendor (contextOf vatInvoice)))
                     emptyDb = Some 0.6).
  { unfold vatCheckConfidence.
    cbn [ctx_extracted contextOf vatInvoice inv_rawText inv_fields].
    rewrite Hvat. reflexivity. }
  rewrite Hcheck in Hscore.
  assert (Hval : Rmax initialScore (Rmin 0.85 0.6) = 0.6).
  { unfold initialScore. rewrite Rmin_right by lra. rewrite Rmax_right by lra.
    reflexivity. }
  rewrite Hval in Hscore.
  split; [exact Hnone|]. split; [exact Hscore|]. split; [reflexivity|].
  rewrite Hscore. unfold initialScore. lra.
Qed.

(** ** Vendor memory under the Learn phase *)

Lemma learnInv_init vm0 st :
  vendor_memory (st_db st) = vm0 -> st_updates st = [] -> learnInv vm0 st.
Proof.
  intros Hv Hu. split.
  - intros m Hm. left. now rewrite Hv.
  - intros u Hin. rewrite Hu in Hin. contradiction.
Qed.

Lemma learnInv_idle vm0 st st' :
  vendorIdle st st' -> learnInv vm0 st -> learnInv vm0 st'.
Proof. intros [Hv Hu] [H1 H2]. split; rewrite Hv, Hu; assumption. Qed.

Section VendorLearning.

Variable ops : JsOps.
Variable context : Context.
Variables now wall : Z.
Variable vendorMemsAll : list VendorMemory.

Let invoiceId := inv_invoiceId (ctx_extracted context).

Lemma learnVendorMemory_inv vm0 kind pattern note st :
  learnInv vm0 st ->
  learnInv vm0 (learnVendorMemory context now vendorMemsAll kind pattern note st).
Proof.
  intros [H1 H2]. unfold learnVendorMemory. cbv zeta.
  set (id := (ctx_vendor context ++ "::" ++ kind ++ "::" ++ pattern)%string).
  match goal with
  | |- context [upsertVendorMemory _ ?mem] => set (row := mem)
  end.
  assert (Hid : vm_id row = id) by reflexivity.
  assert (Hst : vm_status row = Active) by reflexivity.
  clearbody row.
  split; cbn [pushUpdate withDb st_db st_updates].
  - intros m Hm. rewrite map_app, in_app_iff. cbn [map mu_id In].
    destruct (H1 m Hm) as [Hin|Hin]; [|now right; left].
    destruct (string_dec (vm_id m) id) as [e|ne].
    + right; right; left. now rewrite e.
    + left. apply upsertVendorMemory_others; [assumption | now rewrite Hid].
  - intros u Hu Hty. apply in_app_iff in Hu as [Hu|[<-|[]]].
    + destruct (H2 u Hu Hty) as (m' & Hm' & Hid' & Hact).
      destruct (string_dec (vm_id m') id) as [e|ne].
      * destruct (upsertVendorMemory_row (st_db st) row) as (r & Hr & Hrid & Hrst).
        exists r. repeat split; [assumption | congruence | congruence].
      * exists m'. repeat split; try assumption.
        apply upsertVendorMemory_others; [assumption | now rewrite Hid].
    + destruct (upsertVendorMemory_row (st_db st) row) as (r & Hr & Hrid & Hrst).
      exists r. cbn [mu_id]. repeat split; [assumption | congruence | congruence].
Qed.

Lemma learnQtyFix_inv vm0 st fx :
  learnInv vm0 st -> learnInv vm0 (learnQtyFix ops context now st fx).
Proof.
  intros [H1 H2]. unfold learnQtyFix.
  destruct (skuOfField ops (fc_field fx)) as [sku|]; [|split; assumption].
  cbv zeta. split; cbn [pushUpdate withDb st_db st_updates];
    rewrite upsertCorrectionMemory_vendor.
  - intros m Hm. rewrite map_app, in_app_iff.
    destruct (H1 m Hm); [now left | now right; left].
  - intros u Hu Hty. apply in_app_iff in Hu as [Hu|[<-|[]]].
    + now apply H2.
    + discriminate Hty.
Qed.

Lemma learnApproved_inv vm0 corrections st :
  learnInv vm0 st ->
  learnInv vm0 (learnApproved ops context now vendorMemsAll corrections st).
Proof.
  intros H. unfold learnApproved. cbv zeta.
  repeat match goal with
         | |- learnInv _ (if ?c then _ else _) => destruct c
         | |- learnInv _ (learnVendorMemory _ _ _ _ _ _ _) =>
             apply learnVendorMemory_inv
         | |- learnInv _ (fold_left _ _ _) =>
             apply fold_left_invariant; [intros; now apply learnQtyFix_inv|]
         end; exact H.
Qed.

Lemma learnResolutions_idle dec st :
  vendorIdle st
    (fold_left (learnResolution ops context now wall dec invoiceId)
       (st_resKeys st) st).
Proof.
  apply (fold_left_related _ vendorIdle vendorIdle_refl vendorIdle_trans).
  intros; apply learnResolution_idle.
Qed.

(** A Learn phase that runs to its end keeps [learnInv], and leaves vendor
    memory and the memory updates as they are unless it learns an approval;
    one that throws has not touched vendor memory. *)
Lemma learnPhase_vendor vm0 st :
  learnInv vm0 st ->
  match learnPhase ops context now wall vendorMemsAll st with
  | LearnDone st' =>
      learnInv vm0 st'
      /\ (hasLearned (st_db st) invoiceId = true
          \/ verdictOf context <> Some Approved -> vendorIdle st st')
  | LearnThrown db' => vendor_memory db' = vendor_memory (st_db st)
  end.
Proof.
  intros Hinv.
  destruct (learnPhase_cases ops context now wall vendorMemsAll st)
    as [(_ & msg & ->) | [(_ & _ & msg & ->) | [(_ & _ & m & r & _ & ->)
       | (Hl & row & dec & _ & Hv & _ & H)]]].
  - split; [|intros _]; [eapply learnInv_idle; [|exact Hinv]|]; split; reflexivity.
  - split; [|intros _]; [eapply learnInv_idle; [|exact Hinv]|]; split; reflexivity.
  - reflexivity.
  - cbv zeta in H. destruct H as (ev & msg & ->). fold invoiceId.
    set (s1 := match dec with
               | Approved => _
               | Rejected => _
               end).
    set (s2 := fold_left _ (st_resKeys s1) s1).
    assert (I12 : vendorIdle s1 s2) by apply learnResolutions_idle.
    assert (I2 : vendorIdle s2
                   (pushTrail
                      (withDb s2
                         (logAuditEvent (markLearned (st_db s2) invoiceId wall) now ev
                            (Some (ctx_vendor context)) (Some invoiceId) None None
                            (MetaLearn (filter nonEmpty (map mu_id (st_updates s2))))))
                      step_learn now msg)).
    { split; [|reflexivity]. cbn. apply markLearned_vendor. }
    split.
    + eapply learnInv_idle; [exact I2|].
      eapply learnInv_idle; [exact I12|].
      unfold s1. destruct dec.
      * now apply learnApproved_inv.
      * exact Hinv.
    + intros [Habs|Hne]; [fold invoiceId in Hl; congruence|].
      destruct dec; [congruence|].
      eapply vendorIdle_trans; [|exact I2].
      eapply vendorIdle_trans; [|exact I12].
      apply vendorIdle_refl.
Qed.

End VendorLearning.

Lemma resetVendorMemoryConfidence_status db id to wall :
  map vm_status (vendor_memory (resetVendorMemoryConfidence db id to wall))
  = map vm_status (vendor_memory db).
Proof.
  unfold resetVendorMemoryConfidence. cbn. unfold updateWhere.
  rewrite map_map. apply map_ext. intros m.
  now destruct (String.eqb (vm_id m) id).
Qed.

(** C9, as the engine behaves.  A run that is a duplicate, that finds the
    invoice already learned, or whose verdict is not an approval leaves
    vendor memory exactly as it is, disabled entries included.  A run that
    learns an approval changes only entries it reports in [memoryUpdates],
    and every vendor-memory entry a run reports is stored with status
    active afterwards: an approval for the heuristic of a disabled entry
    puts the entry back to active.  The administrative reset rewrites
    confidence and reject count and leaves every status as stored. *)
Theorem vendor_memory_under_pipeline
    (ops : JsOps) (db : Db) (context : Context) (now wall : Z) :
  let db' := fst (runPipeline ops db context now wall) in
  (isDuplicate (detectDuplicate ops db (ctx_extracted context)) = true
   \/ hasLearned db (inv_invoiceId (ctx_extracted context)) = true
   \/ verdictOf context <> Some Approved ->
   vendor_memory db' = vendor_memory db)
  /\ (forall m, In m (vendor_memory db) ->
        In m (vendor_memory db')
        \/ exists out,
             snd (runPipeline ops db context now wall) = Some out
             /\ In (vm_id m) (map mu_id (memoryUpdates out)))
  /\ (forall out u,
        snd (runPipeline ops db context now wall) = Some out ->
        In u (memoryUpdates out) ->
        mu_type u = "vendor_memory_upsert"%string ->
        exists m', In m' (vendor_memory db')
                   /\ vm_id m' = mu_id u /\ vm_status m' = Active)
  /\ (forall id to wall',
        map vm_status (vendor_memory (resetVendorMemoryConfidence db id to wall'))
        = map vm_status (vendor_memory db)).
Proof.
  cbv zeta.
  assert (Hadmin : forall id to wall',
             map vm_status
               (vendor_memory (resetVendorMemoryConfidence db id to wall'))
             = map vm_status (vendor_memory db))
    by (intros; apply resetVendorMemoryConfidence_status).
  destruct (detectDuplicate ops db (ctx_extracted context))
    as [|dupOf reason fp] eqn:E.
  2:{ rewrite (runPipeline_duplicate _ _ _ now wall _ _ _ E). cbn [fst snd].
      split; [intros _; reflexivity|]. split; [|split; [|exact Hadmin]].
      - intros m Hm. now left.
      - intros out u [= <-] []. }
  destruct (runPipeline_phases ops db context now wall E)
    as (st0 & (Hdb & _ & Hu0 & _) & Hrun).
  cbv zeta in Hrun. rewrite Hrun. clear Hrun.
  set (vmAll := getVendorMemories db (ctx_vendor context)).
  set (sA := applyPhase ops context now wall vmAll st0).
  destruct (applyPhase_frame ops context now wall vmAll st0) as (Hm & Hu & _).
  fold sA in Hm, Hu.
  destruct (decidePhase_spec ops context now sA) as (_ & HdD & HuD & _).
  set (d := decidePhase ops context now sA) in *.
  set (sD := snd d) in *.
  assert (Hvm : vendor_memory (st_db sD) = vendor_memory db).
  { rewrite HdD. destruct Hm as (_ & -> & _). now rewrite Hdb. }
  assert (Hle : learning_events (st_db sD) = learning_events db).
  { rewrite HdD. destruct Hm as (_ & _ & _ & _ & _ & _ & _ & _ & -> & _).
    now rewrite Hdb. }
  assert (HuD' : st_updates sD = []) by congruence.
  pose proof (learnPhase_vendor ops context now wall vmAll (vendor_memory db) sD
                (learnInv_init _ sD Hvm HuD')) as HL.
  destruct (learnPhase ops context now wall vmAll sD) as [sL|dbT];
    cbn [fst snd].
  - destruct HL as [[I1 I2] Hidle].
    split; [|split; [|split; [|exact Hadmin]]].
    + intros [Hdup|[Hl|Hv]]; [discriminate| |].
      * rewrite <- Hvm. apply Hidle. left.
        unfold hasLearned in *. now rewrite Hle.
      * rewrite <- Hvm. apply Hidle. now right.
    + intros m Hm'. destruct (I1 m Hm') as [Hin|Hin]; [now left|].
      right. eexists. split; [reflexivity | exact Hin].
    + intros out u [= <-]. cbn [memoryUpdates]. apply I2.
  - split; [|split; [|split; [|exact Hadmin]]].
    + intros _. congruence.
    + intros m Hm'. left. congruence.
    + intros out u Habs. discriminate Habs.
Qed.

(** Counterexample to C9 as stated: the service-date entry of the vendor is
    disabled; a run with an approved service-date correction stores it with
    status active. *)
Lemma approval_reactivates_disabled_entry :
  let db' := fst (runPipeline plainOps disabledDb approvedServiceDate 10 11) in
  map vm_id (vendor_memory disabledDb) = [vm_id disabledEntry]
  /\ map vm_status (vendor_memory disabledDb) = [Disabled]
  /\ map vm_id (vendor_memory db') = [vm_id disabledEntry]
  /\ map vm_status (vendor_memory db') = [Active].
Proof. cbv zeta. repeat split; vm_compute; reflexivity. Qed.

(** ** Learning at most once *)









(** * Further properties of the stores *)

(** ** Learning events *)

Lemma hasLearned_markLearned_other db id other wall :
  other <> id -> hasLearned (markLearned db id wall) other = hasLearned db other.
Proof.
  intros Hne. unfold markLearned.
  destruct (hasLearned db id); [reflexivity|].
  unfold hasLearned. cbn. rewrite existsb_app. cbn.
  destruct (String.eqb_spec id other) as [e|_]; [symmetry in e; contradiction|].
  now rewrite !orb_false_r.
Qed.

(** X1.  Marking an invoice learned makes [hasLearned] answer true for it
    and changes the answer for no other invoice; marking it again is ignored
    and keeps the first row with its first [learnedAt]. *)
Theorem markLearned_is_idempotent (db : Db) (id : string) (wall wall' : Z) :
  hasLearned (markLearned db id wall) id = true
  /\ markLearned (markLearned db id wall) id wall' = markLearned db id wall
  /\ (forall other, other <> id ->
        hasLearned (markLearned db id wall) other = hasLearned db other)
  /\ (hasLearned db id = false ->
        learning_events (markLearned db id wall)
        = learning_events db ++ [mkLearningEvent id wall]).
Proof.
  split; [apply markLearned_hasLearned|].
  split; [|split].
  - unfold markLearned at 1. now rewrite markLearned_hasLearned.
  - intros other Hne. now apply hasLearned_markLearned_other.
  - intros H. unfold markLearned. now rewrite H.
Qed.

(** ** Correction memory *)

Lemma find_app_none {A} (p : A -> bool) l x :
  find p l = None -> p x = true -> find p (l ++ [x]) = Some x.
Proof. intros H Hx. rewrite find_app, H. cbn. now rewrite Hx. Qed.

Lemma find_updateWhere_other {A} (p q : A -> bool) (f : A -> A) l :
  (forall x, q (f x) = q x) -> (forall x, q x = true -> p x = false) ->
  find q (updateWhere p f l) = find q l.
Proof.
  intros Hqf Hqp. unfold updateWhere.
  induction l as [|a l IH]; [reflexivity|].
  simpl. destruct (p a) eqn:Ep.
  - rewrite Hqf. destruct (q a) eqn:Eq; [|apply IH].
    apply Hqp in Eq. congruence.
  - destruct (q a); [reflexivity | apply IH].
Qed.

(** X2.  [upsertCorrectionMemory] and lookup by id.  For a new id the row is
    stored as given, with support count 1, reject count 0 and, where the
    schema has a status, status active.  For an id already stored only three
    columns change: the confidence grows by 0.1 up to the cap 0.95, the
    support count grows by one and [lastUsedAt] is taken from the argument;
    the stored recommendation, reject count and status stay, so an upsert
    does not re-enable a disabled entry.  The confidence returned is the one
    stored, and rows under other ids are not touched. *)
Theorem upsertCorrectionMemory_lookup (db : Db) (row : CorrectionMemoryRow) :
  let db' := fst (upsertCorrectionMemory db row) in
  let conf := snd (upsertCorrectionMemory db row) in
  (getCorrectionMemoryById db (cm_id row) = None ->
   getCorrectionMemoryById db' (cm_id row)
   = Some (mkCorrectionMemory (cm_id row) (cm_vendor row) (cm_fieldPath row)
             (cm_patternType row) (cm_patternValue row)
             (cm_recommendedValue row) (cm_confidence row) 1 0
             (cm_lastUsedAt row) (cm_createdAt row)
             (if correction_hasStatus db then Some Active else None))
   /\ conf = cm_confidence row)
  /\ (forall old, getCorrectionMemoryById db (cm_id row) = Some old ->
      getCorrectionMemoryById db' (cm_id row)
      = Some (mkCorrectionMemory (cm_id old) (cm_vendor old) (cm_fieldPath old)
                (cm_patternType old) (cm_patternValue old)
                (cm_recommendedValue old)
                (Rmin 0.95 (cm_confidence old + 0.1))
                (cm_supportCount old + 1) (cm_rejectCount old)
                (cm_lastUsedAt row) (cm_createdAt old) (cm_status old))
      /\ conf = Rmin 0.95 (cm_confidence old + 0.1)
      /\ conf <= 0.95)
  /\ (forall id, id <> cm_id row ->
      getCorrectionMemoryById db' id = getCorrectionMemoryById db id)
  /\ correction_hasStatus db' = correction_hasStatus db.
Proof.
  cbv zeta. unfold getCorrectionMemoryById, upsertCorrectionMemory.
  destruct (find (fun m => String.eqb (cm_id m) (cm_id row)) (correction_memory db))
    as [old|] eqn:E; cbn [fst snd correction_memory set_correction_memory
                           correction_hasStatus].
  - split; [discriminate|]. split; [|split; [|reflexivity]].
    + intros old' [= <-].
      rewrite find_updateWhere by reflexivity. rewrite E. cbn [option_map].
      split; [reflexivity|]. split; [reflexivity | apply Rmin_l].
    + intros id Hne. apply find_updateWhere_other; [reflexivity|].
      intros x Hx. apply String.eqb_eq in Hx.
      destruct (String.eqb_spec (cm_id x) (cm_id row)); [congruence|reflexivity].
  - split; [|split; [discriminate|split; [|reflexivity]]].
    + intros _. split; [|reflexivity].
      apply find_app_none; [exact E|]. cbn. apply String.eqb_refl.
    + intros id Hne. rewrite find_app.
      destruct (find (fun m => String.eqb (cm_id m) id) (correction_memory db));
        [reflexivity|].
      cbn. destruct (String.eqb_spec (cm_id row) id) as [e|_];
        [symmetry in e; contradiction | reflexivity].
Qed.

Lemma In_updateWhere {A} (p : A -> bool) (f : A -> A) l y :
  In y (updateWhere p f l) ->
  exists x, In x l /\ y = (if p x then f x else x).
Proof.
  unfold updateWhere. intros H. apply in_map_iff in H as (x & <- & Hx). eauto.
Qed.

Lemma markRejected_rows db id wall y :
  In y (correction_memory (markRejected db id wall)) ->
  exists x, In x (correction_memory db)
            /\ cm_id y = cm_id x
            /\ (cm_id x = id ->
                y = rejectedRow (correction_hasStatus db) wall x)
            /\ (cm_id x <> id -> y = x).
Proof.
  intros H. apply In_updateWhere in H as (x & Hx & ->).
  exists x. split; [exact Hx|].
  destruct (String.eqb_spec (cm_id x) id) as [e|ne].
  - split; [reflexivity|]. split; [intros _; reflexivity | intros; contradiction].
  - split; [reflexivity|]. split; [intros; contradiction | intros _; reflexivity].
Qed.

Lemma twice_rejected_rows db id wall1 wall2 y :
  (forall r, In r (correction_memory db) -> (0 <= cm_rejectCount r)%Z) ->
  In y (correction_memory (markRejected (markRejected db id wall1) id wall2)) ->
  cm_id y = id ->
  (2 <= cm_rejectCount y)%Z
  /\ (correction_hasStatus db = true -> cm_status y = Some Disabled).
Proof.
  intros Hc Hy Hid.
  apply markRejected_rows in Hy as (x1 & Hx1 & Hid1 & Hhit1 & _).
  apply markRejected_rows in Hx1 as (x0 & Hx0 & Hid0 & Hhit0 & _).
  assert (e1 : cm_id x1 = id) by congruence.
  assert (e0 : cm_id x0 = id) by congruence.
  rewrite (Hhit1 e1), (Hhit0 e0).
  pose proof (Hc x0 Hx0) as H0.
  cbn [correction_hasStatus markRejected set_correction_memory].
  unfold rejectedRow. cbn [cm_rejectCount cm_status].
  split; [lia|]. intros ->.
  assert ((2 <=? cm_rejectCount x0 + 1 + 1)%Z = true) as -> by (apply Z.leb_le; lia).
  reflexivity.
Qed.

(** X3.  Two rejections retire a correction-memory entry.  Provided reject
    counts start from zero or above, after [markRejected] has run twice on
    an id the gate [isSuspectCorrectionMemory] refuses every row under that
    id, whatever the resolution history and the instant; and where the
    schema has a status column no recall ([getCorrectionMemories]) and no
    keyed lookup ([findCorrectionMemory]) returns the entry any more. *)
Theorem rejected_twice_is_retired
    (db : Db) (id : string) (wall1 wall2 : Z)
    (Hcounts : forall r, In r (correction_memory db) ->
                 (0 <= cm_rejectCount r)%Z) :
  let db2 := markRejected (markRejected db id wall1) id wall2 in
  (forall m, In m (correction_memory db2) -> cm_id m = id ->
     forall res now, isSuspectCorrectionMemory (Some m) res now = true)
  /\ (correction_hasStatus db = true ->
      (forall vendor m, In m (getCorrectionMemories db2 vendor) -> cm_id m <> id)
      /\ (forall vendor fieldPath patternType patternValue m,
            findCorrectionMemory db2 vendor fieldPath patternType patternValue
            = Some m -> cm_id m <> id)).
Proof.
  intros db2. split.
  - intros m Hm Hid res now.
    destruct (twice_rejected_rows db id wall1 wall2 m Hcounts Hm Hid) as [Hrc _].
    unfold isSuspectCorrectionMemory.
    destruct (match cm_status m with
              | Some s => negb (Status_eqb s Active) | None => false end);
      [reflexivity|].
    assert ((2 <=? cm_rejectCount m)%Z = true) as -> by now apply Z.leb_le.
    reflexivity.
  - intros Hs.
    assert (Hs2 : correction_hasStatus db2 = true) by exact Hs.
    split.
    + intros vendor m Hm Hid.
      unfold getCorrectionMemories in Hm. rewrite Hs2 in Hm.
      apply filter_In in Hm as [Hm Hp].
      destruct (twice_rejected_rows db id wall1 wall2 m Hcounts Hm Hid) as [_ Hd].
      rewrite (Hd Hs) in Hp. cbn in Hp. now rewrite andb_false_r in Hp.
    + intros vendor fieldPath patternType patternValue m Hm Hid.
      unfold findCorrectionMemory in Hm. rewrite Hs2 in Hm.
      apply find_In in Hm as [Hm Hp].
      destruct (twice_rejected_rows db id wall1 wall2 m Hcounts Hm Hid) as [_ Hd].
      rewrite (Hd Hs) in Hp. cbn in Hp. now rewrite andb_false_r in Hp.
Qed.

Lemma rejected_twice_is_retired_witness :
  let db2 := markRejected (markRejected rejectDb "cm-1" 5) "cm-1" 6 in
  findCorrectionMemory db2 "Supplier GmbH" "currency" "vendor" "default" = None.
Proof.
  cbv zeta.
  assert (Hc : forall r, In r (correction_memory rejectDb) ->
                         (0 <= cm_rejectCount r)%Z).
  { intros r [<-|[]]. cbn. lia. }
  destruct (rejected_twice_is_retired rejectDb "cm-1" 5 6 Hc) as [_ H].
  destruct (H eq_refl) as [_ Hfind].
  destruct (findCorrectionMemory _ _ _ _ _) as [m|] eqn:E; [|reflexivity].
  exfalso. apply (Hfind _ _ _ _ _ E).
  unfold findCorrectionMemory in E. cbn [correction_hasStatus] in E.
  apply find_In in E as [Hin _].
  apply markRejected_rows in Hin as (x1 & Hx1 & -> & _).
  apply markRejected_rows in Hx1 as (x0 & Hx0 & -> & _).
  destruct Hx0 as [<-|[]]. reflexivity.
Defined.

(** ** Resolution memory *)

Lemma existsb_find {A} (p : A -> bool) l :
  existsb p l = match find p l with Some _ => true | None => false end.
Proof.
  induction l as [|a l IH]; [reflexivity|].
  simpl. destruct (p a); [reflexivity | exact IH].
Qed.

Lemma resolutionKeyIs_other vendor key v k r :
  (v, k) <> (vendor, key) ->
  resolutionKeyIs v k r = true -> resolutionKeyIs vendor key r = false.
Proof.
  unfold resolutionKeyIs. intros Hne H.
  apply andb_prop in H as [Hv Hk].
  apply String.eqb_eq in Hv. apply String.eqb_eq in Hk.
  destruct (String.eqb_spec (rm_vendor r) vendor) as [e1|]; [|reflexivity].
  destruct (String.eqb_spec (rm_key r) key) as [e2|]; [|reflexivity].
  exfalso. apply Hne. congruence.
Qed.

Lemma existingAny_is_resolutionRow db vendor key :
  (if resolution_hasDisabledAt db
   then find (resolutionKeyIs vendor key) (resolution_memory db)
   else getResolution db vendor key)
  = resolutionRow db vendor key.
Proof.
  unfold getResolution, resolutionRow.
  now destruct (resolution_hasDisabledAt db).
Qed.

Lemma find_updateWhere2 {A} (p : A -> bool) (f g : A -> A) l :
  (forall x, p (f x) = p x) -> (forall x, p (g x) = p x) ->
  find p (updateWhere p g (updateWhere p f l))
  = option_map (fun x => g (f x)) (find p l).
Proof.
  intros Hf Hg. rewrite find_updateWhere by exact Hg.
  rewrite find_updateWhere by exact Hf.
  now destruct (find p l).
Qed.

(** Case analysis on every [Rmin] and [Rmax] of the goal, innermost first,
    closed by linear arithmetic. *)
Ltac split_R :=
  unfold Rmin, Rmax;
  repeat match goal with
         | |- context [Rle_dec ?a ?b] =>
             lazymatch a with context [Rle_dec _ _] => fail | _ => idtac end;
             lazymatch b with context [Rle_dec _ _] => fail | _ => idtac end;
             destruct (Rle_dec a b)
         end; try lra.

(** The first row under the key after a decision was recorded. *)
Lemma recordResolutionDecision_row db vendor key dec invoiceId wall :
  let old := resolutionRow db vendor key in
  let res := recordResolutionDecision db vendor key dec invoiceId wall in
  let disableNow :=
    resolution_hasDisabledAt db
    && match dec with
       | Rejected => (2 <=? rv_rejected (resolutionValueOf old) + 1)%Z
                     && (rv_approved (resolutionValueOf old) =? 0)%Z
       | Approved => false
       end in
  exists r',
    resolutionRow (fst res) vendor key = Some r'
    /\ rm_value r' = fst (snd res)
    /\ rm_confidence r' = snd (snd res)
    /\ rm_value r'
       = mkResolutionValue
           (rv_approved (resolutionValueOf old)
            + match dec with Approved => 1 | Rejected => 0 end)
           (rv_rejected (resolutionValueOf old)
            + match dec with Rejected => 1 | Approved => 0 end)
           (Some dec) (Some invoiceId)
    /\ rm_confidence r'
       = (let c := match dec with
                   | Approved => Rmin 0.95 (resolutionConfidenceOf old + 0.05)
                   | Rejected => Rmax 0.2 (resolutionConfidenceOf old - 0.1)
                   end in
          if disableNow then Rmin c 0.2 else c)
    /\ rm_lastUsedAt r' = TsAt wall
    /\ rm_rejectCount r'
       = (match old with Some e => rm_rejectCount e | None => 0 end
          + (if resolution_hasRejectCount db
             then match dec with Rejected => 1 | Approved => 0 end
             else 0))%Z.
Proof.
  cbv zeta. unfold recordResolutionDecision.
  rewrite existingAny_is_resolutionRow.
  unfold upsertResolution. cbv zeta.
  rewrite existsb_find. fold (resolutionRow db vendor key).
  unfold resolutionValueOf, resolutionConfidenceOf.
  destruct (resolutionRow db vendor key) as [e|] eqn:E;
    destruct (resolution_hasRejectCount db);
    cbn [fst snd resolution_memory set_resolution_memory p_value p_confidence
         p_lastUsedAt p_disabledAt];
    unfold resolutionRow in *;
    cbn [fst snd resolution_memory set_resolution_memory].
  all: try (rewrite find_updateWhere2 by reflexivity).
  all: try (rewrite find_updateWhere by reflexivity).
  all: try (rewrite E; cbn [option_map]).
  all: try (rewrite !find_app, E; cbn [find]).
  all: try (unfold resolutionKeyIs at 1; cbn [rm_vendor rm_key];
            rewrite !String.eqb_refl; cbn [andb]).
  all: eexists; (split; [reflexivity|]).
  all: cbn [rm_value rm_confidence rm_lastUsedAt rm_rejectCount rv_approved
            rv_rejected rv_lastDecision rv_lastInvoiceId defaultValue].
  all: destruct dec; cbn [andb]; rewrite ?andb_false_r.
  all: repeat match goal with |- _ /\ _ => split end.
  all: try reflexivity; try lia.
  all: f_equal; lia.
Qed.

Lemma recordResolutionDecision_frame db vendor key dec invoiceId wall :
  let db' := fst (recordResolutionDecision db vendor key dec invoiceId wall) in
  invoice_runs db' = invoice_runs db
  /\ vendor_memory db' = vendor_memory db
  /\ correction_memory db' = correction_memory db
  /\ correction_hasStatus db' = correction_hasStatus db
  /\ resolution_hasDisabledAt db' = resolution_hasDisabledAt db
  /\ resolution_hasRejectCount db' = resolution_hasRejectCount db
  /\ duplicate_records db' = duplicate_records db
  /\ learning_events db' = learning_events db
  /\ audit_events db' = audit_events db.
Proof.
  unfold recordResolutionDecision, upsertResolution. cbv zeta.
  destruct (resolution_hasRejectCount db) eqn:E;
    cbn [fst invoice_runs vendor_memory correction_memory correction_hasStatus
         resolution_hasDisabledAt resolution_hasRejectCount duplicate_records
         learning_events audit_events set_resolution_memory];
    repeat split; now rewrite E.
Qed.

Lemma recordResolutionDecision_other db vendor key dec invoiceId wall v k :
  (v, k) <> (vendor, key) ->
  resolutionRow (fst (recordResolutionDecision db vendor key dec invoiceId wall)) v k
  = resolutionRow db v k.
Proof.
  intros Hne. unfold recordResolutionDecision, upsertResolution, resolutionRow.
  cbv zeta.
  pose proof (resolutionKeyIs_other vendor key v k) as Hoth.
  destruct (resolution_hasRejectCount db);
    destruct (existsb (resolutionKeyIs vendor key) (resolution_memory db));
    cbn [fst resolution_memory set_resolution_memory].
  all: rewrite ?find_updateWhere_other
         by (try reflexivity; intros x Hx; now apply Hoth).
  all: try reflexivity.
  all: rewrite find_app;
       match goal with
       | |- match find ?p ?l with _ => _ end = _ => destruct (find p l)
       end; [reflexivity|]; cbn [find].
  all: match goal with
       | |- (if resolutionKeyIs ?a ?b ?n then _ else _) = _ =>
           destruct (resolutionKeyIs a b n) eqn:Hn; [|reflexivity];
           apply Hoth in Hn; [|assumption];
           unfold resolutionKeyIs in Hn; cbn in Hn;
           rewrite !String.eqb_refl in Hn; discriminate
       end.
Qed.

Lemma recordResolutionDecision_rows db vendor key dec invoiceId wall y :
  In y (resolution_memory
          (fst (recordResolutionDecision db vendor key dec invoiceId wall))) ->
  resolutionKeyIs vendor key y = true ->
  let old := resolutionRow db vendor key in
  let value0 := resolutionValueOf old in
  let disableNow :=
    resolution_hasDisabledAt db
    && match dec with
       | Rejected => (2 <=? rv_rejected value0 + 1)%Z && (rv_approved value0 =? 0)%Z
       | Approved => false
       end in
  rm_disabledAt y
  = if resolution_hasDisabledAt db
    then (if disableNow then TsAt wall
          else match old with Some e => rm_disabledAt e | None => TsNull end)
    else rm_disabledAt y.
Proof.
  cbv zeta. unfold recordResolutionDecision.
  rewrite existingAny_is_resolutionRow.
  unfold upsertResolution. cbv zeta.
  rewrite existsb_find. fold (resolutionRow db vendor key).
  unfold resolutionValueOf.
  destruct (resolution_hasDisabledAt db) eqn:Hda; [|reflexivity].
  intros Hy Hk.
  destruct (resolutionRow db vendor key) as [e|] eqn:E;
    destruct (resolution_hasRejectCount db);
    cbn [fst snd resolution_memory set_resolution_memory p_value p_confidence
         p_lastUsedAt p_disabledAt] in Hy.
  all: unfold resolutionRow in E.
  all: repeat (apply In_updateWhere in Hy; destruct Hy as (? & Hy & ->)).
  all: try (apply in_app_iff in Hy as [Hy|[<-|[]]]).
  all: try (pose proof (find_none _ _ E _ Hy)).
  all: cbn [rm_vendor rm_key] in *.
  all: repeat match goal with
         | H : context [if resolutionKeyIs ?v ?k ?x then _ else _] |- _ =>
             destruct (resolutionKeyIs v k x) eqn:?
         | |- context [if resolutionKeyIs ?v ?k ?x then _ else _] =>
             destruct (resolutionKeyIs v k x) eqn:?
         end; try congruence.
  all: cbn [rm_disabledAt andb defaultValue rv_rejected rv_approved];
       destruct dec; reflexivity.
Qed.

Lemma countWhere_updateWhere {A} (p q : A -> bool) (f : A -> A) l :
  (forall x, q (f x) = q x) ->
  countWhere q (updateWhere p f l) = countWhere q l.
Proof.
  intros Hq. unfold countWhere, updateWhere.
  induction l as [|a l IH]; [reflexivity|].
  simpl. destruct (p a); rewrite ?Hq; destruct (q a); simpl; now rewrite IH.
Qed.

Lemma countWhere_find_none {A} (p : A -> bool) l :
  find p l = None -> countWhere p l = 0%nat.
Proof.
  intros H. unfold countWhere.
  rewrite filter_nil_of; [reflexivity|].
  intros x Hx. exact (find_none _ _ H _ Hx).
Qed.

Lemma recordResolutionDecision_count db vendor key dec invoiceId wall :
  countWhere (resolutionKeyIs vendor key)
    (resolution_memory
       (fst (recordResolutionDecision db vendor key dec invoiceId wall)))
  = Nat.max 1 (countWhere (resolutionKeyIs vendor key) (resolution_memory db)).
Proof.
  unfold recordResolutionDecision, upsertResolution. cbv zeta.
  rewrite existsb_find.
  destruct (find (resolutionKeyIs vendor key) (resolution_memory db))
    as [e|] eqn:E;
    destruct (resolution_hasRejectCount db);
    cbn [fst resolution_memory set_resolution_memory].
  1,2: rewrite !countWhere_updateWhere by reflexivity.
  1,2: apply find_In in E as [Hin Hp];
       unfold countWhere;
       assert (Hf : In e (filter (resolutionKeyIs vendor key) (resolution_memory db)))
         by (apply filter_In; now split);
       destruct (filter (resolutionKeyIs vendor key) (resolution_memory db));
       [contradiction | reflexivity].
  1: rewrite countWhere_updateWhere by reflexivity.
  all: rewrite (countWhere_find_none _ _ E).
  all: unfold countWhere; rewrite filter_app, length_app;
       fold (countWhere (resolutionKeyIs vendor key) (resolution_memory db));
       rewrite (countWhere_find_none _ _ E).
  all: cbn [filter]; unfold resolutionKeyIs at 1; cbn [rm_vendor rm_key];
       rewrite !String.eqb_refl; reflexivity.
Qed.

(** X4.  Recording a decision and looking the key up.  After
    [recordResolutionDecision] the row stored under [(vendor, key)] holds
    the counters of the row that was there (zero for a new key) with the
    counter of the decision raised by one, the decision and the invoice as
    last decision, and [lastUsedAt] stamped; it is the value and the
    confidence the call returns.  An approval raises the stored confidence
    by 0.05 up to 0.95, a rejection lowers it by 0.1 down to 0.2 (further,
    to at most 0.2, when the rejection disables the key), so a confidence
    within [[0.2, 0.95]] stays there.  The reject-count column, where the
    schema has one, counts rejections only.  Rows under other keys, and
    every other table, are untouched, and a key that had at most one row
    has exactly one afterwards. *)
Theorem recordResolutionDecision_lookup
    (db : Db) (vendor key : string) (dec : Decision) (invoiceId : string)
    (wall : Z) :
  let old := resolutionRow db vendor key in
  let res := recordResolutionDecision db vendor key dec invoiceId wall in
  let db' := fst res in
  (exists r',
     resolutionRow db' vendor key = Some r'
     /\ rm_value r' = fst (snd res)
     /\ rm_confidence r' = snd (snd res)
     /\ rv_approved (rm_value r')
        = (rv_approved (resolutionValueOf old)
           + match dec with Approved => 1 | Rejected => 0 end)%Z
     /\ rv_rejected (rm_value r')
        = (rv_rejected (resolutionValueOf old)
           + match dec with Rejected => 1 | Approved => 0 end)%Z
     /\ rv_lastDecision (rm_value r') = Some dec
     /\ rv_lastInvoiceId (rm_value r') = Some invoiceId
     /\ rm_lastUsedAt r' = TsAt wall
     /\ (dec = Approved ->
         rm_confidence r' = Rmin 0.95 (resolutionConfidenceOf old + 0.05))
     /\ (dec = Rejected ->
         rm_confidence r' <= Rmax 0.2 (resolutionConfidenceOf old - 0.1))
     /\ (0.2 <= resolutionConfidenceOf old <= 0.95 ->
         0.2 <= rm_confidence r' <= 0.95)
     /\ rm_rejectCount r'
        = (match old with Some e => rm_rejectCount e | None => 0 end
           + (if resolution_hasRejectCount db
              then match dec with Rejected => 1 | Approved => 0 end
              else 0))%Z)
  /\ (forall v k, (v, k) <> (vendor, key) ->
        resolutionRow db' v k = resolutionRow db v k)
  /\ ((countWhere (resolutionKeyIs vendor key) (resolution_memory db) <= 1)%nat ->
      countWhere (resolutionKeyIs vendor key) (resolution_memory db') = 1%nat)
  /\ (invoice_runs db' = invoice_runs db
      /\ vendor_memory db' = vendor_memory db
      /\ correction_memory db' = correction_memory db
      /\ duplicate_records db' = duplicate_records db
      /\ learning_events db' = learning_events db
      /\ audit_events db' = audit_events db).
Proof.
  cbv zeta. split; [|split; [|split]].
  - destruct (recordResolutionDecision_row db vendor key dec invoiceId wall)
      as (r' & H1 & H2 & H3 & H4 & H5 & H6 & H7).
    exists r'. cbv zeta in H5.
    split; [exact H1|]. split; [exact H2|]. split; [exact H3|].
    rewrite H4. cbn [rv_approved rv_rejected rv_lastDecision rv_lastInvoiceId].
    split; [reflexivity|]. split; [reflexivity|]. split; [reflexivity|].
    split; [reflexivity|]. split; [exact H6|].
    rewrite H5. split; [|split; [|split; [|exact H7]]].
    + intros ->. now rewrite andb_false_r.
    + intros ->.
      destruct (resolution_hasDisabledAt db && _); [|lra].
      apply Rmin_l.
    + intros Hb. destruct dec; rewrite ?andb_false_r;
        try destruct (resolution_hasDisabledAt db && _); split_R.
  - intros v k Hne. now apply recordResolutionDecision_other.
  - intros Hle. rewrite recordResolutionDecision_count. lia.
  - pose proof (recordResolutionDecision_frame db vendor key dec invoiceId wall) as H.
    cbv zeta in H. intuition.
Qed.

Lemma getResolution_none_after db vendor key dec invoiceId wall :
  resolution_hasDisabledAt db = true ->
  let old := resolutionRow db vendor key in
  (match dec with
   | Rejected => (2 <=? rv_rejected (resolutionValueOf old) + 1)%Z
                 && (rv_approved (resolutionValueOf old) =? 0)%Z
   | Approved => false
   end = true
   \/ exists e, old = Some e /\ tsIsNull (rm_disabledAt e) = false) ->
  getResolution (fst (recordResolutionDecision db vendor key dec invoiceId wall))
    vendor key = None.
Proof.
  intros Hda old Hcase.
  unfold getResolution.
  destruct (recordResolutionDecision_frame db vendor key dec invoiceId wall)
    as (_ & _ & _ & _ & -> & _).
  rewrite Hda.
  apply find_none_of. intros y Hy.
  destruct (resolutionKeyIs vendor key y) eqn:Hk; [|reflexivity].
  cbn [andb].
  rewrite (recordResolutionDecision_rows db vendor key dec invoiceId wall y Hy Hk).
  rewrite Hda. cbn [andb]. fold old.
  destruct Hcase as [-> | (e & -> & He)]; [reflexivity|].
  destruct (match dec with Approved => false | Rejected => _ end);
    [reflexivity | exact He].
Qed.

(** X5.  Disabling a resolution key is final.  Where the schema has a
    [disabledAt] column, a rejection that brings a key to two or more
    rejections with no approval disables it: the row is stamped, its
    confidence is at most 0.2 and [getResolution] no longer returns it.  A
    key whose row is disabled stays hidden from [getResolution] after any
    further decision, approvals included.  The engine therefore finds no
    history for such a key and leaves the base confidence as it is. *)
Theorem disabled_resolution_is_final
    (db : Db) (vendor key : string) (dec : Decision) (invoiceId : string)
    (wall : Z) :
  let old := resolutionRow db vendor key in
  let db' := fst (recordResolutionDecision db vendor key dec invoiceId wall) in
  (resolution_hasDisabledAt db = true -> dec = Rejected ->
   (1 <= rv_rejected (resolutionValueOf old))%Z ->
   rv_approved (resolutionValueOf old) = 0%Z ->
   (exists r', resolutionRow db' vendor key = Some r'
               /\ rm_disabledAt r' = TsAt wall
               /\ rm_confidence r' <= 0.2)
   /\ getResolution db' vendor key = None)
  /\ (old <> None -> getResolution db vendor key = None ->
      getResolution db' vendor key = None)
  /\ (getResolution db' vendor key = None ->
      forall ops base,
        applyResolutionMemoryToConfidence ops db' vendor key base
        = (base, "No resolution history."%string)).
Proof.
  cbv zeta. split; [|split].
  - intros Hda -> Hr Ha.
    assert (Hnow : (2 <=? rv_rejected (resolutionValueOf (resolutionRow db vendor key)) + 1)%Z
                   && (rv_approved (resolutionValueOf (resolutionRow db vendor key)) =? 0)%Z
                   = true).
    { apply andb_true_intro. split; [apply Z.leb_le; lia | apply Z.eqb_eq; exact Ha]. }
    split.
    + destruct (recordResolutionDecision_row db vendor key Rejected invoiceId wall)
        as (r' & H1 & _ & _ & _ & H5 & _).
      exists r'. split; [exact H1|]. split.
      * apply find_In in H1 as [Hin Hk].
        rewrite (recordResolutionDecision_rows db vendor key Rejected invoiceId
                   wall r' Hin Hk).
        rewrite Hda. cbn [andb]. now rewrite Hnow.
      * rewrite H5. cbv zeta. rewrite Hda. cbn [andb]. rewrite Hnow.
        apply Rmin_r.
    + apply getResolution_none_after; [exact Hda | left; exact Hnow].
  - intros Hold Hnone.
    destruct (resolutionRow db vendor key) as [e|] eqn:E; [|contradiction].
    unfold getResolution in Hnone.
    destruct (resolution_hasDisabledAt db) eqn:Hda.
    + apply getResolution_none_after; [exact Hda|].
      right. exists e. split; [exact E|].
      unfold resolutionRow in E. apply find_In in E as [Hin Hk].
      pose proof (find_none _ _ Hnone _ Hin) as H. cbn beta in H.
      now rewrite Hk in H.
    + unfold resolutionRow in E. congruence.
  - intros Hnone ops base. unfold applyResolutionMemoryToConfidence.
    now rewrite Hnone.
Qed.

(** ** Shaping a confidence by the resolution history *)

(** The adjusted confidence in closed form. *)
Lemma applyResolutionMemoryToConfidence_fst ops db vendor key base :
  fst (applyResolutionMemoryToConfidence ops db vendor key base)
  = match getResolution db vendor key with
    | None => base
    | Some res =>
        if (1 <=? rv_rejected (rm_value res))%Z then Rmax 0.2 (base - 0.2)
        else if (2 <=? rv_approved (rm_value res))%Z
                && (rv_rejected (rm_value res) =? 0)%Z
             then Rmin 0.95 (base + 0.15)
             else base
    end.
Proof.
  unfold applyResolutionMemoryToConfidence.
  destruct (getResolution db vendor key); reflexivity.
Qed.

Lemma shaped_unit_interval ops db vendor key base :
  0 <= base <= 1 ->
  0 <= fst (applyResolutionMemoryToConfidence ops db vendor key base) <= 1.
Proof.
  intros Hb. rewrite applyResolutionMemoryToConfidence_fst.
  destruct (getResolution db vendor key) as [res|]; [|exact Hb].
  destruct (1 <=? _)%Z; [split_R|].
  destruct (_ && _); [split_R | exact Hb].
Qed.

(** X6.  How the engine shapes a base confidence by the resolution history
    of a strategy.  For a base within [[0.2, 0.95]] the result stays within
    [[0.2, 0.95]], at most 0.2 below and at most 0.15 above the base.  A
    single rejection on record outweighs any number of approvals: the result
    is then the base lowered by 0.2, floored at 0.2, and never above the
    base.  Without a rejection the result is never below the base, and it is
    above it only from the second approval on.  A strategy without a visible
    row leaves the base as it is. *)
Theorem resolution_shaping_bounds
    (ops : JsOps) (db : Db) (vendor key : string) (base : R)
    (Hbase : 0.2 <= base <= 0.95) :
  let adjusted := fst (applyResolutionMemoryToConfidence ops db vendor key base) in
  0.2 <= adjusted <= 0.95
  /\ base - 0.2 <= adjusted <= base + 0.15
  /\ (getResolution db vendor key = None -> adjusted = base)
  /\ (forall res, getResolution db vendor key = Some res ->
        ((1 <= rv_rejected (rm_value res))%Z ->
         adjusted = Rmax 0.2 (base - 0.2) /\ adjusted <= base)
        /\ ((rv_rejected (rm_value res) < 1)%Z -> base <= adjusted)
        /\ ((rv_approved (rm_value res) < 2)%Z ->
            (rv_rejected (rm_value res) < 1)%Z -> adjusted = base)).
Proof.
  cbv zeta. rewrite applyResolutionMemoryToConfidence_fst.
  destruct (getResolution db vendor key) as [res|].
  2:{ split; [lra|]. split; [lra|]. split; [reflexivity|]. intros res' [=]. }
  destruct (1 <=? rv_rejected (rm_value res))%Z eqn:Er.
  - apply Z.leb_le in Er.
    split; [split_R|]. split; [split_R|]. split; [discriminate|].
    intros res' [= <-]. split; [|split]; intros; try lia.
    split; [reflexivity | split_R].
  - apply Z.leb_gt in Er.
    destruct ((2 <=? rv_approved (rm_value res))%Z
              && (rv_rejected (rm_value res) =? 0)%Z) eqn:Ea.
    + apply andb_prop in Ea as [Ea _]. apply Z.leb_le in Ea.
      split; [split_R|]. split; [split_R|]. split; [discriminate|].
      intros res' [= <-]. split; [|split]; intros; try lia. split_R.
    + split; [lra|]. split; [lra|]. split; [discriminate|].
      intros res' [= <-]. split; [|split]; intros; try lia; try lra.
Qed.

Lemma resolution_shaping_bounds_witness :
  0.2 <= fst (applyResolutionMemoryToConfidence plainOps emptyDb
                "Supplier GmbH" RES_currency 0.7) <= 0.95.
Proof.
  assert (Hb : 0.2 <= 0.7 <= 0.95) by lra.
  exact (proj1 (resolution_shaping_bounds plainOps emptyDb "Supplier GmbH"
                  RES_currency 0.7 Hb)).
Defined.

Lemma approval_ratio_bounds (a r : Z) :
  (0 <= a)%Z -> (0 <= r)%Z -> (a + r)%Z <> 0%Z ->
  0 <= IZR a / IZR (a + r) <= 1
  /\ ((r <= a)%Z -> / 2 <= IZR a / IZR (a + r))
  /\ ((a <= r)%Z -> IZR a / IZR (a + r) <= / 2).
Proof.
  intros Ha Hr Ht.
  assert (Ha' : 0 <= IZR a) by now apply IZR_le.
  assert (Hr' : 0 <= IZR r) by now apply IZR_le.
  assert (Ht' : 0 < IZR (a + r)) by (apply IZR_lt; lia).
  rewrite plus_IZR in *.
  set (t := IZR a + IZR r) in *.
  assert (Hx : IZR a / t * t = IZR a) by (field; lra).
  set (x := IZR a / t) in *.
  split; [split|split].
  - apply Rmult_le_reg_r with t; [assumption|]. rewrite Hx. lra.
  - apply Rmult_le_reg_r with t; [assumption|]. rewrite Hx. unfold t. lra.
  - intros H. apply IZR_le in H.
    apply Rmult_le_reg_r with t; [assumption|]. rewrite Hx. unfold t. lra.
  - intros H. apply IZR_le in H.
    apply Rmult_le_reg_r with t; [assumption|]. rewrite Hx. unfold t. lra.
Qed.

(** X7.  The store's own shaping, [applyResolutionToConfidence].  No visible
    row, or a row whose counters sum to zero, leaves the base as it is.  Two
    or more rejections and no approval cap the confidence at 0.6 (and never
    raise it).  Otherwise, counters being non-negative, the base moves by
    at most 0.1, towards higher confidence exactly when approvals are the
    majority, and the result is clamped to [[0.2, 0.95]]. *)
Theorem applyResolutionToConfidence_bounds
    (ops : JsOps) (db : Db) (vendor key : string) (base : R) :
  let next := fst (applyResolutionToConfidence ops db vendor key base) in
  (getResolution db vendor key = None -> next = base)
  /\ (forall row, getResolution db vendor key = Some row ->
        let a := rv_approved (rm_value row) in
        let r := rv_rejected (rm_value row) in
        ((a + r)%Z = 0%Z -> next = base)
        /\ ((2 <= r)%Z -> a = 0%Z -> next = Rmin base 0.6 /\ next <= base)
        /\ ((0 <= a)%Z -> (0 <= r)%Z -> (a + r)%Z <> 0%Z ->
            ~ ((2 <= r)%Z /\ a = 0%Z) ->
            0.2 <= next <= 0.95
            /\ Rmin 0.95 (base - 0.1) <= next <= Rmax 0.2 (base + 0.1)
            /\ ((r <= a)%Z -> Rmin 0.95 base <= next)
            /\ ((a <= r)%Z -> next <= Rmax 0.2 base))).
Proof.
  cbv zeta. unfold applyResolutionToConfidence.
  destruct (getResolution db vendor key) as [row|].
  2:{ split; [reflexivity | intros row' [=]]. }
  split; [discriminate|]. intros row' [= <-].
  set (a := rv_approved (rm_value row)).
  set (r := rv_rejected (rm_value row)).
  destruct (a + r =? 0)%Z eqn:Et.
  { apply Z.eqb_eq in Et. cbn [fst].
    split; [reflexivity|]. split; [intros; lia | intros; lia]. }
  apply Z.eqb_neq in Et.
  destruct ((2 <=? r)%Z && (a =? 0)%Z) eqn:Ecap; cbn [fst].
  - apply andb_prop in Ecap as [E1 E2].
    apply Z.leb_le in E1. apply Z.eqb_eq in E2.
    split; [intros; lia|]. split; [intros; split; [reflexivity | apply Rmin_l]|].
    intros _ _ _ Hn. exfalso. apply Hn. now split.
  - split; [intros; lia|]. split.
    { intros H2 H0. apply Z.leb_le in H2. apply Z.eqb_eq in H0.
      rewrite H2, H0 in Ecap. discriminate. }
    intros Ha Hr _ _.
    destruct (approval_ratio_bounds a r Ha Hr Et) as ([H0 H1] & Hmaj & Hmin).
    set (x := IZR a / IZR (a + r)) in *.
    clearbody x. split; [split_R|]. split; [split; split_R|].
    split; intros H; [specialize (Hmaj H) | specialize (Hmin H)]; split_R.
Qed.

(** ** What a run may do to the store

    Every store a run of the pipeline leaves is reached from the store it
    started on by the store operations listed below; a property of stores
    that each of them preserves is preserved by the run. *)

Section StoreInvariant.

Variable ops : JsOps.
Variable context : Context.
Variables now wall : Z.

Variable I : Db -> Prop.

Hypothesis I_recordDuplicate :
  forall db invoiceId vendor fp dupOf reason,
    I db -> I (recordDuplicate db invoiceId vendor fp dupOf reason now).
Hypothesis I_markRunDuplicate :
  forall db invoiceId dupOf, I db -> I (markRunDuplicate db invoiceId dupOf).
Hypothesis I_logAuditEvent :
  forall db ty vendor invoiceId entityType entityId meta,
    I db -> I (logAuditEvent db now ty vendor invoiceId entityType entityId meta).
Hypothesis I_markUsed :
  forall db id, I db -> I (markUsed db id wall).
Hypothesis I_markRejected :
  forall db id, I db -> I (markRejected db id wall).
Hypothesis I_upsertVendorMemory :
  forall db mem, learnedRow (ctx_vendor context) now mem ->
    I db -> I (upsertVendorMemory db mem).
Hypothesis I_upsertCorrectionMemory :
  forall db row, learnedCorrection (ctx_vendor context) now row ->
    I db -> I (fst (upsertCorrectionMemory db row)).
Hypothesis I_recordResolutionDecision :
  forall db key dec,
    I db ->
    I (fst (recordResolutionDecision db (ctx_vendor context) key dec
              (inv_invoiceId (ctx_extracted context)) wall)).
Hypothesis I_markLearned :
  forall db, I db -> I (markLearned db (inv_invoiceId (ctx_extracted context)) wall).

Let IS (st : RunState) : Prop := I (st_db st).

Section Phases.

Variable vendorMemsAll : list VendorMemory.

Ltac store_step :=
  cbn [st_db withDb pushTrail pushCorrection pushReason pushUpdate
       useResolutionKey useCorrectionMemory raiseScore setScore];
  try apply I_markUsed; assumption.

Lemma applyQtyItem_I st li :
  IS st -> IS (applyQtyItem ops context now wall st li).
Proof. intros H. unfold IS, applyQtyItem in *. repeat break_match; store_step. Qed.

Lemma applyQuantities_I st :
  IS st -> IS (applyQuantities ops context now wall st).
Proof.
  intros H. unfold applyQuantities.
  apply fold_left_invariant; [intros; now apply applyQtyItem_I | exact H].
Qed.

Lemma applyCurrency_I st :
  IS st -> IS (applyCurrency ops context now wall vendorMemsAll st).
Proof. intros H. unfold IS, applyCurrency in *. repeat break_match; store_step. Qed.

Lemma applySkonto_I st :
  IS st -> IS (applySkonto ops context now wall vendorMemsAll st).
Proof. intros H. unfold IS, applySkonto in *. repeat break_match; store_step. Qed.

Lemma applyFreightSku_I st :
  IS st -> IS (applyFreightSku ops context now wall vendorMemsAll st).
Proof. intros H. unfold IS, applyFreightSku in *. repeat break_match; store_step. Qed.

Lemma applyPhase_I st :
  IS st -> IS (applyPhase ops context now wall vendorMemsAll st).
Proof.
  intros H. unfold applyPhase. cbv zeta. unfold IS. cbn [pushTrail st_db].
  unfold applyFreightVendor.
  assert (H3 : IS (applyVatTotals ops context now vendorMemsAll
                     (applyPoInference ops context now vendorMemsAll
                        (applyServiceDate ops context now vendorMemsAll st)))).
  { unfold IS.
    destruct (applyVatTotals_frame ops context now vendorMemsAll
                (applyPoInference ops context now vendorMemsAll
                   (applyServiceDate ops context now vendorMemsAll st)))
      as (-> & _).
    now rewrite applyPoInference_db, applyServiceDate_db. }
  destruct (isFreightVendor ops (ctx_vendor context)).
  - now apply applyFreightSku_I, applySkonto_I, applyCurrency_I, applyQuantities_I.
  - now apply applyCurrency_I, applyQuantities_I.
Qed.

Lemma learnVendorMemory_I kind pattern note st :
  IS st -> IS (learnVendorMemory context now vendorMemsAll kind pattern note st).
Proof.
  intros H. unfold IS, learnVendorMemory. cbv zeta.
  cbn [pushUpdate withDb st_db]. apply I_upsertVendorMemory; [|exact H].
  repeat split. cbn [vm_confidence]. apply Rmin_l.
Qed.

Lemma learnQtyFix_I st fx : IS st -> IS (learnQtyFix ops context now st fx).
Proof.
  intros H. unfold IS, learnQtyFix.
  destruct (skuOfField ops (fc_field fx)); [|exact H].
  cbv zeta. cbn [pushUpdate withDb st_db].
  apply I_upsertCorrectionMemory; [|exact H]. repeat split.
Qed.

Lemma learnApproved_I corrections st :
  IS st -> IS (learnApproved ops context now vendorMemsAll corrections st).
Proof.
  intros H. unfold learnApproved. cbv zeta.
  repeat match goal with
         | |- IS (if ?c then _ else _) => destruct c
         | |- IS (learnVendorMemory _ _ _ _ _ _ _) => apply learnVendorMemory_I
         | |- IS (fold_left _ _ _) =>
             apply fold_left_invariant; [intros; now apply learnQtyFix_I|]
         end; exact H.
Qed.

Lemma learnResolution_I dec st key :
  IS st ->
  IS (learnResolution ops context now wall dec
        (inv_invoiceId (ctx_extracted context)) st key).
Proof.
  intros H. unfold IS, learnResolution.
  pose proof (I_recordResolutionDecision (st_db st) key dec H) as Hr.
  destruct (recordResolutionDecision _ _ _ _ _ _) as [db [value c]].
  cbn [st_db withDb pushTrail]. now apply I_logAuditEvent.
Qed.

Lemma learnPhase_I st :
  IS st -> I (learnStore (learnPhase ops context now wall vendorMemsAll st)).
Proof.
  intros H.
  destruct (learnPhase_cases ops context now wall vendorMemsAll st)
    as [(_ & msg & ->) | [(_ & _ & msg & ->) | [(_ & _ & m & r & _ & ->)
       | (_ & row & dec & _ & _ & _ & Hc)]]].
  - exact H.
  - exact H.
  - cbn [learnStore]. now apply I_markRejected.
  - cbv zeta in Hc. destruct Hc as (ev & msg & ->).
    set (s1 := match dec with
               | Approved => _
               | Rejected => _
               end).
    set (s2 := fold_left _ (st_resKeys s1) s1).
    assert (H1 : IS s1).
    { unfold s1. destruct dec; [now apply learnApproved_I | exact H]. }
    assert (H2 : IS s2).
    { apply fold_left_invariant; [intros; now apply learnResolution_I | exact H1]. }
    cbn [learnStore pushTrail withDb st_db].
    now apply I_logAuditEvent, I_markLearned.
Qed.

End Phases.

(** A run that is not a duplicate needs the operations of the Apply and
    Learn phases only. *)
Lemma runPipeline_store_invariant_nd db :
  detectDuplicate ops db (ctx_extracted context) = NotDuplicate ->
  I db -> I (fst (runPipeline ops db context now wall)).
Proof.
  intros E H.
  destruct (runPipeline_phases ops db context now wall E)
    as (st0 & (Hdb & _) & Hrun).
  cbv zeta in Hrun.
  replace (fst (runPipeline ops db context now wall))
    with (learnStore
            (learnPhase ops context now wall
               (getVendorMemories db (ctx_vendor context))
               (snd (decidePhase ops context now
                       (applyPhase ops context now wall
                          (getVendorMemories db (ctx_vendor context)) st0)))))
    by (rewrite Hrun; now destruct (learnPhase _ _ _ _ _ _)).
  clear Hrun.
  apply learnPhase_I. unfold IS.
  destruct (decidePhase_spec ops context now
              (applyPhase ops context now wall
                 (getVendorMemories db (ctx_vendor context)) st0))
    as (_ & -> & _).
  apply applyPhase_I. unfold IS. now rewrite Hdb.
Qed.

Lemma runPipeline_store_invariant db :
  I db -> I (fst (runPipeline ops db context now wall)).
Proof.
  intros H.
  destruct (detectDuplicate ops db (ctx_extracted context))
    as [|dupOf reason fp] eqn:E.
  2:{ rewrite (runPipeline_duplicate _ _ _ now wall _ _ _ E). cbn [fst].
      now apply I_logAuditEvent, I_markRunDuplicate, I_recordDuplicate. }
  now apply runPipeline_store_invariant_nd.
Qed.

End StoreInvariant.

Lemma upsertCorrectionMemory_frame db row :
  let db' := fst (upsertCorrectionMemory db row) in
  invoice_runs db' = invoice_runs db
  /\ vendor_memory db' = vendor_memory db
  /\ correction_hasStatus db' = correction_hasStatus db
  /\ resolution_memory db' = resolution_memory db
  /\ resolution_hasDisabledAt db' = resolution_hasDisabledAt db
  /\ resolution_hasRejectCount db' = resolution_hasRejectCount db
  /\ duplicate_records db' = duplicate_records db
  /\ learning_events db' = learning_events db
  /\ audit_events db' = audit_events db.
Proof. unfold upsertCorrectionMemory. break_match; repeat split. Qed.

Lemma markLearned_frame db id wall :
  let db' := markLearned db id wall in
  invoice_runs db' = invoice_runs db
  /\ vendor_memory db' = vendor_memory db
  /\ correction_memory db' = correction_memory db
  /\ correction_hasStatus db' = correction_hasStatus db
  /\ resolution_memory db' = resolution_memory db
  /\ resolution_hasDisabledAt db' = resolution_hasDisabledAt db
  /\ resolution_hasRejectCount db' = resolution_hasRejectCount db
  /\ duplicate_records db' = duplicate_records db
  /\ audit_events db' = audit_events db.
Proof. unfold markLearned. break_match; repeat split. Qed.

Lemma upsertVendorMemory_frame db mem :
  let db' := upsertVendorMemory db mem in
  invoice_runs db' = invoice_runs db
  /\ correction_memory db' = correction_memory db
  /\ correction_hasStatus db' = correction_hasStatus db
  /\ resolution_memory db' = resolution_memory db
  /\ resolution_hasDisabledAt db' = resolution_hasDisabledAt db
  /\ resolution_hasRejectCount db' = resolution_hasRejectCount db
  /\ duplicate_records db' = duplicate_records db
  /\ learning_events db' = learning_events db
  /\ audit_events db' = audit_events db.
Proof. unfold upsertVendorMemory. cbv zeta. break_match; repeat split. Qed.

(** A property of the vendor-memory table alone. *)
Section VendorTable.

Variable ops : JsOps.
Variable context : Context.
Variables now wall : Z.
Variable P : list VendorMemory -> Prop.
Hypothesis P_upsert :
  forall db mem, learnedRow (ctx_vendor context) now mem ->
    P (vendor_memory db) -> P (vendor_memory (upsertVendorMemory db mem)).

Lemma runPipeline_vendor_invariant db :
  P (vendor_memory db) ->
  P (vendor_memory (fst (runPipeline ops db context now wall))).
Proof.
  apply (runPipeline_store_invariant ops context now wall
           (fun d => P (vendor_memory d))); try (intros; assumption).
  - exact P_upsert.
  - intros d row _ H. now rewrite upsertCorrectionMemory_vendor.
  - intros d key dec H. now rewrite recordResolutionDecision_vendor.
  - intros d H. now rewrite markLearned_vendor.
Qed.

End VendorTable.

(** A property of the correction-memory table and its schema flag alone. *)
Section CorrectionTable.

Variable ops : JsOps.
Variable context : Context.
Variables now wall : Z.
Variable P : list CorrectionMemoryRow -> Prop.
Hypothesis P_markUsed :
  forall db id, P (correction_memory db) ->
    P (correction_memory (markUsed db id wall)).
Hypothesis P_markRejected :
  forall db id, P (correction_memory db) ->
    P (correction_memory (markRejected db id wall)).
Hypothesis P_upsert :
  forall db row, learnedCorrection (ctx_vendor context) now row ->
    P (correction_memory db) ->
    P (correction_memory (fst (upsertCorrectionMemory db row))).

Lemma runPipeline_correction_invariant db :
  P (correction_memory db) ->
  P (correction_memory (fst (runPipeline ops db context now wall))).
Proof.
  apply (runPipeline_store_invariant ops context now wall
           (fun d => P (correction_memory d))); try (intros; assumption).
  - exact P_markUsed.
  - exact P_markRejected.
  - intros d mem _ H.
    now destruct (upsertVendorMemory_frame d mem) as (_ & -> & _).
  - exact P_upsert.
  - intros d key dec H.
    now destruct (recordResolutionDecision_frame d (ctx_vendor context) key dec
                    (inv_invoiceId (ctx_extracted context)) wall)
      as (_ & _ & -> & _).
  - intros d H.
    now destruct (markLearned_frame d (inv_invoiceId (ctx_extracted context)) wall)
      as (_ & _ & -> & _).
Qed.

End CorrectionTable.

(** A property of the resolution-memory table alone. *)
Section ResolutionTable.

Variable ops : JsOps.
Variable context : Context.
Variables now wall : Z.
Variable P : list ResolutionMemoryRow -> Prop.
Hypothesis P_record :
  forall db key dec,
    P (resolution_memory db) ->
    P (resolution_memory
         (fst (recordResolutionDecision db (ctx_vendor context) key dec
                 (inv_invoiceId (ctx_extracted context)) wall))).

Lemma runPipeline_resolution_invariant db :
  P (resolution_memory db) ->
  P (resolution_memory (fst (runPipeline ops db context now wall))).
Proof.
  apply (runPipeline_store_invariant ops context now wall
           (fun d => P (resolution_memory d))); try (intros; assumption).
  - intros d mem _ H.
    now destruct (upsertVendorMemory_frame d mem) as (_ & _ & _ & -> & _).
  - intros d row _ H.
    now destruct (upsertCorrectionMemory_frame d row) as (_ & _ & _ & -> & _).
  - exact P_record.
  - intros d H.
    now destruct (markLearned_frame d (inv_invoiceId (ctx_extracted context)) wall)
      as (_ & _ & _ & _ & -> & _).
Qed.

End ResolutionTable.

(** ** Invariants of the store across a run *)

Lemma adminDisabled_upsert id db mem :
  adminDisabled id db -> adminDisabled id (upsertVendorMemory db mem).
Proof.
  intros [(m0 & Hm0 & Hid0) Hall].
  unfold adminDisabled, upsertVendorMemory. cbv zeta.
  destruct (existsb (fun m => String.eqb (vm_id m) (vm_id mem)) (vendor_memory db))
    eqn:Ex; cbn [vendor_memory set_vendor_memory].
  - split.
    + exists (if String.eqb (vm_id m0) (vm_id mem)
              then mkVendorMemory (vm_id mem) (vm_vendor mem) (vm_kind mem)
                     (vm_pattern mem) (vm_confidence mem) (vm_supportCount mem)
                     (vm_rejectCount mem) (vm_lastUsedAt mem) (vm_status mem)
                     (vm_disabledAt m0)
              else m0).
      split.
      * unfold updateWhere. apply in_map_iff. exists m0. now split.
      * destruct (String.eqb_spec (vm_id m0) (vm_id mem)) as [e|]; [|exact Hid0].
        cbn. congruence.
    + intros m Hm Hid. apply In_updateWhere in Hm as (x & Hx & ->).
      destruct (String.eqb_spec (vm_id x) (vm_id mem)) as [e|ne].
      * cbn in Hid |- *. apply (Hall x Hx). congruence.
      * now apply Hall.
  - split.
    + exists m0. split; [apply in_or_app; now left | exact Hid0].
    + intros m Hm Hid. apply in_app_iff in Hm as [Hm|[<-|[]]]; [now apply Hall|].
      cbn in Hid. exfalso.
      rewrite existsb_find in Ex.
      destruct (find (fun m => String.eqb (vm_id m) (vm_id mem)) (vendor_memory db))
        eqn:Ef; [discriminate|].
      pose proof (find_none _ _ Ef _ Hm0) as Hn. cbn beta in Hn.
      rewrite Hid0, <- Hid, String.eqb_refl in Hn. discriminate.
Qed.

(** X8.  The administrator's disabling is permanent.  [disableVendorMemory]
    of the admin commands stamps [disabledAt] on the entry; from then on no
    run of the pipeline, no upsert, and no confidence reset removes the
    stamp or the entry, and [getVendorMemories] never recalls it, for any
    vendor, although the Learn phase may set its status back to active. *)
Theorem admin_disable_is_permanent (ops : JsOps) (db : Db) (id : string) :
  (forall wall,
     (exists m, In m (vendor_memory db) /\ vm_id m = id) ->
     adminDisabled id (disableVendorMemory db id wall))
  /\ (adminDisabled id db ->
      (forall context now wall,
         adminDisabled id (fst (runPipeline ops db context now wall)))
      /\ (forall mem, adminDisabled id (upsertVendorMemory db mem))
      /\ (forall id' to wall,
            adminDisabled id (resetVendorMemoryConfidence db id' to wall))
      /\ (forall vendor m, In m (getVendorMemories db vendor) -> vm_id m <> id)).
Proof.
  split.
  - intros wall (m0 & Hm0 & Hid0). split.
    + eexists. split.
      * cbn. unfold updateWhere. apply in_map_iff. exists m0. split; [reflexivity|exact Hm0].
      * rewrite Hid0, String.eqb_refl. reflexivity.
    + intros m Hm Hid. cbn in Hm. apply In_updateWhere in Hm as (x & Hx & ->).
      destruct (String.eqb_spec (vm_id x) id) as [e|ne]; [reflexivity|].
      contradiction.
  - intros Had. split; [|split; [|split]].
    + intros context now wall.
      apply (runPipeline_vendor_invariant ops context now wall
               (fun vm => (exists m, In m vm /\ vm_id m = id)
                          /\ forall m, In m vm -> vm_id m = id ->
                               tsNullOrEmpty (vm_disabledAt m) = false)).
      * intros db0 mem _ H. exact (adminDisabled_upsert id db0 mem H).
      * exact Had.
    + intros mem. now apply adminDisabled_upsert.
    + intros id' to wall. destruct Had as [(m0 & Hm0 & Hid0) Hall]. split.
      * eexists. split.
        -- cbn. unfold updateWhere. apply in_map_iff. exists m0.
           split; [reflexivity | exact Hm0].
        -- now destruct (String.eqb (vm_id m0) id').
      * intros m Hm Hid. cbn in Hm. apply In_updateWhere in Hm as (x & Hx & ->).
        destruct (String.eqb (vm_id x) id'); cbn in Hid |- *; now apply Hall.
    + intros vendor m Hm Hid. destruct Had as [_ Hall].
      unfold getVendorMemories in Hm. apply filter_In in Hm as [Hm Hp].
      rewrite (Hall m Hm Hid) in Hp. now rewrite andb_false_r in Hp.
Qed.

(** *** Correction memory only grows *)

Lemma cmKept_refl m : cmKept m m.
Proof. repeat split; try lia. auto. Qed.

Lemma cmKept_trans a b c : cmKept a b -> cmKept b c -> cmKept a c.
Proof.
  unfold cmKept. intros H1 H2.
  decompose [and] H1. decompose [and] H2.
  repeat split; try congruence; try lia. auto.
Qed.

Lemma cmKept_step (f : CorrectionMemoryRow -> CorrectionMemoryRow)
      (p : CorrectionMemoryRow -> bool) rows rows0 :
  (forall x, cmKept x (f x)) ->
  (forall m, In m rows0 -> exists m', In m' rows /\ cmKept m m') ->
  forall m, In m rows0 ->
    exists m', In m' (updateWhere p f rows) /\ cmKept m m'.
Proof.
  intros Hf H m Hm. destruct (H m Hm) as (m' & Hm' & Hk).
  exists (if p m' then f m' else m'). split.
  - unfold updateWhere. apply in_map_iff. exists m'. now split.
  - destruct (p m'); [|exact Hk].
    eapply cmKept_trans; [exact Hk | apply Hf].
Qed.

(** X9.  Correction memory only grows under the pipeline.  Whatever a run
    does, every entry stored before it is still stored after it under the
    same id, with the same vendor, key, recommendation and creation stamp;
    its support and reject counts have not gone down; and if it was
    disabled it is still disabled: no run deletes an entry, rewrites what
    it recommends, or re-enables it. *)
Theorem correction_memory_only_grows
    (ops : JsOps) (db : Db) (context : Context) (now wall : Z)
    (m : CorrectionMemoryRow) :
  In m (correction_memory db) ->
  exists m',
    In m' (correction_memory (fst (runPipeline ops db context now wall)))
    /\ cmKept m m'.
Proof.
  revert m.
  apply (runPipeline_correction_invariant ops context now wall
           (fun rows => forall m, In m (correction_memory db) ->
                          exists m', In m' rows /\ cmKept m m')).
  - intros d id H. cbn [markUsed correction_memory set_correction_memory].
    apply cmKept_step; [|exact H].
    intros x. repeat split; cbn; try lia. auto.
  - intros d id H. cbn [markRejected correction_memory set_correction_memory].
    apply cmKept_step; [|exact H].
    intros x. unfold rejectedRow. repeat split; cbn; try lia.
    intros ->. repeat break_match; reflexivity.
  - intros d row _ H. unfold upsertCorrectionMemory.
    destruct (find _ (correction_memory d));
      cbn [fst correction_memory set_correction_memory].
    + apply cmKept_step; [|exact H].
      intros x. repeat split; cbn; try lia. auto.
    + intros m Hm. destruct (H m Hm) as (m' & Hm' & Hk).
      exists m'. split; [apply in_or_app; now left | exact Hk].
  - intros m Hm. exists m. split; [exact Hm | apply cmKept_refl].
Qed.

Lemma correction_memory_only_grows_witness :
  exists m',
    In m' (correction_memory
             (fst (runPipeline plainOps learnedDb approvedCurrency 10 11)))
    /\ cmKept usedCurrencyEntry m'.
Proof.
  apply (correction_memory_only_grows plainOps learnedDb approvedCurrency 10 11
           usedCurrencyEntry).
  left. reflexivity.
Defined.

(** *** Stored confidences stay capped *)

Lemma Forall_updateWhere {A} (Q : A -> Prop) (p : A -> bool) (f : A -> A) l :
  (forall x, In x l -> p x = true -> Q (f x)) ->
  Forall Q l -> Forall Q (updateWhere p f l).
Proof.
  intros Hf H. apply Forall_forall. intros y Hy.
  apply In_updateWhere in Hy as (x & Hx & ->).
  destruct (p x) eqn:E; [now apply Hf|].
  rewrite Forall_forall in H. now apply H.
Qed.

Lemma Forall_updateWhere_keep {A} (Q : A -> Prop) (p : A -> bool) (f : A -> A) l :
  (forall x, Q x -> Q (f x)) -> Forall Q l -> Forall Q (updateWhere p f l).
Proof.
  intros Hf H. apply Forall_updateWhere; [|exact H].
  intros x Hx _. apply Hf. rewrite Forall_forall in H. now apply H.
Qed.

Lemma Forall_snoc {A} (Q : A -> Prop) l x :
  Forall Q l -> Q x -> Forall Q (l ++ [x]).
Proof. intros H Hx. apply Forall_app. split; [exact H | now constructor]. Qed.

Lemma recordResolutionDecision_confidences db vendor key dec invoiceId wall :
  Forall (fun r => 0.2 <= rm_confidence r <= 0.95) (resolution_memory db) ->
  Forall (fun r => 0.2 <= rm_confidence r <= 0.95)
    (resolution_memory
       (fst (recordResolutionDecision db vendor key dec invoiceId wall))).
Proof.
  intros H.
  assert (Hold : 0.2 <= resolutionConfidenceOf (resolutionRow db vendor key) <= 0.95).
  { unfold resolutionConfidenceOf, resolutionRow.
    destruct (find _ (resolution_memory db)) as [e|] eqn:E; [|lra].
    apply find_In in E as [Hin _]. rewrite Forall_forall in H. now apply H. }
  unfold recordResolutionDecision.
  rewrite existingAny_is_resolutionRow.
  unfold upsertResolution. cbv zeta.
  unfold resolutionConfidenceOf in Hold.
  set (old := resolutionRow db vendor key) in *.
  assert (Hc : forall b : bool,
             0.2 <= (if b
                     then Rmin match dec with
                               | Approved => Rmin 0.95 (match old with Some e => rm_confidence e | None => 0.5 end + 0.05)
                               | Rejected => Rmax 0.2 (match old with Some e => rm_confidence e | None => 0.5 end - 0.1)
                               end 0.2
                     else match dec with
                          | Approved => Rmin 0.95 (match old with Some e => rm_confidence e | None => 0.5 end + 0.05)
                          | Rejected => Rmax 0.2 (match old with Some e => rm_confidence e | None => 0.5 end - 0.1)
                          end) <= 0.95).
  { intros b. destruct b, dec; split_R. }
  destruct (resolution_hasRejectCount db);
    destruct (existsb (resolutionKeyIs vendor key) (resolution_memory db));
    cbn [fst resolution_memory set_resolution_memory p_value p_confidence
         p_lastUsedAt p_disabledAt].
  all: repeat first
         [ apply Forall_updateWhere_keep; [intros x Hx; exact Hx|]
         | apply Forall_updateWhere; [intros x _ _; cbn [rm_confidence]|]
         | apply Forall_snoc; [|cbn [rm_confidence]] ].
  all: try exact H.
  all: try apply Hc.
Qed.

(** X10.  Stored confidences stay capped across a run.  If no
    vendor-memory entry holds a confidence above 0.95 before a run, none
    does after it, and the same holds of correction memory; and if every
    resolution row holds a confidence within [[0.2, 0.95]] before a run,
    every row does after it. *)
Theorem stored_confidences_stay_capped
    (ops : JsOps) (db : Db) (context : Context) (now wall : Z) :
  let db' := fst (runPipeline ops db context now wall) in
  (Forall (fun m => vm_confidence m <= 0.95) (vendor_memory db) ->
   Forall (fun m => vm_confidence m <= 0.95) (vendor_memory db'))
  /\ (Forall (fun m => cm_confidence m <= 0.95) (correction_memory db) ->
      Forall (fun m => cm_confidence m <= 0.95) (correction_memory db'))
  /\ (Forall (fun r => 0.2 <= rm_confidence r <= 0.95) (resolution_memory db) ->
      Forall (fun r => 0.2 <= rm_confidence r <= 0.95) (resolution_memory db')).
Proof.
  cbv zeta. split; [|split].
  - apply (runPipeline_vendor_invariant ops context now wall
             (Forall (fun m => vm_confidence m <= 0.95))).
    intros d mem (_ & _ & _ & Hc & _) H.
    unfold upsertVendorMemory. cbv zeta.
    destruct (existsb _ (vendor_memory d)); cbn [vendor_memory set_vendor_memory].
    + apply Forall_updateWhere; [|exact H]. intros; exact Hc.
    + apply Forall_snoc; [exact H | exact Hc].
  - apply (runPipeline_correction_invariant ops context now wall
             (Forall (fun m => cm_confidence m <= 0.95))).
    + intros d id H. cbn [markUsed correction_memory set_correction_memory].
      apply Forall_updateWhere; [|exact H].
      intros x Hx _. cbn. rewrite Forall_forall in H. now apply H.
    + intros d id H. cbn [markRejected correction_memory set_correction_memory].
      apply Forall_updateWhere; [|exact H].
      intros x Hx _. cbn. rewrite Forall_forall in H. now apply H.
    + intros d row (_ & _ & _ & Hc & _) H. unfold upsertCorrectionMemory.
      destruct (find _ (correction_memory d));
        cbn [fst correction_memory set_correction_memory].
      * apply Forall_updateWhere; [|exact H]. intros; cbn. apply Rmin_l.
      * apply Forall_snoc; [exact H|]. cbn. rewrite Hc. lra.
  - apply (runPipeline_resolution_invariant ops context now wall
             (Forall (fun r => 0.2 <= rm_confidence r <= 0.95))).
    intros d key dec H. now apply recordResolutionDecision_confidences.
Qed.

(** ** What the Apply phase proposes *)

Lemma baseAfterDecayVendor_unit canUse mem base now :
  0 <= base <= 1 -> 0 <= baseAfterDecayVendor canUse mem base now <= 1.
Proof.
  intros H. unfold baseAfterDecayVendor.
  destruct canUse; [apply decayedConfidence_bounds | exact H].
Qed.

Lemma baseAfterDecayCorrection_unit now canUse base :
  0 <= base <= 1 -> 0 <= baseAfterDecayCorrection now canUse base <= 1.
Proof.
  intros H. unfold baseAfterDecayCorrection.
  destruct canUse; [apply decayedConfidence_bounds | exact H].
Qed.

Lemma baseAfterDecayCorrection_some now m base :
  0 <= baseAfterDecayCorrection now (Some m) base <= 1.
Proof. apply decayedConfidence_bounds. Qed.

Lemma canApply_found (p : VendorMemory -> bool) mems now :
  canApplyVendorMem (find p mems) now = true ->
  exists m, In m mems /\ canApplyVendorMem (Some m) now = true.
Proof.
  destruct (find p mems) as [m|] eqn:E; [|discriminate].
  intros H. exists m. split; [exact (proj1 (find_some _ _ E)) | exact H].
Qed.

Lemma findCorrectionMemory_In db vendor fieldPath patternType patternValue m :
  findCorrectionMemory db vendor fieldPath patternType patternValue = Some m ->
  In m (correction_memory db) /\ cm_vendor m = vendor.
Proof.
  unfold findCorrectionMemory.
  destruct (correction_hasStatus db); intros H; apply find_In in H as [Hin Hp];
    (split; [exact Hin|]).
  - apply andb_prop in Hp as [Hp _]. do 3 apply andb_prop in Hp as [Hp _].
    now apply String.eqb_eq.
  - do 3 apply andb_prop in Hp as [Hp _]. now apply String.eqb_eq.
Qed.

Lemma usable_trusted now db vendor fieldPath patternType patternValue found res m :
  findCorrectionMemory db vendor fieldPath patternType patternValue = found ->
  usableCorrectionMem now found res = Some m ->
  In m (correction_memory db) /\ trustedEntry vendor m.
Proof.
  intros E. unfold usableCorrectionMem.
  destruct found as [m0|]; [|discriminate].
  destruct (isSuspectCorrectionMemory (Some m0) res now) eqn:Es; [discriminate|].
  intros [= <-].
  apply findCorrectionMemory_In in E as [Hin Hv].
  apply isSuspectCorrectionMemory_trusted in Es as (H1 & H2 & _ & H4 & _).
  split; [exact Hin|]. repeat split; assumption.
Qed.

Lemma proposalOk_markUsed context now vendorMemsAll db id wall c :
  proposalOk context now vendorMemsAll db c ->
  proposalOk context now vendorMemsAll (markUsed db id wall) c.
Proof.
  unfold proposalOk. cbv zeta.
  intros (H1 & H2 & H3 & H4). split; [exact H1|]. split; [exact H2|].
  split; [|exact H4].
  intros Hs. destruct (H3 Hs) as (m & Hm & Ht).
  exists (if String.eqb (cm_id m) id
          then mkCorrectionMemory (cm_id m) (cm_vendor m) (cm_fieldPath m)
                 (cm_patternType m) (cm_patternValue m) (cm_recommendedValue m)
                 (cm_confidence m) (cm_supportCount m) (cm_rejectCount m)
                 (TsAt wall) (cm_createdAt m) (cm_status m)
          else m).
  split.
  - cbn. unfold updateWhere. apply in_map_iff. exists m. now split.
  - now destruct (String.eqb (cm_id m) id).
Qed.

Section ProposalInvariant.
Variable ops : JsOps.
Variable context : Context.
Variables now wall : Z.
Variable vendorMemsAll : list VendorMemory.

Let OK := proposalsOk context now vendorMemsAll.

Ltac conf_ok :=
  repeat first
    [ apply shaped_unit_interval
    | apply baseAfterDecayVendor_unit
    | apply baseAfterDecayCorrection_some
    | apply baseAfterDecayCorrection_unit
    | apply decayedConfidence_bounds ];
  lra.

Ltac new_ok :=
  unfold proposalOk; cbv zeta;
  cbn [c_confidence c_source c_field c_from c_to];
  split; [conf_ok|];
  split; [first [discriminate | intros _; eapply canApply_found; eassumption]|];
  split; [first [discriminate
                | intros _; eexists; eapply usable_trusted; eassumption
                | intros _; eexists; eapply usable_trusted;
                  [reflexivity | eassumption] ]|];
  repeat split;
  first [ discriminate
        | intros _; assumption
        | intros _;
          match goal with
          | H : (if ?b then _ else _) = Some _ |- ?b = true =>
              destruct b; [reflexivity | discriminate H]
          end
        | intros [?|?]; discriminate
        | intros _; do 2 eexists; split; [reflexivity|];
          split; [reflexivity|]; apply Rltb_true; assumption ].

Ltac score_ok :=
  first
    [ assumption
    | match goal with
      | |- context [fst (applyResolutionMemoryToConfidence ?o ?d ?v ?k ?b)] =>
          let H := fresh in
          assert (H : 0 <= fst (applyResolutionMemoryToConfidence o d v k b) <= 1)
            by conf_ok;
          revert H;
          generalize (fst (applyResolutionMemoryToConfidence o d v k b));
          intros; split_R
      end ].

Ltac step_ok Hp :=
  first
    [ match goal with
      | H : boolOf (Some _) = false |- _ => discriminate H
      | H : boolOf None = true |- _ => discriminate H
      end
    | cbn [st_proposed st_score pushCorrection pushReason pushTrail raiseScore
           useResolutionKey withDb useCorrectionMemory st_db];
      split;
      [ repeat first
          [ exact Hp
          | apply Forall_snoc; [|new_ok]
          | eapply Forall_impl; [intros ?; apply proposalOk_markUsed|] ]
      | score_ok ] ].

Lemma applyServiceDate_ok st :
  OK st -> OK (applyServiceDate ops context now vendorMemsAll st).
Proof.
  intros [Hp Hs]. unfold OK, proposalsOk, applyServiceDate. cbv zeta.
  repeat break_match; step_ok Hp.
Qed.

Lemma applyPoInference_ok st :
  OK st -> OK (applyPoInference ops context now vendorMemsAll st).
Proof.
  intros [Hp Hs]. unfold OK, proposalsOk, applyPoInference. cbv zeta.
  repeat break_match; step_ok Hp.
Qed.

Lemma applyVatTotals_ok st :
  OK st -> OK (applyVatTotals ops context now vendorMemsAll st).
Proof.
  intros [Hp Hs]. unfold OK, proposalsOk, applyVatTotals. cbv zeta.
  repeat break_match; step_ok Hp.
Qed.

Lemma applyQtyItem_ok st li :
  OK st -> OK (applyQtyItem ops context now wall st li).
Proof.
  intros [Hp Hs]. unfold OK, proposalsOk, applyQtyItem. cbv zeta.
  repeat break_match; step_ok Hp.
Qed.

Lemma applyCurrency_ok st :
  OK st -> OK (applyCurrency ops context now wall vendorMemsAll st).
Proof.
  intros [Hp Hs]. unfold OK, proposalsOk, applyCurrency. cbv zeta.
  repeat break_match; step_ok Hp.
Qed.

Lemma applySkonto_ok st :
  OK st -> OK (applySkonto ops context now wall vendorMemsAll st).
Proof.
  intros [Hp Hs]. unfold OK, proposalsOk, applySkonto. cbv zeta.
  repeat break_match; step_ok Hp.
Qed.

Lemma applyFreightSku_ok st :
  OK st -> OK (applyFreightSku ops context now wall vendorMemsAll st).
Proof.
  intros [Hp Hs]. unfold OK, proposalsOk, applyFreightSku. cbv zeta.
  repeat break_match; step_ok Hp.
Qed.


Lemma applyPhase_ok st :
  OK st -> OK (applyPhase ops context now wall vendorMemsAll st).
Proof.
  intros H. unfold applyPhase. cbv zeta.
  assert (H5 : OK (applyCurrency ops context now wall vendorMemsAll
                     (applyQuantities ops context now wall
                        (applyVatTotals ops context now vendorMemsAll
                           (applyPoInference ops context now vendorMemsAll
                              (applyServiceDate ops context now vendorMemsAll st)))))).
  { apply applyCurrency_ok. unfold applyQuantities.
    apply fold_left_invariant; [intros; now apply applyQtyItem_ok|].
    now apply applyVatTotals_ok, applyPoInference_ok, applyServiceDate_ok. }
  unfold applyFreightVendor.
  destruct (isFreightVendor ops (ctx_vendor context)).
  - exact (applyFreightSku_ok _ (applySkonto_ok _ H5)).
  - exact H5.
Qed.

End ProposalInvariant.

Lemma round2_unit m : 0 <= m <= 1 -> 0 <= round2 m <= 1.
Proof.
  intros [H0 H1]. unfold round2.
  assert (Hz : (0 <= Zfloor (m * 100 + / 2) <= 100)%Z).
  { split.
    - apply Zfloor_lub. lra.
    - pose proof (Zfloor_bound (m * 100 + / 2)) as [Hlo _].
      assert (IZR (Zfloor (m * 100 + / 2)) < IZR 101) by lra.
      apply lt_IZR in H. lia. }
  destruct Hz as [Ha Hb]. apply IZR_le in Ha, Hb. lra.
Qed.


Lemma proposalOk_sameMemory context now vendorMemsAll db db' c :
  sameMemory db db' ->
  proposalOk context now vendorMemsAll db' c ->
  proposalOk context now vendorMemsAll db c.
Proof.
  intros (_ & _ & Hcm & _). unfold proposalOk. cbv zeta.
  intros (H1 & H2 & H3 & H4). split; [exact H1|]. split; [exact H2|].
  split; [|exact H4].
  intros Hs. destruct (H3 Hs) as (m & Hm & Ht).
  assert (Hin : In (forgetLastUsed m) (map forgetLastUsed (correction_memory db)))
    by (rewrite <- Hcm; now apply in_map).
  apply in_map_iff in Hin as (m0 & E & Hm0).
  exists m0. split; [exact Hm0|].
  destruct Ht as (T1 & T2 & T3 & T4).
  assert (E1 : cm_vendor m0 = cm_vendor m)
    by exact (f_equal cm_vendor E).
  assert (E2 : cm_status m0 = cm_status m)
    by exact (f_equal cm_status E).
  assert (E3 : cm_rejectCount m0 = cm_rejectCount m)
    by exact (f_equal cm_rejectCount E).
  assert (E4 : cm_confidence m0 = cm_confidence m)
    by exact (f_equal cm_confidence E).
  unfold trustedEntry. rewrite E1, E2, E3, E4. repeat split; assumption.
Qed.

(** What holds of the proposals and the score a run reports. *)
Lemma runPipeline_proposals ops db context now wall out :
  snd (runPipeline ops db context now wall) = Some out ->
  Forall (proposalOk context now (getVendorMemories db (ctx_vendor context)) db)
    (proposedCorrections out)
  /\ 0 <= confidenceScore out <= 1.
Proof.
  intros Hout.
  destruct (detectDuplicate ops db (ctx_extracted context))
    as [|dupOf reason fp] eqn:E.
  2:{ rewrite (runPipeline_duplicate _ _ _ now wall _ _ _ E) in Hout.
      cbn [snd] in Hout. injection Hout as <-.
      split; [constructor | cbn; lra]. }
  destruct (runPipeline_output ops db context now wall out E Hout)
    as (st0 & sL & (Hdb & Hp0 & _ & _ & _ & Hs0) & H).
  cbv zeta in H. destruct H as (_ & _ & ->).
  cbn [proposedCorrections confidenceScore].
  set (vmAll := getVendorMemories db (ctx_vendor context)).
  set (sA := applyPhase ops context now wall vmAll st0).
  assert (H0 : proposalsOk context now vmAll st0).
  { split; [rewrite Hp0; constructor | rewrite Hs0; unfold initialScore; lra]. }
  destruct (applyPhase_ok ops context now wall vmAll st0 H0) as [Hp Hs].
  fold sA in Hp, Hs.
  destruct (applyPhase_frame ops context now wall vmAll st0) as (Hm & _).
  fold sA in Hm. rewrite Hdb in Hm.
  split.
  - eapply Forall_impl; [|exact Hp].
    intros c. now apply proposalOk_sameMemory.
  - destruct (st_proposed sA) as [|c cs] eqn:Ec; [exact Hs|].
    cbn [map]. apply round2_unit.
    destruct (minOf_least (c_confidence c) (map c_confidence cs)) as [Hin _].
    change (In (minOf (c_confidence c) (map c_confidence cs))
              (map c_confidence (c :: cs))) in Hin.
    apply in_map_iff in Hin as (c' & <- & Hc').
    rewrite Forall_forall in Hp. exact (proj1 (Hp c' Hc')).
Qed.

(** X11.  Every confidence a run reports lies within [[0, 1]]: the
    confidence of each proposed correction and the aggregate
    [confidenceScore], whatever confidences the memory tables hold and
    whether or not the invoice is a duplicate. *)
Theorem confidences_in_unit_interval
    (ops : JsOps) (db : Db) (context : Context) (now wall : Z)
    (out : AgentOutput)
    (Hout : snd (runPipeline ops db context now wall) = Some out) :
  0 <= confidenceScore out <= 1
  /\ Forall (fun c => 0 <= c_confidence c <= 1) (proposedCorrections out).
Proof.
  destruct (runPipeline_proposals ops db context now wall out Hout) as [Hp Hs].
  split; [exact Hs|].
  eapply Forall_impl; [|exact Hp]. intros c H. exact (proj1 H).
Qed.

Lemma confidences_in_unit_interval_witness :
  exists out,
    snd (runPipeline plainOps disabledDb approvedServiceDate 10 11)
    = Some out
    /\ 0 <= confidenceScore out <= 1.
Proof.
  eexists. split; [reflexivity|].
  apply (confidences_in_unit_interval plainOps disabledDb
           approvedServiceDate 10 11 _ eq_refl).
Defined.





(** ** The audit trail of a run *)

Lemma trailAdds_refl step now st : trailAdds step now st st.
Proof. exists []. split; [now rewrite app_nil_r | constructor]. Qed.

Lemma trailAdds_trans step now a b c :
  trailAdds step now a b -> trailAdds step now b c -> trailAdds step now a c.
Proof.
  intros (t1 & E1 & F1) (t2 & E2 & F2). exists (t1 ++ t2). split.
  - rewrite E2, E1. now rewrite app_assoc.
  - apply Forall_app. now split.
Qed.

Ltac trail_step :=
  cbn [st_trail pushCorrection pushReason pushTrail raiseScore pushUpdate
       useResolutionKey withDb useCorrectionMemory setScore];
  rewrite <- ?app_assoc;
  first [ exists []; split; [now rewrite app_nil_r | constructor]
        | eexists; split; [reflexivity | repeat constructor] ].

Section TrailOfApply.
Variable ops : JsOps.
Variable context : Context.
Variables now wall : Z.
Variable vendorMemsAll : list VendorMemory.

Let adds := trailAdds step_apply now.

Lemma applyServiceDate_trail st :
  adds st (applyServiceDate ops context now vendorMemsAll st).
Proof. unfold adds, trailAdds, applyServiceDate. repeat break_match; trail_step. Qed.

Lemma applyPoInference_trail st :
  adds st (applyPoInference ops context now vendorMemsAll st).
Proof. unfold adds, trailAdds, applyPoInference. repeat break_match; trail_step. Qed.

Lemma applyVatTotals_trail st :
  adds st (applyVatTotals ops context now vendorMemsAll st).
Proof. unfold adds, trailAdds, applyVatTotals. repeat break_match; trail_step. Qed.

Lemma applyQtyItem_trail st li :
  adds st (applyQtyItem ops context now wall st li).
Proof. unfold adds, trailAdds, applyQtyItem. repeat break_match; trail_step. Qed.

Lemma applyCurrency_trail st :
  adds st (applyCurrency ops context now wall vendorMemsAll st).
Proof. unfold adds, trailAdds, applyCurrency. repeat break_match; trail_step. Qed.

Lemma applySkonto_trail st :
  adds st (applySkonto ops context now wall vendorMemsAll st).
Proof. unfold adds, trailAdds, applySkonto. repeat break_match; trail_step. Qed.

Lemma applyFreightSku_trail st :
  adds st (applyFreightSku ops context now wall vendorMemsAll st).
Proof. unfold adds, trailAdds, applyFreightSku. repeat break_match; trail_step. Qed.

(** The Apply phase appends apply entries only, and at least the closing
    count of proposals. *)
Lemma applyPhase_trail st :
  exists ts e,
    st_trail (applyPhase ops context now wall vendorMemsAll st)
    = st_trail st ++ ts ++ [e]
    /\ Forall (fun e => at_step e = step_apply /\ at_timestamp e = now) (ts ++ [e]).
Proof.
  unfold applyPhase. cbv zeta. cbn [pushTrail st_trail].
  set (s5 := applyCurrency ops context now wall vendorMemsAll
               (applyQuantities ops context now wall
                  (applyVatTotals ops context now vendorMemsAll
                     (applyPoInference ops context now vendorMemsAll
                        (applyServiceDate ops context now vendorMemsAll st))))).
  assert (H5 : adds st s5).
  { eapply trailAdds_trans; [apply applyServiceDate_trail|].
    eapply trailAdds_trans; [apply applyPoInference_trail|].
    eapply trailAdds_trans; [apply applyVatTotals_trail|].
    eapply trailAdds_trans; [|apply applyCurrency_trail].
    unfold applyQuantities.
    apply (fold_left_related _ adds (trailAdds_refl _ _)
             (trailAdds_trans _ _) applyQtyItem_trail). }
  assert (H6 : adds st (applyFreightVendor ops context now wall vendorMemsAll s5)).
  { unfold applyFreightVendor.
    destruct (isFreightVendor ops (ctx_vendor context)); [|exact H5].
    eapply trailAdds_trans; [exact H5|].
    eapply trailAdds_trans; [apply applySkonto_trail | apply applyFreightSku_trail]. }
  destruct H6 as (ts & -> & F).
  eexists ts, _. rewrite <- app_assoc. split; [reflexivity|].
  apply Forall_app. split; [exact F | repeat constructor].
Qed.

Let learns := trailAdds step_learn now.

Lemma learnVendorMemory_trail kind pattern note st :
  learns st (learnVendorMemory context now vendorMemsAll kind pattern note st).
Proof. unfold learns, trailAdds, learnVendorMemory. cbv zeta. trail_step. Qed.

Lemma learnQtyFix_trail st fx : learns st (learnQtyFix ops context now st fx).
Proof. unfold learns, trailAdds, learnQtyFix. break_match; cbv zeta; trail_step. Qed.

Lemma learnApproved_trail corrections st :
  learns st (learnApproved ops context now vendorMemsAll corrections st).
Proof.
  unfold learnApproved. cbv zeta.
  unfold learns.
  repeat match goal with
         | |- trailAdds _ _ _ (if ?c then _ else _) => destruct c
         | |- trailAdds _ _ ?a (learnVendorMemory _ _ _ _ _ _ ?b) =>
             apply (trailAdds_trans _ _ a b); [|apply learnVendorMemory_trail]
         | |- trailAdds _ _ ?a (fold_left _ _ ?b) =>
             apply (trailAdds_trans _ _ a b);
             [|apply (fold_left_related _ learns (trailAdds_refl _ _)
                        (trailAdds_trans _ _) learnQtyFix_trail)]
         end; apply trailAdds_refl.
Qed.

Lemma learnResolution_trail dec st key :
  learns st (learnResolution ops context now wall dec
               (inv_invoiceId (ctx_extracted context)) st key).
Proof.
  unfold learns, trailAdds, learnResolution.
  destruct (recordResolutionDecision _ _ _ _ _ _) as [db [value c]].
  trail_step.
Qed.

(** A Learn phase that returns has appended learn entries only, and at
    least one. *)
Lemma learnPhase_trail st sL :
  learnPhase ops context now wall vendorMemsAll st = LearnDone sL ->
  exists ts e,
    st_trail sL = st_trail st ++ ts ++ [e]
    /\ Forall (fun e => at_step e = step_learn /\ at_timestamp e = now) (ts ++ [e]).
Proof.
  intros El.
  destruct (learnPhase_cases ops context now wall vendorMemsAll st)
    as [(_ & msg & Hc) | [(_ & _ & msg & Hc) | [(_ & _ & m & r & _ & Hc)
       | (_ & row & dec & _ & _ & _ & Hc)]]].
  - rewrite Hc in El. injection El as <-. cbn [pushTrail st_trail].
    eexists [], _. split; [reflexivity | repeat constructor].
  - rewrite Hc in El. injection El as <-. cbn [pushTrail st_trail].
    eexists [], _. split; [reflexivity | repeat constructor].
  - rewrite Hc in El. discriminate El.
  - cbv zeta in Hc. destruct Hc as (ev & msg & Hc).
    rewrite Hc in El. injection El as <-.
    set (s1 := match dec with
               | Approved => _
               | Rejected => _
               end).
    set (s2 := fold_left _ (st_resKeys s1) s1).
    assert (H1 : learns st s1).
    { unfold s1. destruct dec; [apply learnApproved_trail | apply trailAdds_refl]. }
    assert (H2 : learns st s2).
    { eapply trailAdds_trans; [exact H1|].
      apply (fold_left_related _ learns (trailAdds_refl _ _)
               (trailAdds_trans _ _) (learnResolution_trail dec)). }
    destruct H2 as (ts & E & F).
    cbn [pushTrail withDb st_trail]. rewrite E.
    eexists ts, _. rewrite <- app_assoc. split; [reflexivity|].
    apply Forall_app. split; [exact F | repeat constructor].
Qed.

End TrailOfApply.

Lemma steps_of_phase step now (ts : list AuditTrailEntry) :
  Forall (fun e => at_step e = step /\ at_timestamp e = now) ts ->
  map at_step ts = repeat step (List.length ts)
  /\ Forall (fun e => at_timestamp e = now) ts.
Proof.
  induction 1 as [|e ts [Hs Ht] _ [IH1 IH2]]; [split; constructor|].
  split; [cbn; now rewrite Hs, IH1 | now constructor].
Qed.

(** X14.  The audit trail follows the phases.  The trail a run returns
    holds, when the run is not a duplicate, two recall entries, then one or
    more apply entries, then exactly one decide entry, then one or more
    learn entries, in this order; a duplicate leaves the single
    duplicate-guard entry.  Every entry carries the logical instant of the
    run, not the wall clock. *)
Theorem audit_trail_follows_the_phases
    (ops : JsOps) (db : Db) (context : Context) (now wall : Z)
    (out : AgentOutput)
    (Hout : snd (runPipeline ops db context now wall) = Some out) :
  Forall (fun e => at_timestamp e = now) (auditTrail out)
  /\ (isDuplicate (detectDuplicate ops db (ctx_extracted context)) = true ->
      map at_step (auditTrail out) = [step_duplicateGuard])
  /\ (isDuplicate (detectDuplicate ops db (ctx_extracted context)) = false ->
      exists nApply nLearn,
        map at_step (auditTrail out)
        = [step_recall; step_recall] ++ repeat step_apply (S nApply)
          ++ [step_decide] ++ repeat step_learn (S nLearn)).
Proof.
  destruct (detectDuplicate ops db (ctx_extracted context))
    as [|dupOf reason fp] eqn:E.
  2:{ rewrite (runPipeline_duplicate _ _ _ now wall _ _ _ E) in Hout.
      cbn [snd] in Hout. injection Hout as <-.
      cbn [auditTrail isDuplicate].
      split; [repeat constructor|]. split; [reflexivity | discriminate]. }
  unfold runPipeline in Hout. rewrite E in Hout. cbv zeta in Hout.
  cbn [isDuplicate].
  set (vmAll := getVendorMemories db (ctx_vendor context)) in Hout.
  match type of Hout with
  | context [applyPhase ops context now wall vmAll ?s] => set (st0 := s) in Hout
  end.
  set (sA := applyPhase ops context now wall vmAll st0) in Hout.
  set (d := decidePhase ops context now sA) in Hout.
  assert (ED : st_trail (snd d)
               = st_trail sA
                 ++ [mkTrail step_decide now
                       (decideDetails (st_proposed sA)
                          (anyLowConfidence (st_proposed sA))
                          (hasCriticalMissingFields ops
                             (inv_fields (ctx_extracted context)) (st_proposed sA))
                          (anyLowConfidence (st_proposed sA)
                           || hasCriticalMissingFields ops
                                (inv_fields (ctx_extracted context))
                                (st_proposed sA)))]).
  { unfold d, decidePhase. cbv zeta. cbn [snd].
    destruct (map c_confidence (st_proposed sA)); reflexivity. }
  destruct (applyPhase_trail ops context now wall vmAll st0) as (ta & ea & EA & Fa).
  fold sA in EA.
  assert (E0 : st_trail st0
               = [mkTrail step_recall now (at_details (nth 0 (st_trail st0) (mkTrail step_recall now "")));
                  mkTrail step_recall now (at_details (nth 1 (st_trail st0) (mkTrail step_recall now "")))])
    by reflexivity.
  clearbody d sA st0.
  destruct (learnPhase ops context now wall vmAll (snd d)) as [sL|db'] eqn:El;
    [|discriminate Hout].
  unfold snd at 1 in Hout. injection Hout as <-. cbn [auditTrail].
  destruct (learnPhase_trail ops context now wall vmAll (snd d) sL El)
    as (tl & el & -> & Fl).
  rewrite ED, EA, E0.
  destruct (steps_of_phase _ _ _ Fa) as [Sa Ta].
  destruct (steps_of_phase _ _ _ Fl) as [Sl Tl].
  split; [|split; [discriminate|]].
  - apply Forall_app; split; [|exact Tl].
    apply Forall_app; split; [|repeat constructor].
    apply Forall_app; split; [|exact Ta].
    repeat constructor.
  - intros _. exists (List.length ta), (List.length tl).
    assert (La : List.length (ta ++ [ea]) = S (List.length ta))
      by (rewrite length_app; cbn; lia).
    assert (Ll : List.length (tl ++ [el]) = S (List.length tl))
      by (rewrite length_app; cbn; lia).
    rewrite La in Sa. rewrite Ll in Sl.
    clear Fa Fl Ta Tl La Ll EA ED E0.
    generalize dependent (ta ++ [ea]). generalize dependent (tl ++ [el]).
    intros L SL A SA.
    rewrite !map_app, SA, SL. rewrite <- !app_assoc. reflexivity.
Qed.

Lemma audit_trail_follows_the_phases_witness :
  exists out,
    snd (runPipeline plainOps disabledDb approvedServiceDate 10 11) = Some out
    /\ Forall (fun e => at_timestamp e = 10%Z) (auditTrail out).
Proof.
  eexists. split; [reflexivity|].
  apply (audit_trail_follows_the_phases plainOps disabledDb
           approvedServiceDate 10 11 _ eq_refl).
Defined.

(** ** More on the duplicate guard *)

Lemma earliest_In rows p : earliest rows = Some p -> In p rows.
Proof.
  revert p. induction rows as [|r rest IH]; intros p; [discriminate|].
  simpl. destruct (earliest rest) as [m|].
  - destruct (dr_createdAt m <? dr_createdAt r)%Z; intros [= <-];
      [right; now apply IH | now left].
  - intros [= <-]. now left.
Qed.

Lemma earliest_none rows : earliest rows = None -> rows = [].
Proof.
  destruct rows as [|r rest]; [reflexivity|].
  simpl. destruct (earliest rest) as [m|]; [|discriminate].
  destruct (dr_createdAt m <? dr_createdAt r)%Z; discriminate.
Qed.

(** X15.  The guard misses no match.  Where run rows and duplicate records
    carry non-empty invoice ids, an invoice is reported as a duplicate
    exactly when its vendor and invoice number are non-empty and a run of
    another invoice is on record under the same vendor and number, or a
    duplicate record of another invoice holds the same vendor and
    fingerprint; and the fingerprint reported is the invoice's own. *)
Theorem detectDuplicate_complete
    (ops : JsOps) (db : Db) (invoice : InvoiceExtracted)
    (Hruns : forall r, In r (invoice_runs db) -> nonEmpty (run_invoiceId r) = true)
    (Hrecs : forall d, In d (duplicate_records db) ->
               nonEmpty (dr_invoiceId d) = true) :
  let vendor := inv_vendor invoice in
  let number := guardInvoiceNumber ops invoice in
  let id := inv_invoiceId invoice in
  (isDuplicate (detectDuplicate ops db invoice) = true <->
   (nonEmpty vendor = true /\ nonEmpty number = true
    /\ exists r, In r (invoice_runs db)
                 /\ run_vendor r = vendor
                 /\ run_invoiceNumber r = Some number
                 /\ run_invoiceId r <> id)
   \/ (exists d, In d (duplicate_records db)
                 /\ dr_vendor d = vendor
                 /\ dr_fingerprint d = computeFingerprint ops invoice
                 /\ dr_invoiceId d <> id))
  /\ (forall dupOf reason fp,
        detectDuplicate ops db invoice = Duplicate dupOf reason fp ->
        fp = computeFingerprint ops invoice).
Proof.
  cbv zeta.
  set (vendor := inv_vendor invoice).
  set (number := guardInvoiceNumber ops invoice).
  set (id := inv_invoiceId invoice).
  set (fpq := fun d => String.eqb (dr_vendor d) vendor
                       && String.eqb (dr_fingerprint d) (computeFingerprint ops invoice)
                       && negb (String.eqb (dr_invoiceId d) id)).
  assert (Hsvn : forall r, sameVendorNumber vendor number id r = true <->
                           run_vendor r = vendor
                           /\ run_invoiceNumber r = Some number
                           /\ run_invoiceId r <> id).
  { intros r. unfold sameVendorNumber, optStrEqb.
    destruct (String.eqb_spec (run_vendor r) vendor);
      destruct (run_invoiceNumber r) as [num|];
      try destruct (String.eqb_spec num number);
      destruct (String.eqb_spec (run_invoiceId r) id);
      cbn; split; try discriminate; intuition congruence. }
  assert (Hfpq : forall d, fpq d = true <->
                           dr_vendor d = vendor
                           /\ dr_fingerprint d = computeFingerprint ops invoice
                           /\ dr_invoiceId d <> id).
  { intros d. unfold fpq.
    destruct (String.eqb_spec (dr_vendor d) vendor);
      destruct (String.eqb_spec (dr_fingerprint d) (computeFingerprint ops invoice));
      destruct (String.eqb_spec (dr_invoiceId d) id);
      cbn; split; try discriminate; intuition congruence. }
  (* the fallback in isolation *)
  assert (Hfb : forall res,
            res = match earliest (filter fpq (duplicate_records db)) with
                  | Some p =>
                      match truthyStr (Some (dr_invoiceId p)) with
                      | Some pid =>
                          Duplicate
                            match dr_duplicateOfInvoiceId p with
                            | Some o => o
                            | None => pid
                            end
                            "Fingerprint match for vendor (fallback match)."
                            (computeFingerprint ops invoice)
                      | None => NotDuplicate
                      end
                  | None => NotDuplicate
                  end ->
            (isDuplicate res = true <-> exists d, In d (duplicate_records db) /\ fpq d = true)
            /\ (forall dupOf reason fp, res = Duplicate dupOf reason fp ->
                  fp = computeFingerprint ops invoice)).
  { intros res ->.
    destruct (earliest (filter fpq (duplicate_records db))) as [p|] eqn:Ee.
    - apply earliest_In in Ee. apply filter_In in Ee as [Hin Hp].
      rewrite (truthyStr_nonEmpty _ (Hrecs p Hin)). split.
      + split; [intros _; eauto | reflexivity].
      + intros dupOf reason fp [= _ _ <-]. reflexivity.
    - apply earliest_none in Ee. split.
      + split; [discriminate|]. intros (d & Hd & Hq).
        assert (In d (filter fpq (duplicate_records db))) by (apply filter_In; now split).
        rewrite Ee in H. contradiction.
      + discriminate. }
  unfold detectDuplicate. cbv zeta.
  fold vendor number id. fold fpq.
  match goal with
  | |- context [if _ then _ else ?fb] => specialize (Hfb fb eq_refl); set (fallback := fb) in *
  end.
  destruct Hfb as [Hfb1 Hfb2].
  destruct (nonEmpty vendor && nonEmpty number) eqn:Evn.
  2:{ split; [|exact Hfb2].
      rewrite Hfb1. split.
      - intros (d & Hd & Hq). right. exists d. split; [exact Hd|]. now apply Hfpq.
      - intros [(Hv & Hn & _) | (d & Hd & Hq)].
        + rewrite Hv, Hn in Evn. discriminate.
        + exists d. split; [exact Hd|]. now apply Hfpq. }
  apply andb_prop in Evn as [Hv Hn].
  destruct (find (fun r => sameVendorNumber vendor number id r
                           && (run_isDuplicate r =? 0)%Z) (invoice_runs db))
    as [o|] eqn:Eo.
  { apply find_In in Eo as [Hin Hp]. apply andb_prop in Hp as [Hp _].
    cbn [option_map]. rewrite (truthyStr_nonEmpty _ (Hruns o Hin)).
    split; [|intros dupOf reason fp [= _ _ <-]; reflexivity].
    cbn [isDuplicate]. split; [intros _ | reflexivity].
    left. split; [exact Hv|]. split; [exact Hn|].
    exists o. split; [exact Hin|]. now apply Hsvn. }
  cbn [option_map truthyStr].
  destruct (find (sameVendorNumber vendor number id) (invoice_runs db))
    as [a|] eqn:Ea.
  { apply find_In in Ea as [Hin Hp].
    cbn [option_map]. rewrite (truthyStr_nonEmpty _ (Hruns a Hin)).
    split; [|intros dupOf reason fp [= _ _ <-]; reflexivity].
    cbn [isDuplicate]. split; [intros _ | reflexivity].
    left. split; [exact Hv|]. split; [exact Hn|].
    exists a. split; [exact Hin|]. now apply Hsvn. }
  cbn [option_map truthyStr].
  split; [|exact Hfb2].
  rewrite Hfb1. split.
  - intros (d & Hd & Hq). right. exists d. split; [exact Hd|]. now apply Hfpq.
  - intros [(_ & _ & r & Hr & Hq) | (d & Hd & Hq)].
    + apply Hsvn in Hq. pose proof (find_none _ _ Ea _ Hr). congruence.
    + exists d. split; [exact Hd|]. now apply Hfpq.
Qed.

Lemma detectDuplicate_complete_witness :
  isDuplicate (detectDuplicate plainOps chainDb (invoiceNumbered "INV-B")) = true.
Proof.
  assert (Hruns : forall r, In r (invoice_runs chainDb) ->
                            nonEmpty (run_invoiceId r) = true)
    by (intros r [<-|[<-|[]]]; reflexivity).
  assert (Hrecs : forall d, In d (duplicate_records chainDb) ->
                            nonEmpty (dr_invoiceId d) = true)
    by (intros d []).
  destruct (detectDuplicate_complete plainOps chainDb (invoiceNumbered "INV-B")
              Hruns Hrecs) as [H _].
  cbv zeta in H. apply H. left.
  split; [reflexivity|]. split; [reflexivity|].
  eexists. split; [left; reflexivity|].
  split; [reflexivity|]. split; [reflexivity | discriminate].
Defined.

Lemma filter_filter_weaker {A} (p q : A -> bool) l :
  (forall x, p x = true -> q x = true) ->
  filter p (filter q l) = filter p l.
Proof.
  intros H. induction l as [|a l IH]; [reflexivity|].
  simpl. destruct (q a) eqn:Eq; simpl.
  - now rewrite IH.
  - destruct (p a) eqn:Ep; [|exact IH].
    apply H in Ep. congruence.
Qed.

(** The guard's answer for an invoice does not depend on the bookkeeping
    kept under that invoice's own id. *)
Lemma detectDuplicate_own_bookkeeping ops db invoice dupOf reason fp now :
  let id := inv_invoiceId invoice in
  detectDuplicate ops
    (markRunDuplicate
       (recordDuplicate db id (inv_vendor invoice) fp dupOf reason now) id dupOf)
    invoice
  = detectDuplicate ops db invoice.
Proof.
  cbv zeta.
  set (id := inv_invoiceId invoice).
  set (vendor := inv_vendor invoice).
  set (number := guardInvoiceNumber ops invoice).
  unfold detectDuplicate. cbv zeta. fold id vendor number.
  cbn [markRunDuplicate recordDuplicate invoice_runs duplicate_records
       set_invoice_runs set_duplicate_records].
  assert (Hfind : forall extra : InvoiceRun -> bool,
             find (fun r => sameVendorNumber vendor number id r && extra r)
               (updateWhere (fun r => String.eqb (run_invoiceId r) id)
                  (fun r => mkRun (run_invoiceId r) (run_vendor r) (run_dataset r)
                              (run_createdAt r) (run_invoiceNumber r)
                              (run_fingerprint r) 1%Z (Some dupOf))
                  (invoice_runs db))
             = find (fun r => sameVendorNumber vendor number id r && extra r)
                 (invoice_runs db)).
  { intros extra. unfold updateWhere.
    induction (invoice_runs db) as [|a l IH]; [reflexivity|].
    simpl. destruct (String.eqb (run_invoiceId a) id) eqn:Ea.
    - unfold sameVendorNumber at 1 3. cbn [run_invoiceId run_vendor run_invoiceNumber].
      rewrite Ea. cbn [negb]. rewrite !andb_false_r. cbn [andb]. exact IH.
    - destruct (sameVendorNumber vendor number id a && extra a); [reflexivity|exact IH]. }
  assert (Hany : find (sameVendorNumber vendor number id)
                   (updateWhere (fun r => String.eqb (run_invoiceId r) id)
                      (fun r => mkRun (run_invoiceId r) (run_vendor r) (run_dataset r)
                                  (run_createdAt r) (run_invoiceNumber r)
                                  (run_fingerprint r) 1%Z (Some dupOf))
                      (invoice_runs db))
                 = find (sameVendorNumber vendor number id) (invoice_runs db)).
  { rewrite (find_ext_in _ (fun r => sameVendorNumber vendor number id r && true))
      by (intros; now rewrite andb_true_r).
    rewrite Hfind. apply find_ext_in. intros; now rewrite andb_true_r. }
  rewrite Hfind, Hany.
  rewrite filter_app. cbn [filter dr_vendor dr_fingerprint dr_invoiceId].
  rewrite (String.eqb_refl id). cbn [negb]. rewrite andb_false_r, app_nil_r.
  rewrite filter_filter_weaker.
  2:{ intros d Hd. apply andb_prop in Hd as [_ Hd]. exact Hd. }
  destruct (nonEmpty vendor && nonEmpty number); [|reflexivity].
  destruct (truthyStr (option_map run_invoiceId (find _ (invoice_runs db))));
    [reflexivity|].
  destruct (find (sameVendorNumber vendor number id) (invoice_runs db))
    as [a|] eqn:Ea; [|reflexivity].
  cbn [option_map]. unfold truthyStr.
  destruct (nonEmpty (run_invoiceId a)); [|reflexivity].
  apply find_In in Ea as [_ Hp].
  assert (Hne : String.eqb (run_invoiceId a) id = false).
  { unfold sameVendorNumber in Hp. apply andb_prop in Hp as [_ Hp].
    now apply negb_true_iff in Hp. }
  rewrite find_app.
  rewrite find_filter.
  2:{ intros d Hd. apply String.eqb_eq in Hd. rewrite Hd. now rewrite Hne. }
  destruct (find (fun d => String.eqb (dr_invoiceId d) (run_invoiceId a))
              (duplicate_records db)); [reflexivity|].
  cbn [find dr_invoiceId]. rewrite String.eqb_sym, Hne. reflexivity.
Qed.

(** X16.  Running the pipeline on an invoice does not change what the guard
    says about that invoice: the duplicate record and the flags a duplicate
    run writes are kept under the invoice's own id, which the guard skips,
    so a submission found to be a duplicate of A is found to be a duplicate
    of A when it is run again.  A run that is not a duplicate writes
    neither run rows nor duplicate records, and so changes the guard's
    answer for no invoice at all. *)
Theorem guard_verdict_is_stable
    (ops : JsOps) (db : Db) (context : Context) (now wall : Z) :
  let db' := fst (runPipeline ops db context now wall) in
  detectDuplicate ops db' (ctx_extracted context)
  = detectDuplicate ops db (ctx_extracted context)
  /\ (isDuplicate (detectDuplicate ops db (ctx_extracted context)) = false ->
      invoice_runs db' = invoice_runs db
      /\ duplicate_records db' = duplicate_records db
      /\ forall invoice,
           detectDuplicate ops db' invoice = detectDuplicate ops db invoice).
Proof.
  cbv zeta.
  destruct (detectDuplicate ops db (ctx_extracted context))
    as [|dupOf reason fp] eqn:E.
  - assert (H : invoice_runs (fst (runPipeline ops db context now wall))
                = invoice_runs db
                /\ duplicate_records (fst (runPipeline ops db context now wall))
                   = duplicate_records db).
    { apply (runPipeline_store_invariant_nd ops context now wall
               (fun d => invoice_runs d = invoice_runs db
                         /\ duplicate_records d = duplicate_records db));
        try (intros; assumption); try exact E; try (split; reflexivity).
      - intros d mem _ [H1 H2].
        destruct (upsertVendorMemory_frame d mem) as (-> & _ & _ & _ & _ & _ & -> & _).
        now split.
      - intros d row _ [H1 H2].
        destruct (upsertCorrectionMemory_frame d row)
          as (-> & _ & _ & _ & _ & _ & -> & _).
        now split.
      - intros d key dec [H1 H2].
        destruct (recordResolutionDecision_frame d (ctx_vendor context) key dec
                    (inv_invoiceId (ctx_extracted context)) wall)
          as (-> & _ & _ & _ & _ & _ & -> & _).
        now split.
      - intros d [H1 H2].
        destruct (markLearned_frame d (inv_invoiceId (ctx_extracted context)) wall)
          as (-> & _ & _ & _ & _ & _ & _ & -> & _).
        now split. }
    destruct H as [H1 H2].
    assert (Hall : forall invoice,
               detectDuplicate ops (fst (runPipeline ops db context now wall)) invoice
               = detectDuplicate ops db invoice).
    { intros invoice. unfold detectDuplicate. now rewrite H1, H2. }
    split; [now rewrite Hall|]. intros _. now split.
  - split; [|discriminate].
    rewrite (runPipeline_duplicate _ _ _ now wall _ _ _ E). cbn [fst].
    rewrite <- E.
    exact (detectDuplicate_own_bookkeeping ops db (ctx_extracted context)
             dupOf reason fp now).
Qed.

(** *** Primary keys *)

Lemma map_updateWhere_key {A K} (k : A -> K) (p : A -> bool) (f : A -> A) l :
  (forall x, p x = true -> k (f x) = k x) ->
  map k (updateWhere p f l) = map k l.
Proof.
  intros H. unfold updateWhere. rewrite map_map. apply map_ext_in.
  intros x _. destruct (p x) eqn:E; [now apply H | reflexivity].
Qed.

Lemma NoDup_map_snoc {A K} (k : A -> K) l y :
  NoDup (map k l) -> (forall x, In x l -> k x <> k y) ->
  NoDup (map k (l ++ [y])).
Proof.
  intros Hn Hy. rewrite map_app. cbn [map].
  apply NoDup_app; [exact Hn | repeat constructor; intros [] |].
  intros a Ha [<-|[]]. apply in_map_iff in Ha as (x & E & Hx).
  exact (Hy x Hx E).
Qed.

Lemma NoDup_map_filter {A K} (k : A -> K) (p : A -> bool) l :
  NoDup (map k l) -> NoDup (map k (filter p l)).
Proof.
  induction l as [|a l IH]; intros H; [constructor|].
  cbn in H |- *. inversion H as [|? ? Hnot Hrest]; subst.
  destruct (p a); [|now apply IH].
  cbn. constructor; [|now apply IH].
  intros Hin. apply Hnot. apply in_map_iff in Hin as (x & E & Hx).
  apply filter_In in Hx as [Hx _]. apply in_map_iff. eauto.
Qed.

Lemma upsertVendorMemory_keys db mem :
  NoDup (map vm_id (vendor_memory db)) ->
  NoDup (map vm_id (vendor_memory (upsertVendorMemory db mem))).
Proof.
  intros H. unfold upsertVendorMemory. cbv zeta.
  destruct (existsb _ (vendor_memory db)) eqn:Ex;
    cbn [vendor_memory set_vendor_memory].
  - rewrite map_updateWhere_key; [exact H|].
    intros x Hx. apply String.eqb_eq in Hx. cbn. now symmetry.
  - apply NoDup_map_snoc; [exact H|].
    intros x Hx. cbn [vm_id]. intros Heq.
    rewrite existsb_find in Ex.
    destruct (find (fun m => String.eqb (vm_id m) (vm_id mem)) (vendor_memory db))
      eqn:Ef; [discriminate|].
    pose proof (find_none _ _ Ef _ Hx) as Hn. cbn beta in Hn.
    rewrite Heq, String.eqb_refl in Hn. discriminate.
Qed.

Lemma upsertCorrectionMemory_keys db row :
  NoDup (map cm_id (correction_memory db)) ->
  NoDup (map cm_id (correction_memory (fst (upsertCorrectionMemory db row)))).
Proof.
  intros H. unfold upsertCorrectionMemory.
  destruct (find _ (correction_memory db)) eqn:Ef;
    cbn [fst correction_memory set_correction_memory].
  - rewrite map_updateWhere_key; [exact H | reflexivity].
  - apply NoDup_map_snoc; [exact H|].
    intros x Hx. cbn [cm_id]. intros Heq.
    pose proof (find_none _ _ Ef _ Hx) as Hn. cbn beta in Hn.
    rewrite Heq, String.eqb_refl in Hn. discriminate.
Qed.

Lemma recordResolutionDecision_keys db vendor key dec invoiceId wall :
  NoDup (map (fun r => (rm_vendor r, rm_key r)) (resolution_memory db)) ->
  NoDup (map (fun r => (rm_vendor r, rm_key r))
           (resolution_memory
              (fst (recordResolutionDecision db vendor key dec invoiceId wall)))).
Proof.
  intros H. unfold recordResolutionDecision, upsertResolution. cbv zeta.
  rewrite existsb_find.
  destruct (find (resolutionKeyIs vendor key) (resolution_memory db)) eqn:Ef;
    destruct (resolution_hasRejectCount db);
    cbn [fst resolution_memory set_resolution_memory].
  all: rewrite ?map_updateWhere_key by reflexivity.
  all: try exact H.
  all: apply NoDup_map_snoc; [exact H|].
  all: intros x Hx; cbn [rm_vendor rm_key]; intros [= Hv Hk].
  all: pose proof (find_none _ _ Ef _ Hx) as Hn; unfold resolutionKeyIs in Hn.
  all: rewrite Hv, Hk, !String.eqb_refl in Hn; discriminate.
Qed.

Lemma markLearned_keys db id wall :
  NoDup (map le_invoiceId (learning_events db)) ->
  NoDup (map le_invoiceId (learning_events (markLearned db id wall))).
Proof.
  intros H. unfold markLearned.
  destruct (hasLearned db id) eqn:El; [exact H|].
  cbn [learning_events set_learning_events].
  apply NoDup_map_snoc; [exact H|].
  intros x Hx. cbn [le_invoiceId]. intros Heq.
  unfold hasLearned in El. rewrite existsb_find in El.
  destruct (find (fun e => String.eqb (le_invoiceId e) id) (learning_events db))
    eqn:Ef; [discriminate|].
  pose proof (find_none _ _ Ef _ Hx) as Hn. cbn beta in Hn.
  rewrite Heq, String.eqb_refl in Hn. discriminate.
Qed.

Lemma recordDuplicate_keys db invoiceId vendor fp dupOf reason now :
  NoDup (map dr_invoiceId (duplicate_records db)) ->
  NoDup (map dr_invoiceId
           (duplicate_records
              (recordDuplicate db invoiceId vendor fp dupOf reason now))).
Proof.
  intros H. cbn [recordDuplicate duplicate_records set_duplicate_records].
  apply NoDup_map_snoc; [now apply NoDup_map_filter|].
  intros x Hx. cbn [dr_invoiceId]. intros Heq.
  apply filter_In in Hx as [_ Hx].
  rewrite Heq, String.eqb_refl in Hx. discriminate.
Qed.

(** X17.  The primary keys of the tables are kept.  If before a run no two
    vendor-memory entries share an id, no two correction-memory entries
    share an id, no two resolution rows share a vendor and key, no invoice
    is learned twice and no invoice has two duplicate records, then the
    same holds after the run: every insert the pipeline makes is either
    guarded by a lookup or replaces the row it conflicts with. *)
Theorem primary_keys_are_kept
    (ops : JsOps) (db : Db) (context : Context) (now wall : Z) :
  let db' := fst (runPipeline ops db context now wall) in
  (NoDup (map vm_id (vendor_memory db)) ->
   NoDup (map vm_id (vendor_memory db')))
  /\ (NoDup (map cm_id (correction_memory db)) ->
      NoDup (map cm_id (correction_memory db')))
  /\ (NoDup (map (fun r => (rm_vendor r, rm_key r)) (resolution_memory db)) ->
      NoDup (map (fun r => (rm_vendor r, rm_key r)) (resolution_memory db')))
  /\ (NoDup (map le_invoiceId (learning_events db)) ->
      NoDup (map le_invoiceId (learning_events db')))
  /\ (NoDup (map dr_invoiceId (duplicate_records db)) ->
      NoDup (map dr_invoiceId (duplicate_records db'))).
Proof.
  cbv zeta. split; [|split; [|split; [|split]]].
  - apply (runPipeline_vendor_invariant ops context now wall
             (fun l => NoDup (map vm_id l))).
    intros d mem _. apply upsertVendorMemory_keys.
  - apply (runPipeline_correction_invariant ops context now wall
             (fun l => NoDup (map cm_id l))).
    + intros d id H. cbn [markUsed correction_memory set_correction_memory].
      rewrite map_updateWhere_key; [exact H | reflexivity].
    + intros d id H. cbn [markRejected correction_memory set_correction_memory].
      rewrite map_updateWhere_key; [exact H | reflexivity].
    + intros d row _. apply upsertCorrectionMemory_keys.
  - apply (runPipeline_resolution_invariant ops context now wall
             (fun l => NoDup (map (fun r => (rm_vendor r, rm_key r)) l))).
    intros d key dec. apply recordResolutionDecision_keys.
  - apply (runPipeline_store_invariant ops context now wall
             (fun d => NoDup (map le_invoiceId (learning_events d))));
      try (intros; assumption).
    + intros d mem _ H.
      now destruct (upsertVendorMemory_frame d mem)
        as (_ & _ & _ & _ & _ & _ & _ & -> & _).
    + intros d row _ H.
      now destruct (upsertCorrectionMemory_frame d row)
        as (_ & _ & _ & _ & _ & _ & _ & -> & _).
    + intros d key dec H.
      now destruct (recordResolutionDecision_frame d (ctx_vendor context) key dec
                      (inv_invoiceId (ctx_extracted context)) wall)
        as (_ & _ & _ & _ & _ & _ & _ & -> & _).
    + intros d. apply markLearned_keys.
  - apply (runPipeline_store_invariant ops context now wall
             (fun d => NoDup (map dr_invoiceId (duplicate_records d))));
      try (intros; assumption).
    + intros d invoiceId vendor fp dupOf reason. apply recordDuplicate_keys.
    + intros d mem _ H.
      now destruct (upsertVendorMemory_frame d mem)
        as (_ & _ & _ & _ & _ & _ & -> & _).
    + intros d row _ H.
      now destruct (upsertCorrectionMemory_frame d row)
        as (_ & _ & _ & _ & _ & _ & -> & _).
    + intros d key dec H.
      now destruct (recordResolutionDecision_frame d (ctx_vendor context) key dec
                      (inv_invoiceId (ctx_extracted context)) wall)
        as (_ & _ & _ & _ & _ & _ & -> & _).
    + intros d H.
      now destruct (markLearned_frame d (inv_invoiceId (ctx_extracted context)) wall)
        as (_ & _ & _ & _ & _ & _ & _ & -> & _).
Qed.

(** *** Trust and the passing of time *)



Lemma decayFactor_one_half_life : decayFactor 30 30 = / 2.
Proof.
  unfold decayFactor.
  rewrite Rmax_right by lra.
  replace (- (ln 2 / 30) * 30) with (- ln 2) by lra.
  rewrite exp_Ropp, exp_ln by lra. reflexivity.
Qed.

Lemma decayed_after_a_month b t now :
  (t + 30 * 86400000 <= now)%Z ->
  decayedConfidence30 (Fin b) (daysSince (TsAt t) now) <= / 2.
Proof.
  intros H. unfold daysSince.
  destruct (now - t <=? 0)%Z eqn:E; [apply Z.leb_le in E; lia|].
  set (d := IZR (now - t) / msPerDay).
  assert (Hd : 30 <= d).
  { assert (Hi : IZR (30 * 86400000) <= IZR (now - t)) by (apply IZR_le; lia).
    rewrite mult_IZR in Hi. unfold d, msPerDay.
    generalize dependent (IZR (now - t)). intros x Hx. lra. }
  clearbody d.
  unfold decayedConfidence30. rewrite decayedConfidence_fin.
  assert (Rleb d 0 = false) as -> by (apply Rleb_false; lra).
  pose proof (clamp01_bounds b) as [Hb0 Hb1].
  pose proof (decayFactor_pos 30 d) as Hf0.
  pose proof (decayFactor_antitone 30 30 d Hd) as Hf.
  rewrite decayFactor_one_half_life in Hf.
  eapply Rle_trans; [apply clamp01_le; nra|]. nra.
Qed.



(** X19.  One half-life without use is enough to lose trust.  A
    vendor-memory entry last used thirty days or more before [now] is
    refused by the gate, and a correction-memory entry last used (or, when
    never used, created) thirty days or more before [now] is suspect,
    whatever their stored confidence, status and reject count: the decayed
    confidence is then at most one half, below the floor of 0.65. *)
Theorem a_month_unused_loses_trust
    (m : VendorMemory) (cm : CorrectionMemoryRow)
    (res : option ResolutionMemoryRow) (tv tc now : Z)
    (Hv : vm_lastUsedAt m = TsAt tv)
    (Hc : ts_coalesce (cm_lastUsedAt cm) (cm_createdAt cm) = TsAt tc)
    (Hagev : (tv + 30 * 86400000 <= now)%Z)
    (Hagec : (tc + 30 * 86400000 <= now)%Z) :
  canApplyVendorMem (Some m) now = false
  /\ isSuspectCorrectionMemory (Some cm) res now = true.
Proof.
  split.
  - apply not_true_is_false. intros H.
    apply canApplyVendorMem_iff in H as (_ & _ & H). rewrite Hv in H.
    pose proof (decayed_after_a_month (vm_confidence m) tv now Hagev). lra.
  - apply not_false_is_true. intros H.
    apply isSuspectCorrectionMemory_trusted in H as (_ & _ & _ & _ & H).
    rewrite Hc in H.
    pose proof (decayed_after_a_month (cm_confidence cm) tc now Hagec). lra.
Qed.

Lemma a_month_unused_loses_trust_witness :
  canApplyVendorMem (Some learnedEntry) ninetyDays = false
  /\ isSuspectCorrectionMemory (Some usedCurrencyEntry) None ninetyDays = true.
Proof.
  apply (a_month_unused_loses_trust learnedEntry usedCurrencyEntry None 0 10
           ninetyDays).
  - reflexivity.
  - reflexivity.
  - unfold ninetyDays. lia.
  - unfold ninetyDays. lia.
Defined.


(** *** What the proposals rest on *)





Section Grounded.

Variable ops : JsOps.
Variable context : Context.
Variables now wall : Z.
Variable vendorMemsAll : list VendorMemory.












End Grounded.



(** *** The logs of a run *)

(** X21.  The logs are append-only.  A run keeps every audit event and every
    learning event the store held, in order, and adds to them at the end:
    audit events stamped with the instant of the run, and at most one
    learning event, for the invoice of the run.  It adds and removes no
    invoice run. *)
Theorem logs_are_append_only
    (ops : JsOps) (db : Db) (context : Context) (now wall : Z) :
  let db' := fst (runPipeline ops db context now wall) in
  (exists evs,
     audit_events db' = audit_events db ++ evs
     /\ Forall (fun e => ae_ts e = now) evs)
  /\ (exists les,
        learning_events db' = learning_events db ++ les
        /\ (List.length les <= 1)%nat
        /\ Forall (fun e => le_invoiceId e
                            = inv_invoiceId (ctx_extracted context)) les)
  /\ map run_invoiceId (invoice_runs db')
     = map run_invoiceId (invoice_runs db).
Proof.
  cbv zeta. split; [|split].
  - apply (runPipeline_store_invariant ops context now wall
             (fun d => exists evs,
                audit_events d = audit_events db ++ evs
                /\ Forall (fun e => ae_ts e = now) evs));
      try (intros; assumption).
    + intros d ty v i et ei meta (evs & E & F).
      exists (evs ++ [mkAuditEvent now ty v i et ei meta]). split.
      * cbn. rewrite E. now rewrite app_assoc.
      * apply Forall_snoc; [exact F | reflexivity].
    + intros d mem _ H.
      now destruct (upsertVendorMemory_frame d mem)
        as (_ & _ & _ & _ & _ & _ & _ & _ & ->).
    + intros d row _ H.
      now destruct (upsertCorrectionMemory_frame d row)
        as (_ & _ & _ & _ & _ & _ & _ & _ & ->).
    + intros d key dec H.
      now destruct (recordResolutionDecision_frame d (ctx_vendor context) key dec
                      (inv_invoiceId (ctx_extracted context)) wall)
        as (_ & _ & _ & _ & _ & _ & _ & _ & ->).
    + intros d H.
      now destruct (markLearned_frame d (inv_invoiceId (ctx_extracted context)) wall)
        as (_ & _ & _ & _ & _ & _ & _ & _ & ->).
    + exists []. split; [now rewrite app_nil_r | constructor].
  - apply (runPipeline_store_invariant ops context now wall
             (fun d => exists les,
                learning_events d = learning_events db ++ les
                /\ (List.length les <= 1)%nat
                /\ Forall (fun e => le_invoiceId e
                                    = inv_invoiceId (ctx_extracted context)) les));
      try (intros; assumption).
    + intros d mem _ H.
      now destruct (upsertVendorMemory_frame d mem)
        as (_ & _ & _ & _ & _ & _ & _ & -> & _).
    + intros d row _ H.
      now destruct (upsertCorrectionMemory_frame d row)
        as (_ & _ & _ & _ & _ & _ & _ & -> & _).
    + intros d key dec H.
      now destruct (recordResolutionDecision_frame d (ctx_vendor context) key dec
                      (inv_invoiceId (ctx_extracted context)) wall)
        as (_ & _ & _ & _ & _ & _ & _ & -> & _).
    + intros d (les & E & L & F). unfold markLearned.
      destruct (hasLearned d (inv_invoiceId (ctx_extracted context))) eqn:El;
        [now exists les|].
      cbn [learning_events set_learning_events].
      destruct les as [|e les].
      * eexists [_]. rewrite E, app_nil_r.
        split; [reflexivity|]. split; [cbn; lia|].
        constructor; [reflexivity | constructor].
      * exfalso. unfold hasLearned in El. rewrite E, existsb_app in El.
        inversion F as [|? ? He _]; subst. cbn in El.
        rewrite He, String.eqb_refl in El. cbn in El.
        now rewrite orb_true_r in El.
    + exists []. split; [now rewrite app_nil_r|]. split; [cbn; lia | constructor].
  - apply (runPipeline_store_invariant ops context now wall
             (fun d => map run_invoiceId (invoice_runs d)
                       = map run_invoiceId (invoice_runs db)));
      try (intros; assumption).
    + intros d id dupOf H. unfold markRunDuplicate.
      cbn [invoice_runs set_invoice_runs].
      rewrite map_updateWhere_key; [exact H | reflexivity].
    + intros d mem _ H.
      now destruct (upsertVendorMemory_frame d mem) as (-> & _).
    + intros d row _ H.
      now destruct (upsertCorrectionMemory_frame d row) as (-> & _).
    + intros d key dec H.
      now destruct (recordResolutionDecision_frame d (ctx_vendor context) key dec
                      (inv_invoiceId (ctx_extracted context)) wall) as (-> & _).
    + intros d H.
      now destruct (markLearned_frame d (inv_invoiceId (ctx_extracted context)) wall)
        as (-> & _).
    + reflexivity.
Qed.

(** *** Rejections of a vendor-memory entry *)

Lemma find_updateWhere_same {A} (p : A -> bool) (f : A -> A) l x :
  (forall y, p y = true -> p (f y) = true) ->
  find p l = Some x -> find p (updateWhere p f l) = Some (f x).
Proof.
  intros Hf. unfold updateWhere.
  induction l as [|a l IH]; [discriminate|].
  cbn. destruct (p a) eqn:E.
  - intros [= <-]. now rewrite (Hf a E).
  - rewrite E. exact IH.
Qed.

Lemma In_updateWhere_other {A} (p : A -> bool) (f : A -> A) l x :
  In x l -> p x = false -> In x (updateWhere p f l).
Proof.
  intros Hx Hp. unfold updateWhere. apply in_map_iff.
  exists x. now rewrite Hp.
Qed.

(** X22.  [penalizeVendorMemory].  On an id that names no entry the store
    is left as it is, with no audit event.  On an existing entry the
    confidence goes down by [amount], clamped to [[0, 1]], the reject count
    goes up by one and [lastUsedAt] is stamped; once the new count reaches
    two the entry is disabled and the gate refuses it at every instant.
    Entries under other ids and all other tables are untouched, and one
    audit event is appended, two when the entry is disabled by this call. *)
Theorem penalizeVendorMemory_effect
    (penaltyMeta : R -> R -> Z -> AuditMeta) (disabledMeta : string -> AuditMeta)
    (db : Db) (id : string) (amount : R) (wall : Z) :
  let hit := fun m => String.eqb (vm_id m) id in
  let db' := penalizeVendorMemory penaltyMeta disabledMeta db id amount wall in
  (find hit (vendor_memory db) = None -> db' = db)
  /\ (forall row, find hit (vendor_memory db) = Some row ->
        exists row',
          find hit (vendor_memory db') = Some row'
          /\ vm_confidence row' = Rmax 0 (Rmin 1 (vm_confidence row - amount))
          /\ 0 <= vm_confidence row' <= 1
          /\ vm_rejectCount row' = (vm_rejectCount row + 1)%Z
          /\ vm_lastUsedAt row' = TsAt wall
          /\ vm_status row'
             = (if (2 <=? vm_rejectCount row + 1)%Z then Disabled
                else vm_status row)
          /\ vm_disabledAt row' = vm_disabledAt row
          /\ ((2 <= vm_rejectCount row + 1)%Z ->
              forall now, canApplyVendorMem (Some row') now = false)
          /\ exists evs,
               audit_events db' = audit_events db ++ evs
               /\ List.length evs
                  = (if (2 <=? vm_rejectCount row + 1)%Z
                        && negb (Status_eqb (vm_status row) Disabled)
                     then 2%nat else 1%nat))
  /\ (forall m, In m (vendor_memory db) -> vm_id m <> id ->
        In m (vendor_memory db'))
  /\ invoice_runs db' = invoice_runs db
  /\ correction_memory db' = correction_memory db
  /\ resolution_memory db' = resolution_memory db
  /\ duplicate_records db' = duplicate_records db
  /\ learning_events db' = learning_events db.
Proof.
  cbv zeta. unfold penalizeVendorMemory.
  destruct (find (fun m => String.eqb (vm_id m) id) (vendor_memory db))
    as [row|] eqn:Ef.
  2:{ split; [reflexivity|]. split; [discriminate|]. repeat split; auto. }
  split; [discriminate|]. split.
  - intros r [= <-]. cbv zeta.
    destruct (2 <=? vm_rejectCount row + 1)%Z eqn:E2;
      destruct (Status_eqb (vm_status row) Disabled) eqn:Es;
      cbn [andb negb vendor_memory set_vendor_memory logAuditEvent
           audit_events set_audit_events].
    all: match goal with
         | |- context [find ?p (updateWhere ?p ?f2 (updateWhere ?p ?f1 ?l))] =>
             rewrite (find_updateWhere_same p f2 _ _ (fun y Hy => Hy)
                        (find_updateWhere_same p f1 l row (fun y Hy => Hy) Ef))
         | |- context [find ?p (updateWhere ?p ?f1 ?l)] =>
             rewrite (find_updateWhere_same p f1 l row (fun y Hy => Hy) Ef)
         end.
    all: eexists; split; [reflexivity|]; cbn.
    all: split; [reflexivity|].
    all: split; [unfold Rmax, Rmin; repeat destruct (Rle_dec _ _); lra|].
    all: split; [reflexivity|]; split; [reflexivity|].
    all: split; [try reflexivity; destruct (vm_status row); (reflexivity || discriminate)|].
    all: split; [reflexivity|].
    all: split;
      [ intros Hr now;
        first [ apply Z.leb_gt in E2; lia
              | unfold canApplyVendorMem; cbn;
                try (destruct (vm_status row); try discriminate; reflexivity);
                reflexivity ]
      |].
    all: eexists; split; [try rewrite <- app_assoc; reflexivity | reflexivity].
  - split.
    + intros m Hm Hid.
      assert (Hp : String.eqb (vm_id m) id = false) by now apply String.eqb_neq.
      cbv zeta. break_match; cbn [vendor_memory set_vendor_memory logAuditEvent];
        repeat apply In_updateWhere_other; auto.
    + cbv zeta. break_match; repeat split.
Qed.

Lemma Forall2_updateWhere {A} (Q : A -> A -> Prop) (p : A -> bool)
    (f : A -> A) l :
  (forall x, Q x (if p x then f x else x)) ->
  Forall2 Q l (updateWhere p f l).
Proof.
  intros H. unfold updateWhere.
  induction l as [|a l IH]; cbn; constructor; auto.
Qed.

(** X23.  The store's own [incrementVendorMemoryReject] and
    [disableVendorMemory].  Both change only the entries under the given id,
    row by row, and leave the other tables alone; they keep the confidence
    and [disabledAt] of an entry and do not restart the decay clock of an
    entry that has been used ([lastUsedAt] is filled only where it is
    null).  Counting a rejection adds one to the reject count and never
    changes a status; disabling sets the status, so that the entry is no
    longer recalled and the gate refuses it at every instant. *)
Theorem reject_and_disable_keep_the_clock
    (db : Db) (id : string) (nowIso : isoTime) :
  let counted := incrementVendorMemoryReject db id nowIso in
  let disabled := VendorMemoryDb.disableVendorMemory db id nowIso in
  let kept (m m' : VendorMemory) :=
    vm_id m' = vm_id m
    /\ vm_vendor m' = vm_vendor m
    /\ vm_confidence m' = vm_confidence m
    /\ vm_disabledAt m' = vm_disabledAt m
    /\ vm_lastUsedAt m' = ts_coalesce (vm_lastUsedAt m) nowIso in
  Forall2 (fun m m' =>
             if String.eqb (vm_id m) id
             then kept m m'
                  /\ vm_status m' = vm_status m
                  /\ vm_rejectCount m' = (vm_rejectCount m + 1)%Z
             else m' = m)
    (vendor_memory db) (vendor_memory counted)
  /\ Forall2 (fun m m' =>
                if String.eqb (vm_id m) id
                then kept m m'
                     /\ vm_status m' = Disabled
                     /\ vm_rejectCount m' = vm_rejectCount m
                     /\ forall now, canApplyVendorMem (Some m') now = false
                else m' = m)
       (vendor_memory db) (vendor_memory disabled)
  /\ (forall vendor m, In m (getVendorMemories disabled vendor) -> vm_id m <> id)
  /\ (forall d, d = counted \/ d = disabled ->
        invoice_runs d = invoice_runs db
        /\ correction_memory d = correction_memory db
        /\ resolution_memory d = resolution_memory db
        /\ duplicate_records d = duplicate_records db
        /\ learning_events d = learning_events db
        /\ audit_events d = audit_events db).
Proof.
  cbv zeta. split; [|split; [|split]].
  - apply Forall2_updateWhere. intros m. cbn beta.
    destruct (String.eqb (vm_id m) id) eqn:E; [|reflexivity].
    cbn. repeat split.
  - apply Forall2_updateWhere. intros m. cbn beta.
    destruct (String.eqb (vm_id m) id) eqn:E; [|reflexivity].
    cbn. repeat split.
  - intros vendor m Hm Hid. unfold getVendorMemories in Hm.
    apply filter_In in Hm as [Hm Hf].
    cbn [VendorMemoryDb.disableVendorMemory vendor_memory set_vendor_memory] in Hm.
    apply In_updateWhere in Hm as (x & Hx & ->).
    destruct (String.eqb (vm_id x) id) eqn:E.
    + cbn in Hf. now rewrite andb_false_r in Hf.
    + rewrite Hid, String.eqb_refl in E. discriminate.
  - intros d [-> | ->]; repeat split.
Qed.

(** *** The command line of the administrator *)

Lemma substring_0_app s r : substring 0 (String.length s) (s ++ r)%string = s.
Proof. induction s as [|c s IH]; cbn; [now destruct r | now rewrite IH]. Qed.

Lemma substring_skip s r n :
  substring (String.length s) n (s ++ r)%string = substring 0 n r.
Proof. induction s as [|c s IH]; cbn; [reflexivity | exact IH]. Qed.

Lemma substring_0_all s : substring 0 (String.length s) s = s.
Proof. induction s as [|c s IH]; cbn; [reflexivity | now rewrite IH]. Qed.

Lemma string_length_app s r :
  String.length (s ++ r)%string = (String.length s + String.length r)%nat.
Proof. induction s as [|c s IH]; cbn; [reflexivity | now rewrite IH]. Qed.

Lemma indexOf_app_none c s r :
  indexOf c s = None ->
  indexOf c (s ++ String c r)%string = Some (String.length s).
Proof.
  induction s as [|a s IH]; cbn.
  - now rewrite Ascii.eqb_refl.
  - destruct (Ascii.eqb a c); [discriminate|].
    destruct (indexOf c s); [discriminate|].
    intros _. now rewrite IH.
Qed.

Lemma prefix_dashes s : prefix "--" ("--" ++ s)%string = true.
Proof. cbn. now destruct s. Qed.

Lemma parseLoop_positional argv l opts :
  forallb (fun t => negb (prefix "--" t)) argv = true ->
  parseLoop argv (mkCliArgs (PosList l) opts)
  = Some (mkCliArgs (PosList (l ++ argv)) opts).
Proof.
  revert l. induction argv as [|t rest IH]; intros l H.
  - now rewrite app_nil_r.
  - cbn in H. apply andb_true_iff in H as [Ht Hr].
    cbn [parseLoop]. rewrite Ht. cbn [args_positional args_options].
    rewrite IH by exact Hr. now rewrite <- app_assoc.
Qed.

(** X24.  How [parseCliArgs] reads a command line.  Tokens without a
    leading [--] are the positional arguments, in order.  An option may be
    written [--key=value] or [--key value]: for a key free of [=] and a
    non-empty value that does not start with [--], both forms bind the key
    to the value, and the rest of the line is read alike; after [=] the
    value may be anything.  An option followed by another option, by an
    empty token or by nothing is bound to [true].  Once an option named [_]
    has been given, a positional token makes the parser throw. *)
Theorem parseCliArgs_forms (out : CliArgs) (rest : list string) :
  (forall argv,
     forallb (fun t => negb (prefix "--" t)) argv = true ->
     parseCliArgs argv = Some (mkCliArgs (PosList argv) []))
  /\ (forall k v,
        indexOf "="%char k = None ->
        parseLoop (("--" ++ k ++ "=" ++ v)%string :: rest) out
        = parseLoop rest (setArg out k (ArgStr v)))
  /\ (forall k v,
        indexOf "="%char k = None ->
        nonEmpty v = true -> prefix "--" v = false ->
        parseLoop (("--" ++ k)%string :: v :: rest) out
        = parseLoop rest (setArg out k (ArgStr v)))
  /\ (forall k,
        indexOf "="%char k = None ->
        match rest with
        | [] => True
        | next :: _ => nonEmpty next = false \/ prefix "--" next = true
        end ->
        parseLoop (("--" ++ k)%string :: rest) out
        = parseLoop rest (setArg out k ArgTrue))
  /\ (forall v t,
        prefix "--" t = false ->
        parseLoop (t :: rest) (setArg out "_" v) = None).
Proof.
  assert (Hidx : forall k, indexOf "="%char k = None ->
                   indexOf "="%char ("--" ++ k)%string = None).
  { intros k Hk. cbn. now rewrite Hk. }
  assert (Hkey : forall k, sliceFrom 2 ("--" ++ k)%string = k).
  { intros k. unfold sliceFrom. cbn. rewrite Nat.sub_0_r.
    apply substring_0_all. }
  split; [|split; [|split; [|split]]].
  - intros argv H. unfold parseCliArgs.
    now rewrite parseLoop_positional.
  - intros k v Hk. cbn [parseLoop].
    rewrite prefix_dashes. cbn [negb].
    assert (Hi : indexOf "="%char ("--" ++ k ++ "=" ++ v)%string
                 = Some (2 + String.length k)%nat).
    { cbn. change ("=" ++ v)%string with (String "="%char v).
      now rewrite (indexOf_app_none _ _ _ Hk). }
    rewrite Hi. cbv zeta.
    assert (Hs : slice 2 (2 + String.length k) ("--" ++ k ++ "=" ++ v)%string = k).
    { unfold slice. replace (2 + String.length k - 2)%nat with (String.length k)
        by lia. cbn. apply substring_0_app. }
    assert (Hv : sliceFrom (2 + String.length k + 1)
                   ("--" ++ k ++ "=" ++ v)%string = v).
    { unfold sliceFrom.
      replace (2 + String.length k + 1)%nat with (S (S (String.length (k ++ "="))))
        by (rewrite string_length_app; cbn; lia).
      cbn [append String.length substring].
      replace (k ++ String "="%char v)%string with ((k ++ "=") ++ v)%string.
      2:{ clear. induction k as [|c k IH]; cbn; [reflexivity | now rewrite IH]. }
      rewrite substring_skip.
      rewrite string_length_app.
      replace (S (S (String.length (k ++ "=") + String.length v))
               - S (S (String.length (k ++ "="))))%nat
        with (String.length v) by lia.
      apply substring_0_all. }
    now rewrite Hs, Hv.
  - intros k v Hk Hne Hp. cbn [parseLoop].
    rewrite prefix_dashes. cbn [negb].
    rewrite (Hidx k Hk). cbv zeta. rewrite Hkey, Hne, Hp. reflexivity.
  - intros k Hk Hnext. cbn [parseLoop].
    rewrite prefix_dashes. cbn [negb].
    rewrite (Hidx k Hk). cbv zeta. rewrite Hkey.
    destruct rest as [|next rest']; [reflexivity|].
    destruct Hnext as [-> | ->]; [reflexivity|].
    now rewrite andb_false_r.
  - intros v t Ht. cbn [parseLoop]. rewrite Ht. reflexivity.
Qed.

(** A command line as the administrator types it. *)
Example parseCliArgs_reset :
  parseCliArgs ["reset-confidence"; "--id"; "v1"; "--to=0.9"; "--force"]
  = Some (mkCliArgs (PosList ["reset-confidence"])
            [("force", ArgTrue); ("to", ArgStr "0.9"); ("id", ArgStr "v1")]).
Proof. reflexivity. Qed.

(** X25.  The command line writes only what it has validated.  When
    [runAdminCli] ends with a written store, the store is that of
    [disableVendorMemory] or of [resetVendorMemoryConfidence] for a
    non-empty id, and a reset confidence lies within [[0, 1]]: without an
    id, with a target that is not a number in range, or with an unknown
    command, nothing is written.  Whatever the command, only vendor memory
    and the audit log change: no entry is added or removed, confidences
    that were within [[0, 1]] stay so, and one audit event is appended. *)
Theorem runAdminCli_writes_validated
    (ops : JsOps) (db : Db) (argv : list string) (wall : Z)
    (path : string) (db' : Db)
    (Hrun : runAdminCli ops db argv wall = Some (path, CliDone db')) :
  (exists id,
     nonEmpty id = true
     /\ (db' = disableVendorMemory db id wall
         \/ exists to, 0 <= to <= 1
                       /\ db' = resetVendorMemoryConfidence db id to wall))
  /\ map vm_id (vendor_memory db') = map vm_id (vendor_memory db)
  /\ (Forall (fun m => 0 <= vm_confidence m <= 1) (vendor_memory db) ->
      Forall (fun m => 0 <= vm_confidence m <= 1) (vendor_memory db'))
  /\ (exists e, audit_events db' = audit_events db ++ [e])
  /\ invoice_runs db' = invoice_runs db
  /\ correction_memory db' = correction_memory db
  /\ resolution_memory db' = resolution_memory db
  /\ duplicate_records db' = duplicate_records db
  /\ learning_events db' = learning_events db.
Proof.
  unfold runAdminCli in Hrun.
  destruct (parseCliArgs argv) as [args|]; [|discriminate].
  cbv zeta in Hrun. injection Hrun as _ Hrun.
  set (id := trim ops (stringOfArg (getArgOf args "id") "")) in *.
  assert (Hcases :
    nonEmpty id = true
    /\ (db' = disableVendorMemory db id wall
        \/ exists to, 0 <= to <= 1
                      /\ db' = resetVendorMemoryConfidence db id to wall)).
  { destruct (String.eqb (commandOf args) "list"); [discriminate|].
    destruct (String.eqb (commandOf args) "disable").
    - destruct (nonEmpty id) eqn:Ei; cbn [negb] in Hrun; [|discriminate].
      injection Hrun as <-. auto.
    - destruct (String.eqb (commandOf args) "reset-confidence"); [|discriminate].
      destruct (nonEmpty id) eqn:Ei; cbn [negb] in Hrun; [|discriminate].
      destruct (numberOfArg ops (getArgOf args "to")) as [t| | |];
        try discriminate.
      destruct (Rleb 0 t) eqn:E0; [|discriminate].
      destruct (Rleb t 1) eqn:E1; [|discriminate].
      cbn [andb] in Hrun. injection Hrun as <-.
      apply Rleb_true in E0, E1. split; [reflexivity|]. right. exists t. auto. }
  clear Hrun. destruct Hcases as (Hid & Hdb).
  split; [exists id; auto|].
  destruct Hdb as [-> | (to & Hto & ->)].
  - cbn [disableVendorMemory logAuditEvent vendor_memory set_vendor_memory
         audit_events set_audit_events invoice_runs correction_memory
         resolution_memory duplicate_records learning_events].
    split; [apply map_updateWhere_key; reflexivity|].
    split; [|repeat split; eauto].
    intros H. apply Forall_updateWhere; [|exact H].
    intros m Hm _. rewrite Forall_forall in H. exact (H m Hm).
  - cbn [resetVendorMemoryConfidence logAuditEvent vendor_memory set_vendor_memory
         audit_events set_audit_events invoice_runs correction_memory
         resolution_memory duplicate_records learning_events].
    split; [apply map_updateWhere_key; reflexivity|].
    split; [|repeat split; eauto].
    intros H. apply Forall_updateWhere; [|exact H].
    intros m Hm _. exact Hto.
Qed.

Lemma runAdminCli_writes_validated_witness :
  (exists id,
     nonEmpty id = true
     /\ (disableVendorMemory disabledDb "v1" 7 = disableVendorMemory disabledDb id 7
         \/ exists to, 0 <= to <= 1
              /\ disableVendorMemory disabledDb "v1" 7
                 = resetVendorMemoryConfidence disabledDb id to 7))
  /\ map vm_id (vendor_memory (disableVendorMemory disabledDb "v1" 7))
     = map vm_id (vendor_memory disabledDb)
  /\ (Forall (fun m => 0 <= vm_confidence m <= 1) (vendor_memory disabledDb) ->
      Forall (fun m => 0 <= vm_confidence m <= 1)
        (vendor_memory (disableVendorMemory disabledDb "v1" 7)))
  /\ (exists e,
        audit_events (disableVendorMemory disabledDb "v1" 7)
        = audit_events disabledDb ++ [e])
  /\ invoice_runs (disableVendorMemory disabledDb "v1" 7) = invoice_runs disabledDb
  /\ correction_memory (disableVendorMemory disabledDb "v1" 7)
     = correction_memory disabledDb
  /\ resolution_memory (disableVendorMemory disabledDb "v1" 7)
     = resolution_memory disabledDb
  /\ duplicate_records (disableVendorMemory disabledDb "v1" 7)
     = duplicate_records disabledDb
  /\ learning_events (disableVendorMemory disabledDb "v1" 7)
     = learning_events disabledDb.
Proof.
  apply (runAdminCli_writes_validated plainOps disabledDb
           ["disable"; "--id"; " v1 "; "--db=/tmp/memory.db"] 7
           "/tmp/memory.db").
  reflexivity.
Defined.

(** *** The tally of decisions *)

Lemma NoDup_setAdd s x : NoDup s -> NoDup (setAdd s x).
Proof.
  intros H. unfold setAdd.
  destruct (existsb (String.eqb x) s) eqn:E; [exact H|].
  apply NoDup_app; [exact H | repeat constructor; intros [] |].
  intros a Ha [<-|[]].
  assert (existsb (String.eqb x) s = true) as E'
    by (apply existsb_exists; exists x; split; [exact Ha | apply String.eqb_refl]).
  congruence.
Qed.

Section Tally.

Variable ops : JsOps.
Variable context : Context.
Variables now wall : Z.
Variable vendorMemsAll : list VendorMemory.

Let K (st : RunState) : Prop := NoDup (st_resKeys st).

Ltac keys_step H :=
  cbn [st_resKeys pushCorrection pushReason pushTrail raiseScore
       useResolutionKey withDb useCorrectionMemory];
  repeat first [ exact H | apply NoDup_setAdd ].

Lemma applyServiceDate_keys st :
  K st -> K (applyServiceDate ops context now vendorMemsAll st).
Proof.
  intros H. unfold K, applyServiceDate. cbv zeta.
  repeat break_match; keys_step H.
Qed.

Lemma applyPoInference_keys st :
  K st -> K (applyPoInference ops context now vendorMemsAll st).
Proof.
  intros H. unfold K, applyPoInference. cbv zeta.
  repeat break_match; keys_step H.
Qed.

Lemma applyVatTotals_keys st :
  K st -> K (applyVatTotals ops context now vendorMemsAll st).
Proof.
  intros H. unfold K, applyVatTotals. cbv zeta.
  repeat break_match; keys_step H.
Qed.

Lemma applyQtyItem_keys st li :
  K st -> K (applyQtyItem ops context now wall st li).
Proof.
  intros H. unfold K, applyQtyItem. cbv zeta.
  repeat break_match; keys_step H.
Qed.

Lemma applyCurrency_keys st :
  K st -> K (applyCurrency ops context now wall vendorMemsAll st).
Proof.
  intros H. unfold K, applyCurrency. cbv zeta.
  repeat break_match; keys_step H.
Qed.

Lemma applySkonto_keys st :
  K st -> K (applySkonto ops context now wall vendorMemsAll st).
Proof.
  intros H. unfold K, applySkonto. cbv zeta.
  repeat break_match; keys_step H.
Qed.

Lemma applyFreightSku_keys st :
  K st -> K (applyFreightSku ops context now wall vendorMemsAll st).
Proof.
  intros H. unfold K, applyFreightSku. cbv zeta.
  repeat break_match; keys_step H.
Qed.

Lemma applyPhase_keys st :
  K st -> K (applyPhase ops context now wall vendorMemsAll st).
Proof.
  intros H. unfold applyPhase. cbv zeta.
  assert (H5 : K (applyCurrency ops context now wall vendorMemsAll
                    (applyQuantities ops context now wall
                       (applyVatTotals ops context now vendorMemsAll
                          (applyPoInference ops context now vendorMemsAll
                             (applyServiceDate ops context now vendorMemsAll st)))))).
  { apply applyCurrency_keys. unfold applyQuantities.
    apply fold_left_invariant; [intros; now apply applyQtyItem_keys|].
    now apply applyVatTotals_keys, applyPoInference_keys, applyServiceDate_keys. }
  unfold applyFreightVendor.
  destruct (isFreightVendor ops (ctx_vendor context)).
  - exact (applyFreightSku_keys _ (applySkonto_keys _ H5)).
  - exact H5.
Qed.

(** Steps of the Learn phase that leave resolution memory and the keys in
    use alone. *)
Let resIdle (st st' : RunState) : Prop :=
  resolution_memory (st_db st') = resolution_memory (st_db st)
  /\ st_resKeys st' = st_resKeys st.

Lemma resIdle_refl st : resIdle st st.
Proof. split; reflexivity. Qed.

Lemma resIdle_trans a b c : resIdle a b -> resIdle b c -> resIdle a c.
Proof. intros [] []; split; congruence. Qed.

Lemma learnVendorMemory_resIdle kind pattern note st :
  resIdle st (learnVendorMemory context now vendorMemsAll kind pattern note st).
Proof.
  split; [|reflexivity]. unfold learnVendorMemory. cbv zeta.
  cbn [st_db pushUpdate withDb].
  now destruct (upsertVendorMemory_frame (st_db st)
    (mkVendorMemory
       (ctx_vendor context ++ "::" ++ kind ++ "::" ++ pattern)%string
       (ctx_vendor context) kind pattern
       (Rmin 0.95
          (match find (fun m => String.eqb (vm_id m)
                        (ctx_vendor context ++ "::" ++ kind ++ "::" ++ pattern)%string)
                   vendorMemsAll with
           | Some e => vm_confidence e | None => 0.6 end + 0.1))
       (match find (fun m => String.eqb (vm_id m)
                     (ctx_vendor context ++ "::" ++ kind ++ "::" ++ pattern)%string)
                vendorMemsAll with
        | Some e => vm_supportCount e | None => 0 end + 1)%Z
       (match find (fun m => String.eqb (vm_id m)
                     (ctx_vendor context ++ "::" ++ kind ++ "::" ++ pattern)%string)
                vendorMemsAll with
        | Some e => vm_rejectCount e | None => 0%Z end)
       (TsAt now) Active TsNull)) as (_ & _ & _ & -> & _).
Qed.

Lemma learnQtyFix_resIdle st fx :
  resIdle st (learnQtyFix ops context now st fx).
Proof.
  unfold learnQtyFix. break_match; [|apply resIdle_refl].
  split; [|reflexivity]. cbn [st_db pushUpdate withDb].
  match goal with |- context [upsertCorrectionMemory ?d ?r] =>
    now destruct (upsertCorrectionMemory_frame d r) as (_ & _ & _ & -> & _) end.
Qed.

Lemma learnApproved_resIdle corrections st :
  resIdle st (learnApproved ops context now vendorMemsAll corrections st).
Proof.
  unfold learnApproved. cbv zeta.
  repeat match goal with
         | |- resIdle _ (if ?c then _ else _) => destruct c
         | |- resIdle ?a (learnVendorMemory _ _ _ _ _ _ ?b) =>
             apply (resIdle_trans a b);
             [|apply learnVendorMemory_resIdle]
         | |- resIdle ?a (fold_left _ _ ?b) =>
             apply (resIdle_trans a b);
             [|apply (fold_left_related _ resIdle resIdle_refl
                        resIdle_trans (learnQtyFix_resIdle))]
         end; apply resIdle_refl.
Qed.

Let invoiceId : string := inv_invoiceId (ctx_extracted context).

Lemma learnResolution_row dec st key :
  let st' := learnResolution ops context now wall dec invoiceId st key in
  tallied dec invoiceId
    (resolutionRow (st_db st) (ctx_vendor context) key)
    (resolutionRow (st_db st') (ctx_vendor context) key)
  /\ forall v k, (v, k) <> (ctx_vendor context, key) ->
       resolutionRow (st_db st') v k = resolutionRow (st_db st) v k.
Proof.
  cbv zeta. unfold learnResolution.
  pose proof (recordResolutionDecision_row (st_db st) (ctx_vendor context) key
                dec invoiceId wall) as Hrow.
  pose proof (recordResolutionDecision_other (st_db st) (ctx_vendor context) key
                dec invoiceId wall) as Hother.
  cbv zeta in Hrow.
  destruct (recordResolutionDecision (st_db st) (ctx_vendor context) key dec
              invoiceId wall) as [db [value c]].
  cbn [fst snd] in *. cbn [st_db pushTrail withDb].
  split.
  - destruct Hrow as (r' & Hr & _ & _ & Hv & _). exists r'. split; assumption.
  - exact Hother.
Qed.

Lemma learnResolutions_tally dec keys :
  NoDup keys ->
  forall st,
    let st' := fold_left (learnResolution ops context now wall dec invoiceId)
                 keys st in
    forall v k,
      (v = ctx_vendor context /\ In k keys ->
       tallied dec invoiceId (resolutionRow (st_db st) v k)
         (resolutionRow (st_db st') v k))
      /\ (~ (v = ctx_vendor context /\ In k keys) ->
          resolutionRow (st_db st') v k = resolutionRow (st_db st) v k).
Proof.
  induction 1 as [|key rest Hnot Hnd IH]; intros st; cbv zeta; intros v k.
  - split; [intros [_ []] | reflexivity].
  - cbn [fold_left].
    destruct (learnResolution_row dec st key) as [Hrow Hother].
    cbv zeta in Hrow, Hother.
    set (s1 := learnResolution ops context now wall dec invoiceId st key) in *.
    destruct (IH s1 v k) as [IHin IHout]. cbv zeta in IHin, IHout.
    split.
    + intros [-> [<- | Hk]].
      * rewrite IHout by (intros [_ Hin]; contradiction). exact Hrow.
      * rewrite <- (Hother (ctx_vendor context) k)
          by (intros [= <-]; contradiction).
        apply IHin. auto.
    + intros Hn. rewrite IHout by (intros [Hv Hin]; apply Hn; cbn; auto).
      apply Hother. intros [= -> ->]. apply Hn. cbn. auto.
Qed.

End Tally.

(** X26.  A run books its verdict once per strategy.  For every vendor and
    resolution key, the row a run leaves is the row it found, or the row
    with exactly one decision added: the approved or the rejected counter
    is one higher, the other is unchanged, and the row names the verdict
    and the invoice.  The second happens only for the vendor of the
    invoice, on a run that is no duplicate and returns, for an invoice not
    learned before and with a human verdict on file. *)
Theorem verdict_is_booked_once
    (ops : JsOps) (db : Db) (context : Context) (now wall : Z)
    (v k : string) :
  let db' := fst (runPipeline ops db context now wall) in
  let invoiceId := inv_invoiceId (ctx_extracted context) in
  resolutionRow db' v k = resolutionRow db v k
  \/ (v = ctx_vendor context
      /\ detectDuplicate ops db (ctx_extracted context) = NotDuplicate
      /\ hasLearned db invoiceId = false
      /\ (exists out, snd (runPipeline ops db context now wall) = Some out)
      /\ exists dec,
           verdictOf context = Some dec
           /\ tallied dec invoiceId (resolutionRow db v k)
                (resolutionRow db' v k)).
Proof.
  cbv zeta.
  destruct (detectDuplicate ops db (ctx_extracted context))
    as [|dupOf reason fp] eqn:E.
  2:{ left. rewrite (runPipeline_duplicate _ _ _ now wall _ _ _ E). reflexivity. }
  destruct (runPipeline_store ops db context now wall E)
    as (st0 & (Hdb & _ & _ & Hk0 & _) & Hrun).
  cbv zeta in Hrun. destruct Hrun as [-> Hnone].
  set (vmAll := getVendorMemories db (ctx_vendor context)) in *.
  set (sA := applyPhase ops context now wall vmAll st0) in *.
  set (sD := snd (decidePhase ops context now sA)) in *.
  assert (HkA : NoDup (st_resKeys sA)).
  { apply applyPhase_keys. rewrite Hk0. constructor. }
  destruct (applyPhase_frame ops context now wall vmAll st0) as (Hm & _).
  fold sA in Hm. rewrite Hdb in Hm.
  destruct Hm as (_ & _ & _ & _ & HresA & _ & _ & _ & HleA & _).
  destruct (decidePhase_spec ops context now sA) as (_ & HdbD & _ & _ & HkD & _).
  fold sD in HdbD, HkD.
  assert (HresD : resolution_memory (st_db sD) = resolution_memory db)
    by now rewrite HdbD.
  assert (HleD : hasLearned (st_db sD) (inv_invoiceId (ctx_extracted context))
                 = hasLearned db (inv_invoiceId (ctx_extracted context)))
    by (unfold hasLearned; now rewrite HdbD, HleA).
  assert (Hsame : forall d, resolution_memory d = resolution_memory db ->
                    resolutionRow d v k = resolutionRow db v k)
    by (intros d Hd; unfold resolutionRow; now rewrite Hd).
  destruct (learnPhase_cases ops context now wall vmAll sD)
    as [(_ & msg & Hc) | [(_ & _ & msg & Hc) | [(_ & _ & m & r & _ & Hc)
       | (Hl & row & dec & _ & Hv & _ & Hc)]]].
  - left. rewrite Hc. apply Hsame. exact HresD.
  - left. rewrite Hc. apply Hsame. exact HresD.
  - left. rewrite Hc. apply Hsame. exact HresD.
  - cbv zeta in Hc. destruct Hc as (ev & msg & Hc).
    assert (Hret : exists out, snd (runPipeline ops db context now wall) = Some out).
    { destruct (snd (runPipeline ops db context now wall)) as [out|] eqn:Es;
        [now exists out|].
      destruct (proj1 Hnone eq_refl) as (db' & Hth).
      rewrite Hc in Hth. discriminate Hth. }
    rewrite Hc. cbn [learnStore st_db pushTrail withDb].
    rewrite HleD in Hl.
    match goal with
    | |- context [fold_left (learnResolution _ _ _ _ _ _) (st_resKeys ?s) _] =>
        set (s1 := s) in *
    end.
    assert (H1 : resolution_memory (st_db s1) = resolution_memory (st_db sD)
                 /\ st_resKeys s1 = st_resKeys sD).
    { unfold s1. destruct dec.
      - apply learnApproved_resIdle.
      - split; reflexivity. }
    destruct H1 as [Hres1 Hk1].
    assert (Hnd : NoDup (st_resKeys s1)) by (rewrite Hk1, HkD; exact HkA).
    destruct (learnResolutions_tally ops context now wall dec (st_resKeys s1) Hnd
                s1 v k) as [Hin Hout].
    cbv zeta in Hin, Hout.
    set (s2 := fold_left (learnResolution ops context now wall dec
                            (inv_invoiceId (ctx_extracted context)))
                 (st_resKeys s1) s1) in *.
    assert (Hfin : forall d,
              resolutionRow (logAuditEvent
                               (markLearned d (inv_invoiceId (ctx_extracted context)) wall)
                               now ev (Some (ctx_vendor context))
                               (Some (inv_invoiceId (ctx_extracted context))) None None
                               (MetaLearn (filter nonEmpty (map mu_id (st_updates s2)))))
                v k
              = resolutionRow d v k).
    { intros d. unfold resolutionRow. cbn [logAuditEvent resolution_memory set_audit_events].
      now destruct (markLearned_frame d (inv_invoiceId (ctx_extracted context)) wall)
        as (_ & _ & _ & _ & -> & _). }
    rewrite Hfin.
    assert (H1row : resolutionRow (st_db s1) v k = resolutionRow db v k)
      by (apply Hsame; now rewrite Hres1).
    rewrite H1row in Hin, Hout.
    destruct (String.eqb_spec v (ctx_vendor context)) as [Hv' | Hv'].
    + destruct (in_dec string_dec k (st_resKeys s1)) as [Hk | Hk].
      * right. split; [exact Hv'|]. split; [reflexivity|]. split; [exact Hl|].
        split; [exact Hret|].
        exists dec. split; [exact Hv|]. apply Hin. auto.
      * left. apply Hout. intros [_ Hin']. contradiction.
    + left. apply Hout. intros [Hv'' _]. contradiction.
Qed.

(** *** Upserting and recalling vendor memory *)

Lemma updateWhere_id {A} (p : A -> bool) (f : A -> A) l :
  (forall x, In x l -> p x = true -> f x = x) -> updateWhere p f l = l.
Proof.
  intros H. unfold updateWhere. rewrite <- (map_id l) at 2.
  apply map_ext_in. intros x Hx.
  destruct (p x) eqn:E; [now apply H | reflexivity].
Qed.

Lemma updateWhere_app {A} (p : A -> bool) (f : A -> A) l1 l2 :
  updateWhere p f (l1 ++ l2) = updateWhere p f l1 ++ updateWhere p f l2.
Proof. unfold updateWhere. apply map_app. Qed.

Lemma existsb_updateWhere {A} (p : A -> bool) (f : A -> A) l :
  (forall x, p (f x) = p x) ->
  existsb p (updateWhere p f l) = existsb p l.
Proof.
  intros H. unfold updateWhere. induction l as [|a l IH]; [reflexivity|].
  cbn. rewrite IH. destruct (p a) eqn:E; [now rewrite H, E | now rewrite E].
Qed.

(** X27.  [upsertVendorMemory] and lookup by id.  After an upsert the entry
    found under the id carries every column of the given entry except
    [disabledAt], which keeps its stored value and is null for a new id.
    Entries under other ids are untouched.  The entry is recalled for its
    vendor exactly when it is active and not disabled by the
    administrator; and upserting the same entry a second time changes
    nothing. *)
Theorem upsertVendorMemory_lookup (db : Db) (mem : VendorMemory) :
  let hit := fun m => String.eqb (vm_id m) (vm_id mem) in
  let db' := upsertVendorMemory db mem in
  (exists row',
     find hit (vendor_memory db') = Some row'
     /\ row' = mkVendorMemory (vm_id mem) (vm_vendor mem) (vm_kind mem)
                 (vm_pattern mem) (vm_confidence mem) (vm_supportCount mem)
                 (vm_rejectCount mem) (vm_lastUsedAt mem) (vm_status mem)
                 (match find hit (vendor_memory db) with
                  | Some old => vm_disabledAt old
                  | None => TsNull
                  end)
     /\ (In row' (getVendorMemories db' (vm_vendor mem))
         <-> vm_status mem = Active
             /\ tsNullOrEmpty (vm_disabledAt row') = true))
  /\ (forall m, vm_id m <> vm_id mem ->
        (In m (vendor_memory db') <-> In m (vendor_memory db)))
  /\ upsertVendorMemory db' mem = db'.
Proof.
  cbv zeta. split; [|split].
  - unfold upsertVendorMemory. cbv zeta. rewrite existsb_find.
    destruct (find (fun m => String.eqb (vm_id m) (vm_id mem)) (vendor_memory db))
      as [old|] eqn:Ef; cbn [vendor_memory set_vendor_memory].
    + eexists. split.
      * apply (find_updateWhere_same _ _ _ old); [|exact Ef].
        intros y _. cbn. apply String.eqb_refl.
      * split; [reflexivity|].
        unfold getVendorMemories. cbn [vendor_memory set_vendor_memory].
        rewrite filter_In. cbn. rewrite String.eqb_refl. cbn.
        split.
        -- intros [_ H]. apply andb_true_iff in H as [Hs Hd].
           split; [now destruct (vm_status mem) | exact Hd].
        -- intros [Hs Hd]. split.
           ++ apply in_map_iff. exists old.
              apply find_some in Ef as [Hin Hp]. cbn beta in Hp.
              rewrite Hp. auto.
           ++ rewrite Hs, Hd. reflexivity.
    + eexists. split.
      * rewrite find_app, Ef. cbn. now rewrite String.eqb_refl.
      * split; [reflexivity|].
        unfold getVendorMemories. cbn [vendor_memory set_vendor_memory].
        rewrite filter_In. cbn. rewrite String.eqb_refl. cbn.
        split.
        -- intros [_ H]. rewrite andb_true_r in H.
           split; [now destruct (vm_status mem) | reflexivity].
        -- intros [Hs _]. split.
           ++ apply in_or_app. right. now left.
           ++ rewrite Hs. reflexivity.
  - intros m Hid.
    assert (Hp : String.eqb (vm_id m) (vm_id mem) = false)
      by now apply String.eqb_neq.
    unfold upsertVendorMemory. cbv zeta.
    destruct (existsb _ (vendor_memory db)); cbn [vendor_memory set_vendor_memory].
    + split.
      * intros H. apply In_updateWhere in H as (x & Hx & ->).
        destruct (String.eqb (vm_id x) (vm_id mem)) eqn:E; [|exact Hx].
        cbn in Hid. contradiction.
      * intros H. now apply In_updateWhere_other.
    + rewrite in_app_iff. split; [|auto].
      intros [H | [<- | []]]; [exact H|]. cbn in Hid. contradiction.
  - unfold upsertVendorMemory at 1. cbv zeta.
    assert (Hex : existsb (fun m => String.eqb (vm_id m) (vm_id mem))
                    (vendor_memory (upsertVendorMemory db mem)) = true).
    { destruct (upsertVendorMemory_row db mem) as (m' & Hin & Hid & _).
      apply existsb_exists. exists m'. split; [exact Hin|].
      now apply String.eqb_eq. }
    rewrite Hex.
    assert (Hl : updateWhere (fun m => String.eqb (vm_id m) (vm_id mem))
                   (fun old =>
                      mkVendorMemory (vm_id mem) (vm_vendor mem) (vm_kind mem)
                        (vm_pattern mem) (vm_confidence mem) (vm_supportCount mem)
                        (vm_rejectCount mem) (vm_lastUsedAt mem) (vm_status mem)
                        (vm_disabledAt old))
                   (vendor_memory (upsertVendorMemory db mem))
                 = vendor_memory (upsertVendorMemory db mem)).
    { apply updateWhere_id. intros x Hx Hp.
      unfold upsertVendorMemory in Hx. cbv zeta in Hx.
      destruct (existsb _ (vendor_memory db)) eqn:Eold;
        cbn [vendor_memory set_vendor_memory] in Hx.
      - apply In_updateWhere in Hx as (y & Hy & ->).
        destruct (String.eqb (vm_id y) (vm_id mem)) eqn:E; [reflexivity|].
        congruence.
      - apply in_app_iff in Hx as [Hx | [<- | []]]; [|reflexivity].
        assert (existsb (fun m => String.eqb (vm_id m) (vm_id mem))
                  (vendor_memory db) = true)
          by (apply existsb_exists; eauto).
        congruence. }
    rewrite Hl. now destruct (upsertVendorMemory db mem).
Qed.

(** *** The fingerprint *)

Lemma lowerAscii_upperAscii c : lowerAscii (upperAscii c) = lowerAscii c.
Proof. destruct c as [[] [] [] [] [] [] [] []]; reflexivity. Qed.

Lemma lowerAscii_idem c : lowerAscii (lowerAscii c) = lowerAscii c.
Proof. destruct c as [[] [] [] [] [] [] [] []]; reflexivity. Qed.

Lemma isWhite_upperAscii c : isWhite (upperAscii c) = isWhite c.
Proof. destruct c as [[] [] [] [] [] [] [] []]; reflexivity. Qed.

Lemma isWhite_lowerAscii c : isWhite (lowerAscii c) = isWhite c.
Proof. destruct c as [[] [] [] [] [] [] [] []]; reflexivity. Qed.

Lemma mapString_mapString f g s :
  mapString f (mapString g s) = mapString (fun c => f (g c)) s.
Proof. induction s as [|c s IH]; cbn; [reflexivity | now rewrite IH]. Qed.

Lemma mapString_ext f g s :
  (forall c, f c = g c) -> mapString f s = mapString g s.
Proof. intros H. induction s as [|c s IH]; cbn; [reflexivity | now rewrite H, IH]. Qed.

Lemma trimStart_mapString f s :
  (forall c, isWhite (f c) = isWhite c) ->
  trimStart (mapString f s) = mapString f (trimStart s).
Proof.
  intros H. induction s as [|c s IH]; cbn; [reflexivity|].
  rewrite H. destruct (isWhite c); [exact IH | reflexivity].
Qed.

Lemma trimEnd_mapString f s :
  (forall c, isWhite (f c) = isWhite c) ->
  trimEnd (mapString f s) = mapString f (trimEnd s).
Proof.
  intros H. induction s as [|c s IH]; cbn; [reflexivity|].
  rewrite IH, H. destruct (trimEnd s); cbn; [|reflexivity].
  destruct (isWhite c); reflexivity.
Qed.

Lemma trim_mapString f s :
  (forall c, isWhite (f c) = isWhite c) ->
  asciiTrim (mapString f s) = mapString f (asciiTrim s).
Proof.
  intros H. unfold asciiTrim. now rewrite trimStart_mapString, trimEnd_mapString.
Qed.

Lemma trimStart_allWhite l x : allWhite l = true -> trimStart (l ++ x) = trimStart x.
Proof.
  induction l as [|c l IH]; cbn; [reflexivity|].
  intros H. apply andb_true_iff in H as [-> Hl]. now apply IH.
Qed.

Lemma trimEnd_allWhite r : allWhite r = true -> trimEnd r = "".
Proof.
  induction r as [|c r IH]; cbn; [reflexivity|].
  intros H. apply andb_true_iff in H as [-> Hr]. now rewrite IH.
Qed.

Lemma trimEnd_app_allWhite x r :
  allWhite r = true -> trimEnd (x ++ r) = trimEnd x.
Proof.
  intros H. induction x as [|c x IH]; cbn.
  - now apply trimEnd_allWhite.
  - now rewrite IH.
Qed.

Lemma trim_padded l x r :
  allWhite l = true -> allWhite r = true ->
  asciiTrim (l ++ x ++ r) = asciiTrim x.
Proof.
  intros Hl Hr. unfold asciiTrim. rewrite trimStart_allWhite by exact Hl.
  induction x as [|c x IH]; cbn.
  - assert (Hs : trimStart r = "").
    { clear - Hr. induction r as [|a r IH]; [reflexivity|].
      cbn in Hr |- *. apply andb_true_iff in Hr as [-> Hr]. now apply IH. }
    now rewrite Hs.
  - destruct (isWhite c); [exact IH|].
    exact (trimEnd_app_allWhite (String c x) r Hr).
Qed.

Lemma trimEnd_idem u : trimEnd (trimEnd u) = trimEnd u.
Proof.
  induction u as [|c u IH]; [reflexivity|].
  cbn. destruct (trimEnd u) as [|a t] eqn:E.
  - destruct (isWhite c) eqn:W; [reflexivity|]. cbn. now rewrite W.
  - cbn [trimEnd] in IH |- *. now rewrite IH.
Qed.

Lemma trimStart_head s :
  trimStart s = "" \/ exists c x, trimStart s = String c x /\ isWhite c = false.
Proof.
  induction s as [|c s IH]; [now left|].
  cbn. destruct (isWhite c) eqn:W; [exact IH|]. right. eauto.
Qed.

Lemma trim_idem s : asciiTrim (asciiTrim s) = asciiTrim s.
Proof.
  unfold asciiTrim. destruct (trimStart_head s) as [-> | (c & x & -> & W)];
    [reflexivity|].
  assert (H : exists y, trimEnd (String c x) = String c y).
  { cbn. destruct (trimEnd x); [rewrite W|]; eauto. }
  destruct H as (y & Hy).
  assert (Hs : trimStart (trimEnd (String c x)) = trimEnd (String c x))
    by (rewrite Hy; cbn; now rewrite W).
  rewrite Hs. apply trimEnd_idem.
Qed.

Lemma isAsciiChar_lowerAscii c : isAsciiChar (lowerAscii c) = isAsciiChar c.
Proof. destruct c as [[] [] [] [] [] [] [] []]; reflexivity. Qed.

Lemma isAsciiChar_upperAscii c : isAsciiChar (upperAscii c) = isAsciiChar c.
Proof. destruct c as [[] [] [] [] [] [] [] []]; reflexivity. Qed.

Lemma isWhite_isAsciiChar c : isWhite c = true -> isAsciiChar c = true.
Proof.
  destruct c as [[] [] [] [] [] [] [] []]; vm_compute; intros H;
    first [reflexivity | discriminate H].
Qed.

Lemma isAscii_mapString f s :
  (forall c, isAsciiChar (f c) = isAsciiChar c) ->
  isAscii (mapString f s) = isAscii s.
Proof. intros H. induction s as [|c s IH]; cbn; [reflexivity | now rewrite H, IH]. Qed.

Lemma isAscii_app a b : isAscii (a ++ b) = isAscii a && isAscii b.
Proof.
  induction a as [|c a IH]; cbn; [reflexivity|]. now rewrite IH, andb_assoc.
Qed.

Lemma isAscii_allWhite s : allWhite s = true -> isAscii s = true.
Proof.
  induction s as [|c s IH]; cbn; [reflexivity|].
  intros H. apply andb_true_iff in H as [Hc Hs].
  now rewrite (isWhite_isAsciiChar c Hc), IH.
Qed.

Lemma isAscii_trimStart s : isAscii s = true -> isAscii (trimStart s) = true.
Proof.
  induction s as [|c s IH]; cbn; [reflexivity|].
  intros H. apply andb_true_iff in H as [Hc Hs].
  destruct (isWhite c); [now apply IH | cbn; now rewrite Hc, Hs].
Qed.

Lemma isAscii_trimEnd s : isAscii s = true -> isAscii (trimEnd s) = true.
Proof.
  induction s as [|c s IH]; cbn; [reflexivity|].
  intros H. apply andb_true_iff in H as [Hc Hs]. specialize (IH Hs).
  destruct (trimEnd s) as [|a t].
  - destruct (isWhite c); [reflexivity | cbn; now rewrite Hc].
  - cbn [isAscii] in IH |- *. now rewrite Hc, IH.
Qed.

Lemma isAscii_asciiTrim s : isAscii s = true -> isAscii (asciiTrim s) = true.
Proof. intros H. unfold asciiTrim. now apply isAscii_trimEnd, isAscii_trimStart. Qed.

(** On an ASCII string, [normalize] trims and lowers byte by byte. *)
Lemma normalize_ascii ops s :
  asciiFaithful ops -> isAscii s = true ->
  normalize ops (VStr s) = asciiToLowerCase (asciiTrim s).
Proof.
  intros Hops Hs. unfold normalize. cbn [coalesce isNullish toStr].
  rewrite (proj2 (Hops s Hs)).
  exact (proj1 (Hops _ (isAscii_asciiTrim s Hs))).
Qed.

Lemma normalize_dressed ops l s r :
  asciiFaithful ops -> isAscii s = true ->
  allWhite l = true -> allWhite r = true ->
  normalize ops (VStr (l ++ asciiToUpperCase s ++ r)) = normalize ops (VStr s).
Proof.
  intros Hops Hs Hl Hr.
  assert (Hd : isAscii (l ++ asciiToUpperCase s ++ r) = true).
  { rewrite !isAscii_app, (isAscii_allWhite l Hl), (isAscii_allWhite r Hr).
    unfold asciiToUpperCase.
    now rewrite (isAscii_mapString _ s isAsciiChar_upperAscii), Hs. }
  rewrite (normalize_ascii ops _ Hops Hd), (normalize_ascii ops _ Hops Hs).
  rewrite trim_padded by assumption.
  unfold asciiToUpperCase, asciiToLowerCase.
  rewrite trim_mapString by apply isWhite_upperAscii.
  rewrite mapString_mapString. apply mapString_ext, lowerAscii_upperAscii.
Qed.

(** X28.  On ASCII strings the fingerprint ignores letter case and
    surrounding blanks.  Let the run-time case mapping and [trim] treat
    ASCII strings as JavaScript does.  Then two invoices that differ only
    in their ids and in the case of the letters and the surrounding white
    space of an ASCII vendor name and an ASCII invoice number have the same
    fingerprint; and normalising the normal form of a value whose string
    form is ASCII changes nothing. *)
Theorem fingerprint_ignores_case_and_padding
    (ops : JsOps) (id id' vendor number : string) (l1 r1 l2 r2 : string)
    (date service currency net gross tax rate po terms : value)
    (items : option (list LineItem)) (raw : option string)
    (Hops : asciiFaithful ops)
    (Hvendor : isAscii vendor = true) (Hnumber : isAscii number = true)
    (Hl1 : allWhite l1 = true) (Hr1 : allWhite r1 = true)
    (Hl2 : allWhite l2 = true) (Hr2 : allWhite r2 = true) :
  computeFingerprint ops
    (mkInvoice id' (l1 ++ asciiToUpperCase vendor ++ r1)
       (mkFields (VStr (l2 ++ asciiToUpperCase number ++ r2)) date service
          currency net gross tax rate po terms items)
       raw)
  = computeFingerprint ops
      (mkInvoice id vendor
         (mkFields (VStr number) date service currency net gross tax rate po
            terms items)
         raw)
  /\ forall v,
       isAscii (toStr ops (coalesce v (VStr ""))) = true ->
       normalize ops (VStr (normalize ops v)) = normalize ops v.
Proof.
  split.
  - unfold computeFingerprint.
    cbn [inv_fields inv_vendor inv_rawText f_invoiceNumber f_currency
         f_grossTotal f_netTotal rawTextValue].
    now rewrite !normalize_dressed by assumption.
  - intros v Hv.
    assert (E : normalize ops v
                = asciiToLowerCase (asciiTrim (toStr ops (coalesce v (VStr ""))))).
    { unfold normalize. rewrite (proj2 (Hops _ Hv)).
      exact (proj1 (Hops _ (isAscii_asciiTrim _ Hv))). }
    rewrite E.
    assert (Hn : isAscii (asciiToLowerCase
                            (asciiTrim (toStr ops (coalesce v (VStr ""))))) = true).
    { unfold asciiToLowerCase.
      rewrite (isAscii_mapString _ _ isAsciiChar_lowerAscii).
      now apply isAscii_asciiTrim. }
    rewrite (normalize_ascii ops _ Hops Hn).
    unfold asciiToLowerCase.
    rewrite trim_mapString by apply isWhite_lowerAscii.
    rewrite mapString_mapString.
    rewrite trim_idem. apply mapString_ext, lowerAscii_idem.
Qed.

Lemma fingerprint_ignores_case_and_padding_witness :
  computeFingerprint plainOps
    (mkInvoice "INV-2" (" " ++ asciiToUpperCase "Supplier GmbH" ++ "  ")
       (mkFields (VStr ("" ++ asciiToUpperCase "inv-1" ++ " ")) VNull VNull
          (VStr "EUR") (VNum (Fin 100)) (VNum (Fin 119)) VNull VNull VNull
          VNull None)
       None)
  = computeFingerprint plainOps
      (mkInvoice "INV-1" "Supplier GmbH"
         (mkFields (VStr "inv-1") VNull VNull (VStr "EUR") (VNum (Fin 100))
            (VNum (Fin 119)) VNull VNull VNull VNull None)
         None)
  /\ forall v,
       isAscii (toStr plainOps (coalesce v (VStr ""))) = true ->
       normalize plainOps (VStr (normalize plainOps v)) = normalize plainOps v.
Proof.
  apply (fingerprint_ignores_case_and_padding plainOps "INV-1" "INV-2"
           "Supplier GmbH" "inv-1" " " "  " "" " ");
    first [reflexivity | intros s _; split; reflexivity].
Defined.
(** ** The review flag and a field that a proposal fills *)



(** ** A run that ends in the rejection loop *)



